(** * feedsheild: the rate-limited auto-blocking scheduler of [main.py]

    A shallow embedding of the background task of the FastAPI backend
    ([auto_block_accounts], [start_auto_blocking]) and of the request
    handlers that write to the same SQLite database, followed by the
    properties of the quota tracker, the eligibility filter and the cycle
    driver.

    Conventions.
    - Python [int] is [Z]; SQL [NULL] and Python [None] are [None].
    - A table whose scan order is observed by the code ([users],
      [accounts], [payment_history]) is the list of its rows in the order a
      [SELECT] returns them; [daily_blocked_counts], only ever addressed by
      its primary key [(user_id, date)], is a finite map.
    - The code runs in a monad threading the database connection, the log
      and the two sources of nondeterminism: the clock ([datetime.utcnow])
      and the failures of the store ([sqlite3.Error]).
    - SQLite's INTEGER columns hold 64-bit values; at no more than 100
      increments per day that limit is out of reach and is not modelled. *)

From Stdlib Require Import ZArith String Ascii List Bool Lia.
From stdpp Require Import base option list gmap strings.

Local Open Scope string_scope.
Local Open Scope Z_scope.

(** ** Python's [datetime] *)

Module PyDatetime.

(** A naive [datetime.datetime]. *)
Record datetime := mk_datetime {
  year : Z; month : Z; day : Z;
  hour : Z; minute : Z; second : Z; microsecond : Z
}.

Definition is_leap (y : Z) : bool :=
  (y mod 4 =? 0) && (negb (y mod 100 =? 0) || (y mod 400 =? 0)).

Definition days_in_month (y m : Z) : Z :=
  if m =? 2 then (if is_leap y then 29 else 28)
  else if (m =? 4) || (m =? 6) || (m =? 9) || (m =? 11) then 30 else 31.

(** The invariant every [datetime] object satisfies (MINYEAR = 1,
    MAXYEAR = 9999). *)
Definition valid_datetime (t : datetime) : Prop :=
  1 <= year t <= 9999 /\ 1 <= month t <= 12 /\
  1 <= day t <= days_in_month (year t) (month t) /\
  0 <= hour t < 24 /\ 0 <= minute t < 60 /\ 0 <= second t < 60 /\
  0 <= microsecond t < 1000000.

(** [_days_before_year], [_days_before_month], [_ymd2ord] of datetime.py. *)
Definition days_before_year (y : Z) : Z :=
  let y := y - 1 in y * 365 + y / 4 - y / 100 + y / 400.

Definition DAYS_BEFORE_MONTH : list Z :=
  [-1; 0; 31; 59; 90; 120; 151; 181; 212; 243; 273; 304; 334].

Definition days_before_month (y m : Z) : Z :=
  nth (Z.to_nat m) DAYS_BEFORE_MONTH 0
  + (if (2 <? m) && is_leap y then 1 else 0).

Definition ymd2ord (y m d : Z) : Z :=
  days_before_year y + days_before_month y m + d.

(** The position of a datetime on the time line, in microseconds. *)
Definition to_microseconds (t : datetime) : Z :=
  (ymd2ord (year t) (month t) (day t) * 86400
   + hour t * 3600 + minute t * 60 + second t) * 1000000 + microsecond t.

(** [(a - b).total_seconds() > secs].  [total_seconds] divides the exact
    number of microseconds by 10**6; against a whole number of seconds the
    comparison of the quotient is the comparison of the microseconds. *)
Definition total_seconds_gt (a b : datetime) (secs : Z) : bool :=
  secs * 1000000 <? to_microseconds a - to_microseconds b.

(** One decimal digit as a character. *)
Definition digit (n : Z) : ascii := ascii_of_N (48 + Z.to_N (n mod 10)).

(** ["%02d"] and ["%04d"] on the ranges of a valid date. *)
Definition fmt_02d (n : Z) : string :=
  String (digit (n / 10)) (String (digit n) EmptyString).

Definition fmt_04d (n : Z) : string :=
  String (digit (n / 1000)) (String (digit (n / 100)) (fmt_02d n)).

(** [t.date().isoformat()]: ["%04d-%02d-%02d" % (year, month, day)]. *)
Definition date_isoformat (t : datetime) : string :=
  fmt_04d (year t) +:+ "-" +:+ fmt_02d (month t) +:+ "-" +:+ fmt_02d (day t).

End PyDatetime.
Export PyDatetime.

(** ** SQLite's [datetime(X, 'unixepoch', 'localtime')]

    The part of SQLite's date.c that the query of [auto_block_accounts]
    exercises.  A time value that has the form YYYY-MM-DD is a calendar
    date; text that is a number is a raw number ([rawS]); the ['unixepoch']
    modifier applies to a raw number only and fails on every other time
    value, which makes the whole function NULL. *)

Module Sqlite.

Definition is_digit (c : ascii) : bool :=
  let n := N_of_ascii c in ((48 <=? n) && (n <=? 57))%N.

Definition digit_value (c : ascii) : Z := Z.of_N (N_of_ascii c) - 48.

(** [getDigits]: exactly [n] decimal digits. *)
Fixpoint get_digits (n : nat) (z : string) (acc : Z) : option (Z * string) :=
  match n with
  | O => Some (acc, z)
  | S n' =>
      match z with
      | String c z' =>
          if is_digit c then get_digits n' z' (acc * 10 + digit_value c)
          else None
      | EmptyString => None
      end
  end.

Definition expect (c : ascii) (z : string) : option string :=
  match z with
  | String c' z' => if Ascii.eqb c c' then Some z' else None
  | EmptyString => None
  end.

(** [parseYyyyMmDd] with the format ["40f-21a-21d"]: four digits in
    0..9999, two in 1..12, two in 1..31.  Only the date-only form is
    accepted here; a date followed by a time of day is no number either and
    ends in the same NULL below. *)
Definition parseYyyyMmDd (zDate : string) : option (Z * Z * Z) :=
  let neg := bool_decide (is_Some (expect "-"%char zDate)) in
  let z := default zDate (expect "-"%char zDate) in
  '(Y, z) ← get_digits 4 z 0;
  z ← expect "-"%char z;
  '(M, z) ← get_digits 2 z 0;
  z ← expect "-"%char z;
  '(D, z) ← get_digits 2 z 0;
  if (1 <=? M) && (M <=? 12) && (1 <=? D) && (D <=? 31) then
    match z with
    | EmptyString => Some (if neg then - Y else Y, M, D)
    | _ => None
    end
  else None.

(** Text that is an integer literal: an optional sign and digits to the end
    (the fractional and exponent forms that [sqlite3AtoF] also reads are
    not needed and are left out). *)
Fixpoint parse_digits (z : string) (acc : Z) : option Z :=
  match z with
  | EmptyString => Some acc
  | String c z' =>
      if is_digit c then parse_digits z' (acc * 10 + digit_value c) else None
  end.

Definition parse_integer (z : string) : option Z :=
  match z with
  | EmptyString => None
  | String "-"%char (String c z') => Z.opp <$> parse_digits (String c z') 0
  | String "+"%char (String c z') => parse_digits (String c z') 0
  | _ => parse_digits z 0
  end.

Inductive time_value :=
| Calendar_date (Y M D : Z)
| Raw_number (r : Z).

(** [parseDateOrTime]: the date form is tried first, the number last. *)
Definition parseDateOrTime (z : string) : option time_value :=
  match parseYyyyMmDd z with
  | Some (Y, M, D) => Some (Calendar_date Y M D)
  | None => Raw_number <$> parse_integer z
  end.

(** The ['unixepoch'] modifier: seconds since 1970, for a raw number whose
    Julian day is in range. *)
Definition unixepoch (tv : time_value) : option Z :=
  match tv with
  | Raw_number r =>
      let jd := r * 1000 + 210866760000000 in
      if (0 <=? jd) && (jd <? 464269060800000) then Some r else None
  | Calendar_date _ _ _ => None
  end.

(** [datetime(X, 'unixepoch', 'localtime')] on a TEXT value.  [render]
    turns seconds since the epoch into the local 'YYYY-MM-DD HH:MM:SS'
    text; it depends on the time zone of the host. *)
Definition datetime_unixepoch_localtime
    (render : Z -> string) (x : string) : option string :=
  tv ← parseDateOrTime x; r ← unixepoch tv; Some (render r).

End Sqlite.

(** ** The database of [init_db] *)

Module Store.

(** [users]: id INTEGER PRIMARY KEY AUTOINCREMENT, email, password,
    stripe_customer_id, blocked_count INTEGER DEFAULT 0. *)
Record user_row := mk_user {
  u_id : Z; email : string; password : string;
  stripe_customer_id : option string; blocked_count : Z
}.

(** [accounts]: PRIMARY KEY (user_id, username), is_connected BOOLEAN. *)
Record account_row := mk_account {
  a_user_id : Z; username : string; is_connected : option Z
}.

(** [payment_history]; [amount] REAL is kept as the integer amount of cents
    it is computed from. *)
Record payment_row := mk_payment {
  p_user_id : Z; amount_cents : Z; package : string; p_date : string
}.

Record DB := mk_DB {
  users : list user_row;
  users_seq : Z;                                (* sqlite_sequence of users *)
  accounts : list account_row;
  payment_history : list payment_row;
  daily_blocked_counts : gmap (Z * string) Z    (* (user_id, date) -> blocked *)
}.

(** The database of a fresh file after [init_db]. *)
Definition empty_DB : DB := mk_DB [] 0 [] [] ∅.

Definition set_users (f : list user_row -> list user_row) (db : DB) : DB :=
  mk_DB (f (users db)) (users_seq db) (accounts db) (payment_history db)
        (daily_blocked_counts db).

Definition set_daily (f : gmap (Z * string) Z -> gmap (Z * string) Z) (db : DB) : DB :=
  mk_DB (users db) (users_seq db) (accounts db) (payment_history db)
        (f (daily_blocked_counts db)).

(** [SELECT ... FROM users WHERE id = ?] followed by [fetchone()]. *)
Definition select_user (db : DB) (user_id : Z) : option user_row :=
  find (fun r => u_id r =? user_id) (users db).

(** [UPDATE users SET blocked_count = ? WHERE id = ?]. *)
Definition update_blocked_count (v user_id : Z) (db : DB) : DB :=
  set_users (map (fun r =>
    if u_id r =? user_id
    then mk_user (u_id r) (email r) (password r) (stripe_customer_id r) v
    else r)) db.

(** [INSERT OR REPLACE INTO daily_blocked_counts (user_id, date, blocked)]. *)
Definition replace_daily (user_id : Z) (date : string) (v : Z) (db : DB) : DB :=
  set_daily (fun m => <[(user_id, date) := v]> m) db.

(** The order in which SQLite returns the rows it reads through an index on
    a TEXT column: ascending by the bytes of the key, rows of one key in the
    order of the table. *)
Fixpoint insert_by {A} (key : A -> string) (x : A) (l : list A) : list A :=
  match l with
  | [] => [x]
  | y :: l' =>
      if String.leb (key x) (key y) then x :: y :: l'
      else y :: insert_by key x l'
  end.

Fixpoint index_order {A} (key : A -> string) (l : list A) : list A :=
  match l with
  | [] => []
  | x :: l' => insert_by key x (index_order key l')
  end.

(** A list of rows in ascending order of their keys. *)
Fixpoint ascending {A} (key : A → string) (l : list A) : Prop :=
  match l with
  | [] => True
  | x :: l' =>
      Forall (fun y => String.leb (key x) (key y) = true) l' ∧ ascending key l'
  end.

(** [SELECT id FROM users WHERE EXISTS (SELECT 1 FROM payment_history
    WHERE user_id = users.id)].  The query names no column but [id], so
    SQLite scans the index of the UNIQUE column [email], which holds the id
    of every row: the ids come back in the order of the emails. *)
Definition has_payment (db : DB) (user_id : Z) : bool :=
  existsb (fun p => p_user_id p =? user_id) (payment_history db).

Definition select_paid_users (db : DB) : list Z :=
  map u_id (index_order email
              (filter (fun r => Is_true (has_payment db (u_id r))) (users db))).

(** [SELECT is_connected FROM accounts WHERE user_id = ?]: all rows of the
    user, found through the index of the primary key (user_id, username) and
    so in the order of the usernames. *)
Definition select_is_connected (db : DB) (user_id : Z) : list (option Z) :=
  map is_connected
      (index_order username
         (filter (fun a => a_user_id a = user_id) (accounts db))).

(** Truth value of a fetched [is_connected]: NULL and 0 are false. *)
Definition truthy (v : option Z) : bool :=
  match v with Some n => negb (n =? 0) | None => false end.

(** The lifetime counter and the window counter of the spec. *)
Definition lifetime (db : DB) (user_id : Z) : option Z :=
  blocked_count <$> select_user db user_id.

Definition window (db : DB) (user_id : Z) (date : string) : option Z :=
  daily_blocked_counts db !! (user_id, date).

End Store.
Export Store.

(** ** The execution monad *)

Module Exec.

Inductive exn := Sqlite3_Error | TypeError | ValueError.

Inductive outcome (A : Type) :=
| Ret (a : A)
| Raise (e : exn).
Arguments Ret {A} a.
Arguments Raise {A} e.

Inductive log_record :=
| Info_auto_blocked (user_id total daily : Z)
| Error_database_in_auto_block_accounts
| Error_in_auto_blocking_task (e : exn).

(** The write statements a connection has executed. *)
Inductive statement :=
| Replace_daily (user_id : Z) (date : string) (blocked : Z)
| Update_blocked_count (blocked_count user_id : Z)
| Commit.

(** What the code cannot decide by itself. *)
Record Env := mk_Env {
  (** the column [datetime(date, 'unixepoch', 'localtime')] of the query,
      as a function of the row's [date] *)
  sql_last_updated : string -> option string;
  (** [datetime.strptime(_, "%Y-%m-%d %H:%M:%S")]; [None] is ValueError *)
  strptime : string -> option datetime;
  (** the n-th reading of [datetime.utcnow()] *)
  utcnow : nat -> datetime;
  (** whether the n-th operation on the store raises [sqlite3.Error] *)
  store_fault : nat -> bool
}.

Record state := mk_state {
  disk : DB;                 (* the committed database *)
  txn : DB;                  (* the database as the open connection sees it *)
  store_ops : nat;
  clock_reads : nat;
  log : list log_record;     (* latest first *)
  journal : list statement;  (* latest first *)
  sleeps : nat               (* completed [asyncio.sleep(6)] *)
}.

Definition M (A : Type) : Type := state -> outcome A * state.

Definition ret {A} (a : A) : M A := fun s => (Ret a, s).

Definition bind {A B} (m : M A) (k : A -> M B) : M B := fun s =>
  match m s with
  | (Ret a, s') => k a s'
  | (Raise e, s') => (Raise e, s')
  end.

Definition raise {A} (e : exn) : M A := fun s => (Raise e, s).

(** [try: m except <catches>: h]. *)
Definition try_except {A} (m : M A) (catches : exn -> bool) (h : exn -> M A) : M A :=
  fun s =>
    match m s with
    | (Ret a, s') => (Ret a, s')
    | (Raise e, s') => if catches e then h e s' else (Raise e, s')
    end.

Definition is_sqlite3_Error (e : exn) : bool :=
  match e with Sqlite3_Error => true | _ => false end.

Definition is_Exception (e : exn) : bool := true.

End Exec.
Export Exec.

#[global] Instance M_ret : MRet M := @ret.
#[global] Instance M_bind : MBind M := fun A B k m => bind m k.

(** ** The connection, the clock and the logger *)

Module Conn.
Section WithEnv.
Context (E : Env).

Definition tick_store (s : state) : state :=
  mk_state (disk s) (txn s) (S (store_ops s)) (clock_reads s) (log s)
           (journal s) (sleeps s).

(** One operation on the store: it raises [sqlite3.Error] and leaves the
    database as it is, or it runs. *)
Definition store_op {A} (run : state -> A * state) : M A := fun s =>
  if store_fault E (store_ops s) then (Raise Sqlite3_Error, tick_store s)
  else let '(a, s') := run (tick_store s) in (Ret a, s').

(** [cursor.execute] of a SELECT and the fetch of its result. *)
Definition query {A} (q : DB -> A) : M A :=
  store_op (fun s => (q (txn s), s)).

(** [cursor.execute] of a write; the change stays in the open transaction. *)
Definition execute (st : statement) (w : DB -> DB) : M unit :=
  store_op (fun s =>
    (tt, mk_state (disk s) (w (txn s)) (store_ops s) (clock_reads s) (log s)
                  (st :: journal s) (sleeps s))).

(** [db.commit()]. *)
Definition commit : M unit :=
  store_op (fun s =>
    (tt, mk_state (txn s) (txn s) (store_ops s) (clock_reads s) (log s)
                  (Commit :: journal s) (sleeps s))).

(** [sqlite3.connect(DB_PATH, ...)]: a new connection sees what is
    committed. *)
Definition connect : M unit :=
  store_op (fun s =>
    (tt, mk_state (disk s) (disk s) (store_ops s) (clock_reads s) (log s)
                  (journal s) (sleeps s))).

(** [conn.close()]: what was not committed is dropped. *)
Definition close : M unit := fun s =>
  (Ret tt, mk_state (disk s) (disk s) (store_ops s) (clock_reads s) (log s)
                    (journal s) (sleeps s)).

Definition datetime_utcnow : M datetime := fun s =>
  (Ret (utcnow E (clock_reads s)),
   mk_state (disk s) (txn s) (store_ops s) (S (clock_reads s)) (log s)
            (journal s) (sleeps s)).

Definition logger (r : log_record) : M unit := fun s =>
  (Ret tt, mk_state (disk s) (txn s) (store_ops s) (clock_reads s)
                    (r :: log s) (journal s) (sleeps s)).

Definition asyncio_sleep : M unit := fun s =>
  (Ret tt, mk_state (disk s) (txn s) (store_ops s) (clock_reads s) (log s)
                    (journal s) (S (sleeps s))).

(** [row["column"]] on the result of [fetchone()]: TypeError on [None]. *)
Definition subscript {A} (row : option A) : M A :=
  match row with Some r => ret r | None => raise TypeError end.

(** [datetime.strptime(text, "%Y-%m-%d %H:%M:%S")]. *)
Definition datetime_strptime (text : string) : M datetime :=
  match strptime E text with Some t => ret t | None => raise ValueError end.

End WithEnv.
End Conn.
Export Conn.

(** ** The quota tracker and the cycle driver *)

Module Scheduler.
Section WithEnv.
Context (E : Env).

(** Truth value of the fetched [last_updated]: [None] and [""] are false. *)
Definition str_truthy (v : option string) : bool :=
  match v with
  | Some EmptyString => false
  | Some _ => true
  | None => false
  end.

(** The row of the second query: [blocked] and
    [datetime(date, 'unixepoch', 'localtime') as last_updated]. *)
Definition select_daily (user_id : Z) (today : string) (db : DB)
  : option (Z * option string) :=
  (fun blocked => (blocked, sql_last_updated E today)) <$> window db user_id today.

(** [auto_block_accounts(user_id, db)], lines 235-273. *)
Definition auto_block_accounts (user_id : Z) : M unit :=
  try_except
    (row ← query E (fun db => select_user db user_id);
     row ← subscript row;
     let blocked_count := blocked_count row in
     now ← datetime_utcnow E;
     let today := date_isoformat now in
     daily_record ← query E (select_daily user_id today);
     let daily_count := match daily_record with Some r => r.1 | None => 0 end in
     let last_updated := match daily_record with Some r => r.2 | None => None end in
     if daily_count <? 100 then
       daily_count ←
         (if str_truthy last_updated then
            last_time ← datetime_strptime E (default "" last_updated);
            now ← datetime_utcnow E;
            if total_seconds_gt now last_time 600 then
              execute E (Replace_daily user_id today 0)
                        (replace_daily user_id today 0);;
              ret 0
            else ret daily_count
          else ret daily_count);
       if daily_count <? 100 then
         let blocked_count := blocked_count + 1 in
         let daily_count := daily_count + 1 in
         execute E (Replace_daily user_id today daily_count)
                   (replace_daily user_id today daily_count);;
         execute E (Update_blocked_count blocked_count user_id)
                   (update_blocked_count blocked_count user_id);;
         commit E;;
         logger (Info_auto_blocked user_id blocked_count daily_count)
       else ret tt
     else ret tt)
    is_sqlite3_Error
    (fun _ => logger Error_database_in_auto_block_accounts).

(** The [for user in paid_users] loop of [start_auto_blocking]. *)
Fixpoint for_paid_users (paid_users : list Z) : M unit :=
  match paid_users with
  | [] => ret tt
  | user :: rest =>
      rows ← query E (fun db => select_is_connected db user);
      (match head rows with                          (* fetchone() *)
       | Some v => if truthy v then auto_block_accounts user else ret tt
       | None => ret tt
       end);;
      for_paid_users rest
  end.

(** One turn of the [while True] loop of [start_auto_blocking]. *)
Definition start_auto_blocking_pass : M unit :=
  try_except
    (connect E;;
     paid_users ← query E select_paid_users;
     for_paid_users paid_users;;
     close)
    is_Exception
    (fun e => logger (Error_in_auto_blocking_task e));;
  asyncio_sleep.

(** The first [n] turns of [start_auto_blocking]. *)
Fixpoint start_auto_blocking (n : nat) : M unit :=
  match n with
  | O => ret tt
  | S n' => start_auto_blocking_pass;; start_auto_blocking n'
  end.

(** The users the pass calls [auto_block_accounts] for. *)
Definition selected (db : DB) (user_id : Z) : bool :=
  bool_decide (user_id ∈ select_paid_users db) &&
  match head (select_is_connected db user_id) with
  | Some v => truthy v
  | None => false
  end.

End WithEnv.
End Scheduler.
Export Scheduler.

(** ** The request handlers that write to the database *)

Module Http.

(** The id an AUTOINCREMENT key gives the next row. *)
Definition next_user_id (db : DB) : Z :=
  foldr Z.max (users_seq db) (map u_id (users db)) + 1.

(** [signup]: refused when the email is taken, else
    [INSERT INTO users (...) VALUES (email, hash, None, 0)]. *)
Definition signup (email_ hashed_password : string) (db : DB) : DB :=
  if existsb (fun r => String.eqb (email r) email_) (users db) then db
  else
    let new_id := next_user_id db in
    mk_DB (users db ++ [mk_user new_id email_ hashed_password None 0]) new_id
          (accounts db) (payment_history db) (daily_blocked_counts db).

(** [connect_instagram]: [INSERT OR REPLACE INTO accounts VALUES
    (user_id, "@instagram_acc", True)].  The row that replaces another one
    is a new row of the table, after the others; the queries on [accounts]
    read the rows through the index of the primary key. *)
Definition connect_instagram (user_id : Z) (db : DB) : DB :=
  mk_DB (users db) (users_seq db)
        (filter (fun a => ¬ (a_user_id a = user_id ∧ username a = "@instagram_acc"))
                (accounts db)
         ++ [mk_account user_id "@instagram_acc" (Some 1)])
        (payment_history db) (daily_blocked_counts db).

(** [confirm_payment]: the payment is recorded for a known user when the
    payment intent has succeeded. *)
Definition confirm_payment (user_id : Z) (succeeded : bool)
    (amount : Z) (description now_iso : string) (db : DB) : DB :=
  match select_user db user_id with
  | Some _ =>
      if succeeded then
        mk_DB (users db) (users_seq db) (accounts db)
              (payment_history db ++ [mk_payment user_id amount description now_iso])
              (daily_blocked_counts db)
      else db
  | None => db
  end.

(** [create_subscription]: [UPDATE users SET stripe_customer_id = ?] for a
    known user that has none yet. *)
Definition create_subscription (user_id : Z) (customer_id : string) (db : DB) : DB :=
  match select_user db user_id with
  | Some u =>
      match stripe_customer_id u with
      | None | Some EmptyString =>
          set_users (map (fun r =>
            if u_id r =? user_id
            then mk_user (u_id r) (email r) (password r) (Some customer_id)
                         (blocked_count r)
            else r)) db
      | Some _ => db
      end
  | None => db
  end.

(** [get_dashboard]: [any(row["is_connected"] for row in accounts)] and the
    lifetime counter it shows. *)
Definition dashboard_instagram_connected (db : DB) (user_id : Z) : bool :=
  existsb truthy (select_is_connected db user_id).

Definition dashboard_blocked_count (db : DB) (user_id : Z) : option Z :=
  lifetime db user_id.

(** The requests of the application; [login], [get_dashboard] and
    [create_payment_intent] execute no write. *)
Inductive request :=
| Signup (email_ hashed_password : string)
| Login (email_ : string)
| Get_dashboard (user_id : Z)
| Connect_instagram (user_id : Z)
| Create_payment_intent (user_id : Z)
| Confirm_payment (user_id : Z) (succeeded : bool) (amount : Z)
                  (description now_iso : string)
| Create_subscription (user_id : Z) (customer_id : string).

Definition handle (r : request) (db : DB) : DB :=
  match r with
  | Signup e h => signup e h db
  | Login _ | Get_dashboard _ | Create_payment_intent _ => db
  | Connect_instagram u => connect_instagram u db
  | Confirm_payment u ok a d t => confirm_payment u ok a d t db
  | Create_subscription u c => create_subscription u c db
  end.

End Http.
Export Http.

(** ** The application: requests served between the turns of the task *)

Module App.
Section WithEnv.
Context (E : Env).

(** [auto_block_accounts] never awaits, so a turn of the background task
    runs from [connect] to [sleep] without a request in between. *)
Inductive event :=
| Request (r : request)
| Wake.

Definition system_step (s : state) (ev : event) : state :=
  match ev with
  | Request r =>
      let db := handle r (disk s) in
      mk_state db db (store_ops s) (clock_reads s) (log s) (journal s) (sleeps s)
  | Wake => (start_auto_blocking_pass E s).2
  end.

Definition run (evs : list event) (s : state) : state :=
  foldl system_step s evs.

End WithEnv.

Definition initial_state : state :=
  mk_state empty_DB empty_DB 0 0 [] [] 0.

End App.
Export App.

(** ** Concrete environments *)

Module Scenario.

(** The parser of the scenarios: [strptime(text, "%Y-%m-%d %H:%M:%S")] on
    text of the exact shape 'YYYY-MM-DD HH:MM:SS', the shape of every text
    SQLite's [datetime] returns, and the only text the scenarios give it.
    It is not all of Python's [strptime], which also reads fields of one
    digit and longer white space: this parser refuses such text, and the
    theorems on an arbitrary environment take [strptime] as it comes. *)
Definition strptime_canonical (text : string) : option datetime :=
  '(Y, z) ← Sqlite.get_digits 4 text 0;
  z ← Sqlite.expect "-"%char z;
  '(m, z) ← Sqlite.get_digits 2 z 0;
  z ← Sqlite.expect "-"%char z;
  '(d, z) ← Sqlite.get_digits 2 z 0;
  z ← Sqlite.expect " "%char z;
  '(H, z) ← Sqlite.get_digits 2 z 0;
  z ← Sqlite.expect ":"%char z;
  '(Mi, z) ← Sqlite.get_digits 2 z 0;
  z ← Sqlite.expect ":"%char z;
  '(Se, z) ← Sqlite.get_digits 2 z 0;
  match z with
  | EmptyString =>
      if (1 <=? Y) && (1 <=? m) && (m <=? 12) && (1 <=? d)
         && (d <=? days_in_month Y m) && (H <? 24) && (Mi <? 60) && (Se <? 60)
      then Some (mk_datetime Y m d H Mi Se 0)
      else None
  | _ => None
  end.

(** The environment of the deployed code: SQLite evaluates the column
    [last_updated]. *)
Definition sqlite_env (render : Z -> string) (parse : string -> option datetime)
    (clock : nat -> datetime) (fault : nat -> bool) : Env :=
  mk_Env (Sqlite.datetime_unixepoch_localtime render) parse clock fault.

(** A store that keeps a time of last update and returns it as text. *)
Definition stamped_env (last_updated : option string)
    (clock : nat -> datetime) (fault : nat -> bool) : Env :=
  mk_Env (fun _ => last_updated) strptime_canonical clock fault.

Definition no_fault : nat -> bool := fun _ => false.

(** 2026-10-12 at [h]:[m]:[s] UTC. *)
Definition oct12 (h m s : Z) : datetime := mk_datetime 2026 10 12 h m s 0.

(** A database with one paying, connected user whose counters are
    [total] and [daily] on 2026-10-12. *)
Definition one_user (total : Z) (daily : option Z) : DB :=
  mk_DB [mk_user 1 "u@example.com" "hash" None total] 1
        [mk_account 1 "@instagram_acc" (Some 1)]
        [mk_payment 1 999 "basic" "2026-10-01T00:00:00"]
        (match daily with
         | Some d => {[ (1, "2026-10-12") := d ]}
         | None => ∅
         end).

Definition at_rest (db : DB) : state := mk_state db db 0 0 [] [] 0.

(** A paying user with two account rows: one kept from before the
    [is_connected] column existed, which the migration of db.py sets to 0,
    and the one [connect_instagram] writes.  The first is first by rowid
    and by the primary-key index alike. *)
Definition two_accounts : DB :=
  mk_DB [mk_user 1 "u@example.com" "hash" None 0] 1
        [mk_account 1 "@alice" (Some 0); mk_account 1 "@instagram_acc" (Some 1)]
        [mk_payment 1 999 "basic" "2026-10-01T00:00:00"] ∅.

(** Two paying, connected users without counters for the day. *)
Definition two_users : DB :=
  mk_DB [mk_user 1 "a@example.com" "hash" None 0;
         mk_user 2 "b@example.com" "hash" None 0] 2
        [mk_account 1 "@instagram_acc" (Some 1);
         mk_account 2 "@instagram_acc" (Some 1)]
        [mk_payment 1 999 "basic" "2026-10-01T00:00:00";
         mk_payment 2 999 "basic" "2026-10-01T00:00:00"] ∅.

(** The [k]-th operation on the store fails, no other. *)
Definition fault_at (k : nat) : nat -> bool := fun n => Nat.eqb n k.

(** A hundred readings six seconds apart from 09:00:00, then 12:00:00. *)
Definition morning_then_noon (n : nat) : datetime :=
  if (n <? 100)%nat
  then oct12 9 (Z.of_nat n / 10) (Z.of_nat n mod 10 * 6)
  else oct12 12 0 0.

(** A first reading at 09:00:00, every later one at 12:00:00. *)
Definition nine_then_noon (n : nat) : datetime :=
  match n with
  | O => oct12 9 0 0
  | S _ => oct12 12 0 0
  end.

(** SQLite renders a time only for a raw number; where every date is an
    ISO date no rendering is ever asked for, and any function serves. *)
Definition any_render (r : Z) : string := "1970-01-01 00:00:00".

End Scenario.

(** ** Vocabulary of the properties *)

Module Spec.

(** The date [auto_block_accounts] computes when called in state [s]. *)
Definition today_of (E : Env) (s : state) : string :=
  date_isoformat (utcnow E (clock_reads s)).

(** The time the call sees: the clock reading that gives [today]. *)
Definition now_of (E : Env) (s : state) : datetime :=
  utcnow E (clock_reads s).

Definition elapsed_us (now last_time : datetime) : Z :=
  to_microseconds now - to_microseconds last_time.

Definition no_faults (E : Env) : Prop := ∀ n, store_fault E n = false.

(** The window count and the last update the call reads: 0 and none when
    the day has no row. *)
Definition daily_count_of (E : Env) (s : state) (user_id : Z) : Z :=
  default 0 (window (txn s) user_id (today_of E s)).

Definition last_updated_of (E : Env) (s : state) (user_id : Z) : option string :=
  match window (txn s) user_id (today_of E s) with
  | Some _ => sql_last_updated E (today_of E s)
  | None => None
  end.

(** The write a statement of the journal is: what [cursor.execute] of it
    does to the database the connection sees. *)
Definition apply_statement (st : statement) (db : DB) : DB :=
  match st with
  | Replace_daily user_id date blocked => replace_daily user_id date blocked db
  | Update_blocked_count blocked_count user_id =>
      update_blocked_count blocked_count user_id db
  | Commit => db
  end.

(** The state [s] with a connection that sees [db]. *)
Definition with_txn (db : DB) (s : state) : state :=
  mk_state (disk s) db (store_ops s) (clock_reads s) (log s) (journal s)
           (sleeps s).

Definition logged_block (l : list log_record) (user_id : Z) : bool :=
  existsb (fun r => match r with
                    | Info_auto_blocked u _ _ => u =? user_id
                    | _ => false
                    end) l.

(** "With the window count at 100 and the last update 600 seconds or more
    ago, the count is reset to 0, then incremented to 1, the lifetime
    counter is incremented and the increment is reported." *)
Definition resets_at_cap_after_600s (E : Env) (s : state) (user_id : Z) : Prop :=
  ∀ total text last_time,
    no_faults E →
    lifetime (txn s) user_id = Some total →
    window (txn s) user_id (today_of E s) = Some 100 →
    sql_last_updated E (today_of E s) = Some text →
    strptime E text = Some last_time →
    600 * 1000000 <= elapsed_us (now_of E s) last_time →
    let s' := (auto_block_accounts E user_id s).2 in
    window (disk s') user_id (today_of E s) = Some 1 ∧
    lifetime (disk s') user_id = Some (total + 1) ∧
    logged_block (log s') user_id = true.

(** "With the window count below 100 and no prior timestamp, the window
    count is set to 1 and the lifetime counter is incremented." *)
Definition first_increment_sets_window_to_1
    (E : Env) (s : state) (user_id : Z) : Prop :=
  ∀ total,
    no_faults E →
    lifetime (txn s) user_id = Some total →
    daily_count_of E s user_id < 100 →
    str_truthy (last_updated_of E s user_id) = false →
    let s' := (auto_block_accounts E user_id s).2 in
    window (disk s') user_id (today_of E s) = Some 1 ∧
    lifetime (disk s') user_id = Some (total + 1).

(** "A store error during the call for a user leaves no counter update of
    that user visible": a pass that reports no block for the user leaves
    the committed counters of the user as they were. *)
Definition store_error_leaves_no_trace
    (E : Env) (s : state) (user_id : Z) : Prop :=
  let s' := (start_auto_blocking_pass E s).2 in
  logged_block (log s') user_id = false →
  lifetime (disk s') user_id = lifetime (disk s) user_id ∧
  ∀ day, window (disk s') user_id day = window (disk s) user_id day.

(** "A user is selected iff a payment exists for them and one of their
    account rows is connected." *)
Definition selected_iff_paid_and_connected (db : DB) (user_id : Z) : Prop :=
  selected db user_id = true ↔
  (has_payment db user_id = true ∧
   ∃ a, a ∈ accounts db ∧ a_user_id a = user_id ∧ truthy (is_connected a) = true).

(** [n] calls of [auto_block_accounts] for one user in a row. *)
Fixpoint repeat_calls (E : Env) (user_id : Z) (n : nat) (s : state) : state :=
  match n with
  | O => s
  | S n' => repeat_calls E user_id n' (auto_block_accounts E user_id s).2
  end.

(** Between two states of the database no user disappears and no lifetime
    counter decreases. *)
Definition evolves (d0 d : DB) : Prop :=
  ∀ u, match lifetime d0 u with
       | None => lifetime d u = None
       | Some n => ∃ m, lifetime d u = Some m ∧ n <= m
       end.

Definition non_negative (db : DB) : Prop :=
  ∀ u n, lifetime db u = Some n → 0 <= n.

End Spec.
Export Spec.


(** ** More of Python's [datetime] *)

Module Calendar.

Definition DI400Y : Z := days_before_year 401.
Definition DI100Y : Z := days_before_year 101.
Definition DI4Y : Z := days_before_year 5.
Definition MAXORDINAL : Z := 3652059.

Definition DAYS_IN_MONTH : list Z :=
  [-1; 31; 28; 31; 30; 31; 30; 31; 31; 30; 31; 30; 31].

(** [_ord2ymd] of datetime.py. *)
Definition ord2ymd (n : Z) : Z * Z * Z :=
  let n := n - 1 in
  let n400 := n / DI400Y in let n := n mod DI400Y in
  let year := n400 * 400 + 1 in
  let n100 := n / DI100Y in let n := n mod DI100Y in
  let n4 := n / DI4Y in let n := n mod DI4Y in
  let n1 := n / 365 in let n := n mod 365 in
  let year := year + (n100 * 100 + n4 * 4 + n1) in
  if (n1 =? 4) || (n100 =? 4) then (year - 1, 12, 31)
  else
    let leapyear := (n1 =? 3) && (negb (n4 =? 24) || (n100 =? 3)) in
    let month := Z.shiftr (n + 50) 5 in
    let preceding := nth (Z.to_nat month) DAYS_BEFORE_MONTH 0
                     + (if (2 <? month) && leapyear then 1 else 0) in
    if n <? preceding then
      let month := month - 1 in
      let preceding := preceding
                       - (nth (Z.to_nat month) DAYS_IN_MONTH 0
                          + (if (month =? 2) && leapyear then 1 else 0)) in
      (year, month, n - preceding + 1)
    else (year, month, n - preceding + 1).

(** The month and the day of the [n]-th day of a year (from 0), as
    [_ord2ymd] finds them from its estimate of the month. *)
Definition month_day (leapyear : bool) (n : Z) : Z * Z :=
  let month := Z.shiftr (n + 50) 5 in
  let preceding := nth (Z.to_nat month) DAYS_BEFORE_MONTH 0
                   + (if (2 <? month) && leapyear then 1 else 0) in
  if n <? preceding then
    let month := month - 1 in
    let preceding := preceding
                     - (nth (Z.to_nat month) DAYS_IN_MONTH 0
                        + (if (month =? 2) && leapyear then 1 else 0)) in
    (month, n - preceding + 1)
  else (month, n - preceding + 1).

(** Whether [month_day] is right on day [k] of a year that is leap or not. *)
Definition month_day_ok (leapyear : bool) (k : nat) : bool :=
  let y := if leapyear then 4 else 1 in
  let '(m, d) := month_day leapyear (Z.of_nat k) in
  (1 <=? m) && (m <=? 12) && (1 <=? d) && (d <=? days_in_month y m)
  && (days_before_month y m + d =? Z.of_nat k + 1).

(** [(t - timedelta(days=n)).date()]; [None] is OverflowError. *)
Definition minus_days (t : datetime) (n : Z) : option datetime :=
  let days := ymd2ord (year t) (month t) (day t) - n in
  if (0 <? days) && (days <=? MAXORDINAL) then
    let '(y, m, d) := ord2ymd days in
    Some (mk_datetime y m d (hour t) (minute t) (second t) (microsecond t))
  else None.

Definition fmt_06d (n : Z) : string :=
  String (digit (n / 100000)) (String (digit (n / 10000)) (fmt_04d n)).

(** [_format_time] with [timespec='auto']. *)
Definition format_time (hh mm ss us : Z) : string :=
  fmt_02d hh +:+ ":" +:+ fmt_02d mm +:+ ":" +:+ fmt_02d ss
  +:+ (if us =? 0 then "" else "." +:+ fmt_06d us).

(** [t.isoformat()]. *)
Definition datetime_isoformat (t : datetime) : string :=
  date_isoformat t +:+ "T"
  +:+ format_time (hour t) (minute t) (second t) (microsecond t).

(** Comparison by a first key, then by a second. *)
Definition then_by (c1 c2 : comparison) : comparison :=
  match c1 with Eq => c2 | _ => c1 end.

(** The order of two dates. *)
Definition date_le (a b : datetime) : Prop :=
  year a < year b ∨
  (year a = year b ∧ (month a < month b ∨ (month a = month b ∧ day a <= day b))).

End Calendar.

(** ** What reaches a handler, and what a handler answers *)

Module Web.

(** The exception classes the handlers of main.py tell apart. *)
Inductive exception :=
| HTTPException (status_code : Z)
| JWTError
| StripeError
| OperationalError           (* sqlite3.OperationalError *)
| DatabaseError              (* a sqlite3.Error of another class *)
| TypeError
| OverflowError
| Exception.                 (* an exception of any other class *)

Definition is_JWTError (e : exception) : bool :=
  match e with JWTError => true | _ => false end.

Definition is_StripeError (e : exception) : bool :=
  match e with StripeError => true | _ => false end.

Definition is_OperationalError (e : exception) : bool :=
  match e with OperationalError => true | _ => false end.

Definition is_sqlite3_Error (e : exception) : bool :=
  match e with OperationalError | DatabaseError => true | _ => false end.

Definition is_Exception (e : exception) : bool := true.

Inductive result (A : Type) :=
| Returned (a : A)
| Raised (e : exception).
Arguments Returned {A} a.
Arguments Raised {A} e.

(** What a call into a library does: it returns a value, raises the error
    class of the library, or raises something else. *)
Inductive library (A : Type) :=
| Value (a : A)
| Error
| Crash.
Arguments Value {A} a.
Arguments Error {A}.
Arguments Crash {A}.

Inductive sqlite3_error := Operational | Other_class.

(** A [stripe.PaymentIntent]. *)
Record payment_intent := mk_payment_intent {
  pi_status : string;
  pi_amount : Z;
  pi_description : option string;
  pi_client_secret : string
}.

(** What the handlers cannot decide by themselves. *)
Record World := mk_World {
  (** the error the n-th operation on the connection raises, if any *)
  store_error : nat -> option sqlite3_error;
  (** the n-th reading of [datetime.utcnow()] *)
  clock : nat -> datetime;
  (** [pwd_context.hash] and [pwd_context.verify] *)
  pwd_hash : string -> library string;
  pwd_verify : string -> string -> library bool;
  (** [jwt.encode] of the claims sub, id and exp = a reading of the clock
      plus a number of minutes *)
  jwt_encode : string -> Z -> datetime -> Z -> library string;
  (** [jwt.decode], then [payload.get("id")]; the error is JWTError *)
  jwt_decode : string -> library (option Z);
  (** Stripe; the error is StripeError *)
  Customer_create : string -> string -> library string;
  Customer_retrieve : string -> library string;
  PaymentIntent_create : Z -> string -> string -> library payment_intent;
  PaymentIntent_retrieve : string -> library payment_intent;
  (** [stripe.Subscription.create] and the reading of its client secret
      and id; the anchor is a reading of the clock plus 30 days *)
  Subscription_create : string -> string -> datetime -> library (string * string)
}.

(** The connection [get_db] yields. *)
Record conn := mk_conn {
  committed : DB;            (* the database file *)
  view : DB;                 (* the database as the connection sees it *)
  operations : nat;
  readings : nat
}.

Definition H (A : Type) : Type := conn -> result A * conn.

Definition ret {A} (a : A) : H A := fun c => (Returned a, c).

Definition bind {A B} (m : H A) (k : A -> H B) : H B := fun c =>
  match m c with
  | (Returned a, c') => k a c'
  | (Raised e, c') => (Raised e, c')
  end.

Definition raise {A} (e : exception) : H A := fun c => (Raised e, c).

(** The [except] clauses of a [try], first match first. *)
Fixpoint handler_of {A} (clauses : list ((exception -> bool) * H A))
    (e : exception) : H A :=
  match clauses with
  | [] => raise e
  | (catches, h) :: rest => if catches e then h else handler_of rest e
  end.

Definition try_except {A} (m : H A) (clauses : list ((exception -> bool) * H A))
  : H A := fun c =>
  match m c with
  | (Returned a, c') => (Returned a, c')
  | (Raised e, c') => handler_of clauses e c'
  end.

End Web.

#[global] Instance H_ret : MRet Web.H := @Web.ret.
#[global] Instance H_bind : MBind Web.H := fun A B k m => Web.bind m k.

(** ** The handlers of main.py *)

Module Endpoint.
Import Web.

(** The response model of [get_dashboard]. *)
Record UserOut := mk_UserOut {
  out_id : Z;
  out_email : string;
  instagram_connected : bool;
  instagram_accounts : list string;
  out_payment_history : list (Z * string * string);
  out_blocked_count : Z;
  chart_data : list (string * Z)
}.

(** [SELECT ... FROM users WHERE email = ?] followed by [fetchone()]. *)
Definition select_user_by_email (db : DB) (email_ : string) : option user_row :=
  find (fun r => String.eqb (email r) email_) (users db).

(** [INSERT INTO users (email, password, stripe_customer_id, blocked_count)
    VALUES (?, ?, None, 0)]; email is UNIQUE. *)
Definition insert_user (email_ hashed_password : string) (db : DB) : option DB :=
  if existsb (fun r => String.eqb (email r) email_) (users db) then None
  else
    let new_id := next_user_id db in
    Some (mk_DB (users db ++ [mk_user new_id email_ hashed_password None 0])
                new_id (accounts db) (payment_history db)
                (daily_blocked_counts db)).

(** [INSERT INTO payment_history (user_id, amount, package, date)]; package
    is NOT NULL. *)
Definition insert_payment (user_id amount : Z) (description : option string)
    (date : string) (db : DB) : option DB :=
  match description with
  | Some package_ =>
      Some (mk_DB (users db) (users_seq db) (accounts db)
                  (payment_history db ++ [mk_payment user_id amount package_ date])
                  (daily_blocked_counts db))
  | None => None
  end.

(** [UPDATE users SET stripe_customer_id = ? WHERE id = ?]. *)
Definition update_customer (customer_id : string) (user_id : Z) (db : DB) : DB :=
  set_users (map (fun r =>
    if u_id r =? user_id
    then mk_user (u_id r) (email r) (password r) (Some customer_id)
                 (blocked_count r)
    else r)) db.

(** [SELECT username, is_connected FROM accounts WHERE user_id = ?], found
    through the index of the primary key (user_id, username): the rows of the
    user in the order of the usernames. *)
Definition select_accounts (db : DB) (user_id : Z) : list account_row :=
  index_order username (filter (fun a => a_user_id a = user_id) (accounts db)).

(** [SELECT amount, package, date FROM payment_history WHERE user_id = ?]. *)
Definition select_payments (db : DB) (user_id : Z) : list (Z * string * string) :=
  map (fun p => (amount_cents p, package p, p_date p))
      (filter (fun p => p_user_id p = user_id) (payment_history db)).

(** [SELECT date, blocked FROM daily_blocked_counts WHERE user_id = ? AND
    date >= ?]; text is compared byte by byte.  The rows are found through
    the index of the primary key (user_id, date), so they come back in the
    order of the dates. *)
Definition select_chart (db : DB) (user_id : Z) (since : string)
  : list (string * Z) :=
  index_order fst
    (omap (fun '((u, d), blocked) =>
             if (u =? user_id) && String.leb since d then Some (d, blocked)
             else None)
          (map_to_list (daily_blocked_counts db))).

(** Truth value of a string: the empty string is false. *)
Definition nonempty (s : string) : bool :=
  match s with EmptyString => false | _ => true end.

(** [email.split('@')[0]]. *)
Fixpoint before_at (s : string) : string :=
  match s with
  | EmptyString => EmptyString
  | String c rest => if Ascii.eqb c "@" then EmptyString else String c (before_at rest)
  end.

Section WithWorld.
Context (W : World).

Definition tick (c : conn) : conn :=
  mk_conn (committed c) (view c) (S (operations c)) (readings c).

(** One operation on the connection. *)
Definition store_op {A} (run : conn -> result A * conn) : H A := fun c =>
  match store_error W (operations c) with
  | Some Operational => (Raised OperationalError, tick c)
  | Some Other_class => (Raised DatabaseError, tick c)
  | None => run (tick c)
  end.

(** [cursor.execute] of a SELECT and the fetch of its result. *)
Definition select {A} (q : DB -> A) : H A :=
  store_op (fun c => (Returned (q (view c)), c)).

(** [cursor.execute] of a write: the change stays in the open transaction;
    a constraint that fails raises sqlite3.IntegrityError. *)
Definition execute (w : DB -> option DB) : H unit :=
  store_op (fun c =>
    match w (view c) with
    | Some db => (Returned tt, mk_conn (committed c) db (operations c) (readings c))
    | None => (Raised DatabaseError, c)
    end).

(** [db.commit()]. *)
Definition commit : H unit :=
  store_op (fun c =>
    (Returned tt, mk_conn (view c) (view c) (operations c) (readings c))).

Definition datetime_utcnow : H datetime := fun c =>
  (Returned (clock W (readings c)),
   mk_conn (committed c) (view c) (operations c) (S (readings c))).

(** A call into a library whose error class is [error]. *)
Definition call {A} (error : exception) (r : library A) : H A :=
  match r with
  | Value a => ret a
  | Error => raise error
  | Crash => raise Exception
  end.

(** [row["column"]] on the result of [fetchone()]. *)
Definition subscript {A} (row : option A) : H A :=
  match row with Some r => ret r | None => raise TypeError end.

(** [create_access_token(data, expires_delta)], lines 174-187; the delta
    is given in minutes, [None] when the argument is left out. *)
Definition create_access_token (sub : string) (id : Z) (expires_delta : option Z)
  : H string :=
  try_except
    (now ← datetime_utcnow;
     let minutes := match expires_delta with
                    | Some m => if m =? 0 then 15 else m
                    | None => 15
                    end in
     call JWTError (jwt_encode W sub id now minutes))
    [(is_Exception, raise (HTTPException 500))].

(** [verify_token(token)], lines 189-215. *)
Definition verify_token (token : string) : H Z :=
  try_except
    (if negb (nonempty token) then raise (HTTPException 401)
     else
       user_id ← call JWTError (jwt_decode W token);
       match user_id with
       | None => raise (HTTPException 401)
       | Some user_id => ret user_id
       end)
    [(is_JWTError, raise (HTTPException 401))].

(** [get_user_by_id(user_id, db)], lines 217-233. *)
Definition get_user_by_id (user_id : Z) : H user_row :=
  try_except
    (user ← select (fun db => select_user db user_id);
     match user with
     | None => raise (HTTPException 401)
     | Some user => ret user
     end)
    [(is_sqlite3_Error, raise (HTTPException 500))].

(** [signup], lines 309-334. *)
Definition signup (email_ password_ : string) : H unit :=
  try_except
    (taken ← select (fun db => select_user_by_email db email_);
     match taken with
     | Some _ => raise (HTTPException 400)
     | None =>
         hashed_password ← call Exception (pwd_hash W password_);
         execute (insert_user email_ hashed_password);;
         commit;;
         user ← select (fun db => select_user_by_email db email_);
         _ ← subscript user;
         ret tt
     end)
    [(is_OperationalError, raise (HTTPException 500));
     (is_Exception, raise (HTTPException 500))].

(** [login], lines 336-362; it returns the access token. *)
Definition login (email_ password_ : string) : H string :=
  try_except
    (user ← select (fun db => select_user_by_email db email_);
     verified ← match user with
                | None => ret false
                | Some u => call Exception (pwd_verify W password_ (password u))
                end;
     if negb verified then raise (HTTPException 401)
     else
       u ← subscript user;
       create_access_token email_ (u_id u) (Some 30))
    [(is_OperationalError, raise (HTTPException 500));
     (is_Exception, raise (HTTPException 500))].

(** [get_dashboard], lines 364-409. *)
Definition get_dashboard (token : string) : H UserOut :=
  try_except
    (user_id ← verify_token token;
     db_user ← get_user_by_id user_id;
     accounts ← select (fun db => select_accounts db user_id);
     let instagram_accounts :=
       map username (filter (fun a => Is_true (nonempty (username a))) accounts) in
     let is_connected := existsb truthy (map is_connected accounts) in
     payment_history ← select (fun db => select_payments db user_id);
     row ← select (fun db => select_user db user_id);
     row ← subscript row;
     let blocked_count := blocked_count row in
     now ← datetime_utcnow;
     since ← match Calendar.minus_days now 90 with
             | Some t => ret (date_isoformat t)
             | None => raise OverflowError
             end;
     chart_data ← select (fun db => select_chart db user_id since);
     ret (mk_UserOut (u_id db_user) (email db_user) is_connected
                     instagram_accounts payment_history blocked_count chart_data))
    [(is_OperationalError, raise (HTTPException 500));
     (is_Exception, raise (HTTPException 500))].

(** [connect_instagram], lines 411-425. *)
Definition connect_instagram (token : string) : H unit :=
  try_except
    (user_id ← verify_token token;
     execute (fun db => Some (Http.connect_instagram user_id db));;
     commit)
    [(is_OperationalError, raise (HTTPException 500))].

(** [create_payment_intent], lines 427-446; it returns the client secret. *)
Definition create_payment_intent (amount : Z) (description token : string)
  : H string :=
  try_except
    (user_id ← verify_token token;
     db_user ← get_user_by_id user_id;
     customer ← call StripeError
                  (Customer_create W (email db_user) (before_at (email db_user)));
     payment_intent ← call StripeError
                        (PaymentIntent_create W amount description customer);
     ret (pi_client_secret payment_intent))
    [(is_StripeError, raise (HTTPException 400))].

(** [confirm_payment], lines 448-476. *)
Definition confirm_payment (payment_intent_id token : string) : H unit :=
  try_except
    (user_id ← verify_token token;
     db_user ← get_user_by_id user_id;
     payment_intent ← call StripeError (PaymentIntent_retrieve W payment_intent_id);
     if String.eqb (pi_status payment_intent) "succeeded" then
       now ← datetime_utcnow;
       execute (insert_payment user_id (pi_amount payment_intent)
                  (pi_description payment_intent)
                  (Calendar.datetime_isoformat now));;
       commit
     else raise (HTTPException 400))
    [(is_StripeError, raise (HTTPException 400));
     (is_sqlite3_Error, raise (HTTPException 500));
     (is_Exception, raise (HTTPException 500))].

(** [create_subscription], lines 478-515; it returns the client secret and
    the id of the subscription. *)
Definition create_subscription (price_id token : string) : H (string * string) :=
  try_except
    (user_id ← verify_token token;
     db_user ← get_user_by_id user_id;
     customer ←
       (if negb (str_truthy (stripe_customer_id db_user)) then
          customer ← call StripeError
                       (Customer_create W (email db_user)
                                        (before_at (email db_user)));
          execute (fun db => Some (update_customer customer user_id db));;
          commit;;
          ret customer
        else
          call StripeError
            (Customer_retrieve W (default "" (stripe_customer_id db_user))));
     now ← datetime_utcnow;
     call StripeError (Subscription_create W customer price_id now))
    [(is_StripeError, raise (HTTPException 400));
     (is_Exception, raise (HTTPException 500))].

(** A request served on a connection of [get_db]: the handler runs on a
    fresh connection and, whatever it does, the connection is closed; what
    was not committed is dropped. *)
Definition serve {A} (handler : H A) (db : DB) : result A * DB :=
  let '(r, c) := handler (mk_conn db db 0 0) in (r, committed c).

End WithWorld.
End Endpoint.

(** ** The calls of the API and a world to run them in *)

Module Api.
Import Web.

(** One call of a handler with its arguments. *)
Inductive api_call :=
| Call_signup (email_ password_ : string)
| Call_login (email_ password_ : string)
| Call_get_dashboard (token : string)
| Call_connect_instagram (token : string)
| Call_create_payment_intent (amount : Z) (description token : string)
| Call_confirm_payment (payment_intent_id token : string)
| Call_create_subscription (price_id token : string).

(** The database file after the call has been served. *)
Definition database_after (W : World) (c : api_call) (db : DB) : DB :=
  match c with
  | Call_signup e p => (Endpoint.serve (Endpoint.signup W e p) db).2
  | Call_login e p => (Endpoint.serve (Endpoint.login W e p) db).2
  | Call_get_dashboard t => (Endpoint.serve (Endpoint.get_dashboard W t) db).2
  | Call_connect_instagram t =>
      (Endpoint.serve (Endpoint.connect_instagram W t) db).2
  | Call_create_payment_intent a d t =>
      (Endpoint.serve (Endpoint.create_payment_intent W a d t) db).2
  | Call_confirm_payment i t =>
      (Endpoint.serve (Endpoint.confirm_payment W i t) db).2
  | Call_create_subscription p t =>
      (Endpoint.serve (Endpoint.create_subscription W p t) db).2
  end.

(** A world without failures: the store serves every operation, the clock
    stands at 2026-10-12 09:00:00, a password verifies against the hash
    made of it, the one token is that of user 1, and Stripe accepts. *)
Definition quiet : World :=
  mk_World (fun _ => None)
           (fun _ => Scenario.oct12 9 0 0)
           (fun p => Value ("bcrypt:" +:+ p))
           (fun p h => Value (String.eqb h ("bcrypt:" +:+ p)))
           (fun _ _ _ _ => Value "token-1")
           (fun t => if String.eqb t "token-1" then Value (Some 1) else Error)
           (fun _ _ => Value "cus_1")
           (fun c => Value c)
           (fun a d _ => Value (mk_payment_intent "requires_payment_method" a
                                                (Some d) "secret"))
           (fun _ => Value (mk_payment_intent "succeeded" 999 (Some "basic") "secret"))
           (fun _ _ _ => Value ("secret", "sub_1")).

End Api.

(** ** The scripts that prepare the database file *)

Module Schema.

(** A database file: the columns of each of its tables, and the rows. *)
Record file := mk_file {
  columns_of : gmap string (list string);
  rows : DB
}.

Inductive exception :=
| sqlite3_Error
| OSError
| Exception               (* the [Exception] that [init_db] builds *)
| UnboundLocalError.

Definition is_sqlite3_Error (e : exception) : bool :=
  match e with sqlite3_Error => true | _ => false end.

Inductive result (A : Type) :=
| Returned (a : A)
| Raised (e : exception).
Arguments Returned {A} a.
Arguments Raised {A} e.

(** What the scripts cannot decide by themselves. *)
Record World := mk_World {
  (** [os.path.exists(db_dir)], and whether [os.makedirs] fails *)
  dir_exists : bool;
  makedirs_error : bool;
  (** whether [sqlite3.connect] fails *)
  connect_error : bool;
  (** whether the n-th statement on the connection fails *)
  execute_error : nat -> bool
}.

(** The run of a script: the file, the file as the connection sees it,
    whether a transaction is open, the statements executed so far, and
    whether the local variable [conn] is bound. *)
Record session := mk_session {
  on_disk : file;
  seen : file;
  in_transaction : bool;
  executed : nat;
  conn_bound : bool
}.

Definition Run (A : Type) : Type := session -> result A * session.

Definition ret {A} (a : A) : Run A := fun s => (Returned a, s).

Definition bind {A B} (m : Run A) (k : A -> Run B) : Run B := fun s =>
  match m s with
  | (Returned a, s') => k a s'
  | (Raised e, s') => (Raised e, s')
  end.

Definition raise {A} (e : exception) : Run A := fun s => (Raised e, s).

(** [try: m except <catches>: h finally: f]; an exception of the
    [finally] block replaces the one in flight. *)
Definition try_except_finally {A} (m : Run A) (catches : exception -> bool)
    (h : exception -> Run A) (f : Run unit) : Run A := fun s =>
  let '(r, s1) :=
    match m s with
    | (Returned a, s') => (Returned a, s')
    | (Raised e, s') => if catches e then h e s' else (Raised e, s')
    end in
  match f s1 with
  | (Returned _, s2) => (r, s2)
  | (Raised e, s2) => (Raised e, s2)
  end.

End Schema.

#[global] Instance S_ret : MRet Schema.Run := @Schema.ret.
#[global] Instance S_bind : MBind Schema.Run := fun A B k m => Schema.bind m k.

Module Script.
Import Schema.

Definition users_columns : list string :=
  ["id"; "email"; "password"; "stripe_customer_id"; "blocked_count"].
Definition users_columns_of_db_py : list string :=
  ["id"; "email"; "password"; "stripe_customer_id"].
Definition accounts_columns : list string :=
  ["user_id"; "username"; "is_connected"].
Definition blocked_accounts_columns : list string := ["user_id"; "username"].
Definition payment_history_columns : list string :=
  ["id"; "user_id"; "amount"; "package"; "date"].
Definition daily_blocked_counts_columns : list string :=
  ["user_id"; "date"; "blocked"].

(** [CREATE TABLE name (...)]; [None] when the table exists. *)
Definition create_table (name : string) (cols : list string) (f : file)
  : option file :=
  match columns_of f !! name with
  | Some _ => None
  | None => Some (mk_file (<[name := cols]> (columns_of f)) (rows f))
  end.

(** [ALTER TABLE name ADD COLUMN col]; the rows take the default of the
    column.  [None] when the table is missing or has the column. *)
Definition add_column (name col : string) (on_rows : DB -> DB) (f : file)
  : option file :=
  match columns_of f !! name with
  | Some cols =>
      if bool_decide (col ∈ cols) then None
      else Some (mk_file (<[name := (cols ++ [col])%list]> (columns_of f))
                         (on_rows (rows f)))
  | None => None
  end.

(** The rows of [users] after [ADD COLUMN blocked_count INTEGER DEFAULT 0]. *)
Definition default_blocked_count (db : DB) : DB :=
  set_users (map (fun r => mk_user (u_id r) (email r) (password r)
                                   (stripe_customer_id r) 0)) db.

(** The rows of [accounts] with [is_connected] set to [v] in every row:
    NULL after [ADD COLUMN is_connected BOOLEAN], 0 after
    [UPDATE accounts SET is_connected = 0]. *)
Definition set_is_connected (v : option Z) (db : DB) : DB :=
  mk_DB (users db) (users_seq db)
        (map (fun a => mk_account (a_user_id a) (username a) v) (accounts db))
        (payment_history db) (daily_blocked_counts db).

Section WithWorld.
Context (W : World).

Definition tick (s : session) : session :=
  mk_session (on_disk s) (seen s) (in_transaction s) (S (executed s))
             (conn_bound s).

(** One statement on the connection. *)
Definition statement {A} (run : session -> result A * session) : Run A := fun s =>
  if execute_error W (executed s) then (Raised sqlite3_Error, tick s)
  else run (tick s).

(** A SELECT or a PRAGMA table_info, and the fetch of its result. *)
Definition select {A} (q : file -> A) : Run A :=
  statement (fun s => (Returned (q (seen s)), s)).

(** A CREATE TABLE or an ALTER TABLE: it takes effect at once unless a
    transaction is open. *)
Definition ddl (w : file -> option file) : Run unit :=
  statement (fun s =>
    match w (seen s) with
    | Some f =>
        (Returned tt,
         mk_session (if in_transaction s then on_disk s else f) f
                    (in_transaction s) (executed s) (conn_bound s))
    | None => (Raised sqlite3_Error, s)
    end).

(** An UPDATE: it opens a transaction if none is open. *)
Definition dml (w : file -> file) : Run unit :=
  statement (fun s =>
    (Returned tt,
     mk_session (on_disk s) (w (seen s)) true (executed s) (conn_bound s))).

(** [conn.commit()]. *)
Definition commit : Run unit :=
  statement (fun s =>
    (Returned tt, mk_session (seen s) (seen s) false (executed s) (conn_bound s))).

(** The directory of the file: [os.path.exists] and [os.makedirs]. *)
Definition ensure_directory : Run unit :=
  if dir_exists W then ret tt
  else if makedirs_error W then raise OSError else ret tt.

(** [conn = sqlite3.connect(DB_PATH, ...)]. *)
Definition connect : Run unit := fun s =>
  if connect_error W then (Raised sqlite3_Error, s)
  else (Returned tt,
        mk_session (on_disk s) (on_disk s) false (executed s) true).

(** [conn.close()] of the [finally] block: UnboundLocalError when [conn]
    was never assigned; what was not committed is dropped. *)
Definition close : Run unit := fun s =>
  if conn_bound s
  then (Returned tt,
        mk_session (on_disk s) (on_disk s) false (executed s) true)
  else (Raised UnboundLocalError, s).

(** [SELECT name FROM sqlite_master WHERE type='table' AND name=?] and
    [cursor.fetchone()]. *)
Definition table_exists (name : string) : Run bool :=
  select (fun f => bool_decide (is_Some (columns_of f !! name))).

(** [PRAGMA table_info(name)] and the names of the columns. *)
Definition table_info (name : string) : Run (list string) :=
  select (fun f => default [] (columns_of f !! name)).

Definition create_if_missing (name : string) (cols : list string) : Run unit :=
  found ← table_exists name;
  if negb found then ddl (create_table name cols) else ret tt.

(** [init_db] of main.py, lines 91-172. *)
Definition init_db : Run unit :=
  try_except_finally
    (ensure_directory;;
     connect;;
     found ← table_exists "users";
     (if negb found then ddl (create_table "users" users_columns)
      else
        columns ← table_info "users";
        if bool_decide ("blocked_count" ∈ columns) then ret tt
        else ddl (add_column "users" "blocked_count" default_blocked_count));;
     create_if_missing "accounts" accounts_columns;;
     create_if_missing "payment_history" payment_history_columns;;
     create_if_missing "daily_blocked_counts" daily_blocked_counts_columns;;
     commit)
    is_sqlite3_Error (fun _ => raise Exception)
    close.

(** [update_database] of db.py, lines 13-113. *)
Definition update_database : Run unit :=
  try_except_finally
    (ensure_directory;;
     connect;;
     create_if_missing "users" users_columns_of_db_py;;
     found ← table_exists "accounts";
     (if negb found then ddl (create_table "accounts" accounts_columns)
      else
        columns ← table_info "accounts";
        if bool_decide ("is_connected" ∈ columns) then ret tt
        else
          ddl (add_column "accounts" "is_connected" (set_is_connected None));;
          dml (fun f => mk_file (columns_of f)
                                (set_is_connected (Some 0) (rows f))));;
     create_if_missing "blocked_accounts" blocked_accounts_columns;;
     create_if_missing "payment_history" payment_history_columns;;
     _ ← select (fun f => map fst (map_to_list (columns_of f)));
     _ ← table_info "accounts";
     commit)
    is_sqlite3_Error (fun e => raise e)
    close.

(** The run of a script on a file. *)
Definition run_script {A} (script : Run A) (f : file) : result A * file :=
  let '(r, s) := script (mk_session f f false 0 false) in (r, on_disk s).

End WithWorld.

(** The world serves a script: the directory is there or can be made, the
    connection opens and no statement fails. *)
Definition serves (W : World) : Prop :=
  (dir_exists W = true ∨ makedirs_error W = false) ∧
  connect_error W = false ∧
  ∀ n, execute_error W n = false.

(** A file with the table [name], created with [cols] if it was missing. *)
Definition ensure_table (name : string) (cols : list string) (f : file) : file :=
  match columns_of f !! name with
  | Some _ => f
  | None => mk_file (<[name := cols]> (columns_of f)) (rows f)
  end.

(** A file with the column [col] in the table [name], which exists. *)
Definition ensure_column (name col : string) (on_rows : DB -> DB) (f : file)
  : file :=
  match columns_of f !! name with
  | Some cols =>
      if bool_decide (col ∈ cols) then f
      else mk_file (<[name := (cols ++ [col])%list]> (columns_of f))
                   (on_rows (rows f))
  | None => f
  end.

(** Outside a transaction the connection sees the file as it is. *)
Definition coherent (s : session) : Prop :=
  in_transaction s = false → on_disk s = seen s.

(** What a step of a script leaves when it is served: the session after
    it sees the file [f']. *)
Definition step_to (m : Run unit) (s : session) (f' : file) : Prop :=
  ∃ s', m s = (Returned tt, s') ∧ coherent s' ∧ seen s' = f' ∧
        conn_bound s' = conn_bound s.

(** The file [init_db] leaves when it is served. *)
Definition prepared (f : file) : file :=
  ensure_table "daily_blocked_counts" daily_blocked_counts_columns
    (ensure_table "payment_history" payment_history_columns
       (ensure_table "accounts" accounts_columns
          (ensure_column "users" "blocked_count" default_blocked_count
             (ensure_table "users" users_columns f)))).

(** The file [update_database] leaves when it is served. *)
Definition migrated (f : file) : file :=
  ensure_table "payment_history" payment_history_columns
    (ensure_table "blocked_accounts" blocked_accounts_columns
       (ensure_column "accounts" "is_connected" (set_is_connected (Some 0))
          (ensure_table "accounts" accounts_columns
             (ensure_table "users" users_columns_of_db_py f)))).

(** The tables [init_db] looks after. *)
Definition tables_of_main : list string :=
  ["users"; "accounts"; "payment_history"; "daily_blocked_counts"].

(** No failure anywhere. *)
Definition calm : World := mk_World true false false (fun _ => false).

(** A file from before [is_connected] and [blocked_count] existed, with a
    user that has paid and an account row of theirs. *)
Definition legacy_file : file :=
  mk_file {[ "users" := users_columns_of_db_py;
             "accounts" := ["user_id"; "username"];
             "payment_history" := payment_history_columns ]}
          (mk_DB [mk_user 1 "u@example.com" "hash" None 0] 1
                 [mk_account 1 "@alice" None]
                 [mk_payment 1 999 "basic" "2026-10-01T00:00:00"] ∅).

End Script.

(** ** Vocabulary of the further properties *)

Module Frame.

(** What identifies the users: every column of [users] but
    [blocked_count]. *)
Definition identity (r : user_row) : Z * string * string * option string :=
  (u_id r, email r, password r, stripe_customer_id r).

(** One fault-free call of [auto_block_accounts] on a day [day] whose row
    carries no last update, as a function of the database. *)
Definition record_block (day : string) (user_id : Z) (db : DB) : DB :=
  match select_user db user_id with
  | Some row =>
      let c := default 0 (window db user_id day) in
      if c <? 100 then
        update_blocked_count (blocked_count row + 1) user_id
          (replace_daily user_id day (c + 1) db)
      else db
  | None => db
  end.

(** One iteration of the loop of [start_auto_blocking], likewise. *)
Definition turn_step (day : string) (db : DB) (user_id : Z) : DB :=
  match head (select_is_connected db user_id) with
  | Some v => if truthy v then record_block day user_id db else db
  | None => db
  end.

(** A piece of log that holds reports of blocks and no error. *)
Definition only_blocks (new : list log_record) : Prop :=
  ∀ r, r ∈ new → ∃ u t d, r = Info_auto_blocked u t d.

End Frame.
Export Frame.

Module Reach.

(** What holds of a database that only the requests of the application and
    the turns of the background task have written. *)
Record api_state (db : DB) : Prop := mk_api_state {
  ids_unique : NoDup (map u_id (users db));
  emails_unique : NoDup (map email (users db));
  ids_from_sequence : ∀ r, r ∈ users db → 1 <= u_id r <= users_seq db;
  sequence_non_negative : 0 <= users_seq db;
  accounts_connected :
    ∀ a, a ∈ accounts db →
      username a = "@instagram_acc" ∧ is_connected a = Some 1;
  one_account_per_user : NoDup (map a_user_id (accounts db));
  payments_of_users :
    ∀ p, p ∈ payment_history db → p_user_id p ∈ map u_id (users db)
}.

End Reach.
Export Reach.

(** * Properties *)

(** ** The order of the rows read through an index *)

Lemma insert_by_Permutation {A} (key : A → string) x l :
  insert_by key x l ≡ₚ x :: l.
Proof.
  induction l as [|y l IH]; cbn; [done|].
  destruct (String.leb (key x) (key y)); [done|].
  rewrite IH. apply Permutation_swap.
Qed.

Lemma index_order_Permutation {A} (key : A → string) l :
  index_order key l ≡ₚ l.
Proof.
  induction l as [|x l IH]; cbn; [done|].
  by rewrite insert_by_Permutation, IH.
Qed.

Lemma elem_of_index_order {A} (key : A → string) l x :
  x ∈ index_order key l ↔ x ∈ l.
Proof. by rewrite index_order_Permutation. Qed.

Lemma ascii_compare_trans a b c :
  Ascii.compare a b = Lt → Ascii.compare b c = Lt → Ascii.compare a c = Lt.
Proof.
  unfold Ascii.compare. rewrite !N.compare_lt_iff. lia.
Qed.

Lemma string_compare_refl a : String.compare a a = Eq.
Proof.
  induction a as [|x a IH]; cbn; [done|].
  unfold Ascii.compare. by rewrite N.compare_refl.
Qed.

Lemma string_leb_refl a : String.leb a a = true.
Proof. unfold String.leb. by rewrite string_compare_refl. Qed.

Lemma string_lt_trans a b c :
  String.compare a b = Lt → String.compare b c = Lt → String.compare a c = Lt.
Proof.
  revert b c. induction a as [|x a IH]; intros [|y b] [|z c]; cbn; try done.
  destruct (Ascii.compare x y) eqn:Hxy; try done.
  - apply Ascii.compare_eq_iff in Hxy as ->.
    destruct (Ascii.compare y z); try done. apply IH.
  - intros _. destruct (Ascii.compare y z) eqn:Hyz; try done.
    + apply Ascii.compare_eq_iff in Hyz as <-. by rewrite Hxy.
    + by rewrite (ascii_compare_trans _ _ _ Hxy Hyz).
Qed.

Lemma string_leb_trans a b c :
  String.leb a b = true → String.leb b c = true → String.leb a c = true.
Proof.
  unfold String.leb.
  destruct (String.compare a b) eqn:Hab; try done;
    destruct (String.compare b c) eqn:Hbc; try done; intros _ _.
  - apply String.compare_eq_iff in Hab as ->. by rewrite Hbc.
  - apply String.compare_eq_iff in Hab as ->. by rewrite Hbc.
  - apply String.compare_eq_iff in Hbc as <-. by rewrite Hab.
  - by rewrite (string_lt_trans _ _ _ Hab Hbc).
Qed.

Lemma string_leb_false a b : String.leb a b = false → String.leb b a = true.
Proof.
  intros H. destruct (String.leb_total a b) as [H'|H']; congruence.
Qed.

Lemma insert_by_ascending {A} (key : A → string) x l :
  ascending key l → ascending key (insert_by key x l).
Proof.
  induction l as [|y l IH]; cbn.
  - by repeat constructor.
  - intros [Hy Hl]. destruct (String.leb (key x) (key y)) eqn:Hxy; cbn.
    + repeat split; [|done..]. constructor; [done|].
      eapply Forall_impl; [exact Hy|]. cbn. intros z Hz.
      by eapply string_leb_trans.
    + split; [|by apply IH].
      rewrite insert_by_Permutation. constructor; [|done].
      by apply string_leb_false.
Qed.

Lemma index_order_ascending {A} (key : A → string) l :
  ascending key (index_order key l).
Proof.
  induction l as [|x l IH]; cbn; [done|]. by apply insert_by_ascending.
Qed.

Lemma index_order_head_least {A} (key : A → string) l x y :
  head (index_order key l) = Some x → y ∈ l →
  String.leb (key x) (key y) = true.
Proof.
  intros Hh Hy. apply (elem_of_index_order key) in Hy.
  pose proof (index_order_ascending key l) as Hs.
  destruct (index_order key l) as [|x' l']; [done|]. cbn in Hh. simplify_eq.
  destruct Hs as [Hall _].
  apply elem_of_cons in Hy as [->|Hy]; [apply string_leb_refl|].
  rewrite Forall_forall in Hall. by apply Hall.
Qed.

Lemma index_order_singleton {A} (key : A → string) (x : A) :
  index_order key [x] = [x].
Proof. done. Qed.

Lemma index_order_nil_inv {A} (key : A → string) l :
  index_order key l = [] → l = [].
Proof.
  intros H. apply Permutation_nil_r. by rewrite <- H, index_order_Permutation.
Qed.

Lemma head_index_order_elem {A} (key : A → string) l x :
  head (index_order key l) = Some x → x ∈ l.
Proof.
  intros H. apply (elem_of_index_order key). by apply head_Some_elem_of.
Qed.

Lemma ascending_filter {A} (key : A → string) (P : A → Prop)
    `{∀ x, Decision (P x)} (l : list A) :
  ascending key l → ascending key (filter P l).
Proof.
  induction l as [|x l IH]; [done|]. intros [Hx Hl].
  rewrite filter_cons. destruct (decide (P x)); [|by apply IH].
  split; [|by apply IH].
  apply Forall_forall. intros y Hy. apply list_elem_of_filter in Hy as [_ Hy].
  rewrite Forall_forall in Hx. by apply Hx.
Qed.

Lemma ascending_map {A} (key : A → string) (l : list A) :
  ascending key l → ascending (fun k => k) (map key l).
Proof.
  induction l as [|x l IH]; [done|]. intros [Hx Hl].
  split; [|by apply IH].
  apply Forall_forall. intros k Hk.
  apply list_elem_of_In, in_map_iff in Hk as (y & <- & Hy).
  rewrite Forall_forall in Hx. by apply Hx, list_elem_of_In.
Qed.

(** Daily rows come back by date, whatever order they were written in. *)
Lemma select_chart_by_date :
  Endpoint.select_chart
    (replace_daily 1 "2026-10-10" 100
       (replace_daily 1 "2026-10-12" 50
          (replace_daily 1 "2026-10-11" 99 empty_DB))) 1 "2026-07-14"
  = [("2026-10-10", 100); ("2026-10-11", 99); ("2026-10-12", 50)].
Proof. vm_compute. reflexivity. Qed.

(** An account row that sorts after "@instagram_acc" is read after the row
    [connect_instagram] writes, although it is older. *)
Lemma select_is_connected_by_username :
  let db := mk_DB [] 0 [mk_account 1 "@zed" (Some 0)] [] ∅ in
  select_is_connected (connect_instagram 1 db) 1 = [Some 1; Some 0] ∧
  map username (Endpoint.select_accounts (connect_instagram 1 db) 1)
  = ["@instagram_acc"; "@zed"].
Proof. vm_compute. split; reflexivity. Qed.

(** The ids of the paying users come back in the order of the emails. *)
Lemma select_paid_users_by_email :
  select_paid_users
    (mk_DB [mk_user 1 "b@example.com" "hash" None 0;
            mk_user 2 "a@example.com" "hash" None 0] 2 []
           [mk_payment 1 999 "basic" "2026-10-01T00:00:00";
            mk_payment 2 999 "basic" "2026-10-01T00:00:00"] ∅)
  = [2; 1].
Proof. vm_compute. reflexivity. Qed.

(** ** Running the monad one operation at a time *)

Section Steps.
Context (E : Env).

Lemma run_store_op_bind {A B} (run : state -> A * state) (k : A -> M B) s :
  (store_op E run ≫= k) s =
  if store_fault E (store_ops s) then (Raise Sqlite3_Error, tick_store s)
  else k (run (tick_store s)).1 (run (tick_store s)).2.
Proof.
  unfold mbind, M_bind, bind, store_op.
  destruct (store_fault E (store_ops s)); [done|]. by destruct (run _).
Qed.

Lemma run_query_bind {A B} (q : DB -> A) (k : A -> M B) s :
  (query E q ≫= k) s =
  if store_fault E (store_ops s) then (Raise Sqlite3_Error, tick_store s)
  else k (q (txn s)) (tick_store s).
Proof. unfold query. by rewrite run_store_op_bind. Qed.

Lemma run_execute_bind {B} st w (k : unit -> M B) s :
  (execute E st w ≫= k) s =
  if store_fault E (store_ops s) then (Raise Sqlite3_Error, tick_store s)
  else k tt (mk_state (disk s) (w (txn s)) (S (store_ops s)) (clock_reads s)
                      (log s) (st :: journal s) (sleeps s)).
Proof. unfold execute. by rewrite run_store_op_bind. Qed.

Lemma run_commit_bind {B} (k : unit -> M B) s :
  (commit E ≫= k) s =
  if store_fault E (store_ops s) then (Raise Sqlite3_Error, tick_store s)
  else k tt (mk_state (txn s) (txn s) (S (store_ops s)) (clock_reads s)
                      (log s) (Commit :: journal s) (sleeps s)).
Proof. unfold commit. by rewrite run_store_op_bind. Qed.

Lemma run_connect_bind {B} (k : unit -> M B) s :
  (connect E ≫= k) s =
  if store_fault E (store_ops s) then (Raise Sqlite3_Error, tick_store s)
  else k tt (mk_state (disk s) (disk s) (S (store_ops s)) (clock_reads s)
                      (log s) (journal s) (sleeps s)).
Proof. unfold connect. by rewrite run_store_op_bind. Qed.

Lemma run_ret_bind {A B} (a : A) (k : A -> M B) s : (ret a ≫= k) s = k a s.
Proof. done. Qed.

Lemma run_raise_bind {A B} e (k : A -> M B) s : (raise e ≫= k) s = (Raise e, s).
Proof. done. Qed.

Lemma run_utcnow_bind {B} (k : datetime -> M B) s :
  (datetime_utcnow E ≫= k) s =
  k (utcnow E (clock_reads s))
    (mk_state (disk s) (txn s) (store_ops s) (S (clock_reads s)) (log s)
              (journal s) (sleeps s)).
Proof. done. Qed.

Lemma run_logger_bind {B} r (k : unit -> M B) s :
  (logger r ≫= k) s =
  k tt (mk_state (disk s) (txn s) (store_ops s) (clock_reads s) (r :: log s)
                 (journal s) (sleeps s)).
Proof. done. Qed.

Lemma run_subscript_bind {A B} (row : option A) (k : A -> M B) s :
  (subscript row ≫= k) s =
  match row with Some r => k r s | None => (Raise TypeError, s) end.
Proof. by destruct row. Qed.

Lemma run_strptime_bind {B} text (k : datetime -> M B) s :
  (datetime_strptime E text ≫= k) s =
  match strptime E text with Some t => k t s | None => (Raise ValueError, s) end.
Proof. unfold datetime_strptime. by destruct (strptime E text). Qed.

Lemma run_bind_assoc {A B C} (m : M A) (k1 : A -> M B) (k2 : B -> M C) s :
  ((m ≫= k1) ≫= k2) s = (m ≫= (fun a => k1 a ≫= k2)) s.
Proof. unfold mbind, M_bind, bind. by destruct (m s) as [[a|e] s1]. Qed.

Lemma run_bind {A B} (m : M A) (k : A -> M B) s :
  (m ≫= k) s =
  match m s with (Ret a, s') => k a s' | (Raise e, s') => (Raise e, s') end.
Proof. done. Qed.

End Steps.

(** What [try: ... except ...:] returns. *)
Lemma try_except_eq {A} (m : M A) c h s r s' :
  try_except m c h s = (r, s') ->
  exists r0 s0, m s = (r0, s0) /\
    match r0 with
    | Ret a => r = Ret a /\ s' = s0
    | Raise e => if c e then h e s0 = (r, s') else (r = Raise e /\ s' = s0)
    end.
Proof.
  unfold try_except. destruct (m s) as [[a|e] s0]; intros H.
  - exists (Ret a), s0. by simplify_eq.
  - exists (Raise e), s0. split; [done|]. destruct (c e); [done|]. by simplify_eq.
Qed.

(** One step of the execution recorded in [H : m s = _]. *)
Ltac exec_in H :=
  match type of H with
  | ((?m ≫= ?k1) ≫= ?k2) ?s = _ => rewrite (run_bind_assoc m k1 k2 s) in H
  | (ret ?a ≫= ?k) ?s = _ => rewrite (run_ret_bind a k s) in H
  | (raise ?e ≫= ?k) ?s = _ => rewrite (run_raise_bind e k s) in H
  | (datetime_utcnow ?E ≫= ?k) ?s = _ => rewrite (run_utcnow_bind E k s) in H
  | (logger ?r ≫= ?k) ?s = _ => rewrite (run_logger_bind r k s) in H
  | (query ?E ?q ≫= ?k) ?s = _ =>
      rewrite (run_query_bind E q k s) in H;
      destruct (store_fault E (store_ops s)) eqn:?
  | (execute ?E ?st ?w ≫= ?k) ?s = _ =>
      rewrite (run_execute_bind E st w k s) in H;
      destruct (store_fault E (store_ops s)) eqn:?
  | (commit ?E ≫= ?k) ?s = _ =>
      rewrite (run_commit_bind E k s) in H;
      destruct (store_fault E (store_ops s)) eqn:?
  | (subscript ?r ≫= ?k) ?s = _ =>
      rewrite (run_subscript_bind r k s) in H; destruct r eqn:?
  | (datetime_strptime ?E ?t ≫= ?k) ?s = _ =>
      rewrite (run_strptime_bind E t k s) in H; destruct (strptime E t) eqn:?
  | ((if ?c then _ else _) ≫= _) ?s = _ => destruct c eqn:?
  | (if ?c then _ else _) ?s = _ => destruct c eqn:?
  | ret ?a ?s = _ => change (ret a s) with (Ret a, s) in H
  | logger ?r ?s = _ => unfold logger in H
  end;
  cbn [fst snd disk txn store_ops clock_reads log journal sleeps tick_store
       is_sqlite3_Error] in H.

(** All the executions of [auto_block_accounts E user_id s], its result
    named [r] and [s']. *)
Ltac exec_auto_block E user_id s r s' :=
  let Hrun := fresh "Hrun" in
  let Hfin := fresh "Hfin" in
  let r0 := fresh "r0" in
  let s0 := fresh "s0" in
  destruct (auto_block_accounts E user_id s) as [r s'] eqn:Hrun;
  unfold auto_block_accounts in Hrun;
  apply try_except_eq in Hrun as (r0 & s0 & Hrun & Hfin);
  cbv zeta in Hrun;
  repeat exec_in Hrun;
  injection Hrun as <- <-;
  cbn [is_sqlite3_Error logger] in Hfin;
  try (unfold logger in Hfin; injection Hfin as <- <-);
  try (destruct Hfin as [-> ->]);
  cbn [fst snd disk txn store_ops clock_reads log journal sleeps tick_store] in *.

(** ** The tables *)

Lemma select_user_update db v user_id u :
  select_user (update_blocked_count v user_id db) u =
  (fun r => if u_id r =? user_id
            then mk_user (u_id r) (email r) (password r) (stripe_customer_id r) v
            else r) <$> select_user db u.
Proof.
  unfold select_user, update_blocked_count, set_users. cbn [users].
  induction (users db) as [|r l IH]; [done|]. cbn [map find].
  destruct (u_id r =? user_id) eqn:Hr; cbn [u_id].
  - destruct (u_id r =? u) eqn:Hu; [|done]. cbn. by rewrite Hr.
  - destruct (u_id r =? u) eqn:Hu; [|done]. cbn. by rewrite Hr.
Qed.

Lemma select_user_id db u r : select_user db u = Some r -> u_id r = u.
Proof.
  unfold select_user. intros H. apply find_some in H as [_ H]. lia.
Qed.

Lemma lifetime_update_eq db v u n :
  lifetime db u = Some n -> lifetime (update_blocked_count v u db) u = Some v.
Proof.
  unfold lifetime. rewrite select_user_update.
  destruct (select_user db u) as [r|] eqn:Hr; [|done]. intros _. cbn.
  apply select_user_id in Hr. apply Z.eqb_eq in Hr. by rewrite Hr.
Qed.

Lemma lifetime_update_ne db v user_id u :
  u ≠ user_id -> lifetime (update_blocked_count v user_id db) u = lifetime db u.
Proof.
  unfold lifetime. rewrite select_user_update. intros Hne.
  destruct (select_user db u) as [r|] eqn:Hr; [|done]. cbn.
  apply select_user_id in Hr. destruct (u_id r =? user_id) eqn:Hu; [lia|done].
Qed.

Lemma lifetime_replace_daily db user_id d v u :
  lifetime (replace_daily user_id d v db) u = lifetime db u.
Proof. done. Qed.

Lemma window_update db v user_id u d :
  window (update_blocked_count v user_id db) u d = window db u d.
Proof. done. Qed.

Lemma window_replace_eq db u d v : window (replace_daily u d v db) u d = Some v.
Proof. unfold window, replace_daily. cbn. apply lookup_insert_eq. Qed.

Lemma window_replace_ne db user_id d v u d' :
  (user_id, d) ≠ (u, d') ->
  window (replace_daily user_id d v db) u d' = window db u d'.
Proof. intros H. unfold window, replace_daily. cbn. by apply lookup_insert_ne. Qed.

(** ** The quota tracker at the cap *)

(** With the day's count at 100 or more the outer guard
    [if daily_count < 100] is false: two queries, no write. *)
Lemma at_cap_is_a_no_op (E : Env) (s : state) (user_id c : Z) :
  window (txn s) user_id (today_of E s) = Some c -> 100 <= c ->
  let r := (auto_block_accounts E user_id s).1 in
  let s' := (auto_block_accounts E user_id s).2 in
  disk s' = disk s /\ txn s' = txn s /\ journal s' = journal s /\
  (log s' = log s \/ log s' = Error_database_in_auto_block_accounts :: log s) /\
  (is_Some (select_user (txn s) user_id) -> r = Ret tt).
Proof.
  intros Hw Hc. unfold today_of in Hw.
  exec_auto_block E user_id s r s'.
  all: unfold select_daily in *; rewrite ?Hw in *; cbn in *.
  all: try lia.
  all: repeat split; auto.
  all: try by intros [? ?].
Qed.

Lemma logged_block_error l user_id :
  logged_block (Error_database_in_auto_block_accounts :: l) user_id
  = logged_block l user_id.
Proof. done. Qed.

(** C5.  For a user whose count of the day is 100 and whose last update is
    less than 600 seconds old, [auto_block_accounts] writes nothing: the
    committed database, the connection's view of it and the journal of
    statements are as before, the call returns normally and reports no
    block. *)
Theorem quota_full_recent_no_mutation
    (E : Env) (s : state) (user_id : Z) (u : user_row)
    (text : string) (last_time : datetime) :
  select_user (txn s) user_id = Some u ->
  window (txn s) user_id (today_of E s) = Some 100 ->
  sql_last_updated E (today_of E s) = Some text ->
  strptime E text = Some last_time ->
  elapsed_us (now_of E s) last_time < 600 * 1000000 ->
  let r := (auto_block_accounts E user_id s).1 in
  let s' := (auto_block_accounts E user_id s).2 in
  r = Ret tt /\
  disk s' = disk s /\ txn s' = txn s /\ journal s' = journal s /\
  lifetime (disk s') user_id = lifetime (disk s) user_id /\
  window (disk s') user_id (today_of E s) = window (disk s) user_id (today_of E s) /\
  logged_block (log s') user_id = logged_block (log s) user_id.
Proof.
  intros Hu Hw _ _ _.
  destruct (at_cap_is_a_no_op E s user_id 100 Hw ltac:(lia))
    as (Hd & Ht & Hj & Hl & Hr).
  cbv zeta. rewrite Hd. repeat split; auto.
  destruct Hl as [-> | ->]; [done | apply logged_block_error].
Qed.

Lemma quota_full_recent_no_mutation_witness :
  let E := Scenario.stamped_env (Some "2026-10-12 08:55:00")
             (fun _ => Scenario.oct12 9 0 0) Scenario.no_fault in
  let s := Scenario.at_rest (Scenario.one_user 7 (Some 100)) in
  let s' := (auto_block_accounts E 1 s).2 in
  (auto_block_accounts E 1 s).1 = Ret tt /\
  disk s' = disk s /\ txn s' = txn s /\ journal s' = journal s /\
  lifetime (disk s') 1 = lifetime (disk s) 1 /\
  window (disk s') 1 (today_of E s) = window (disk s) 1 (today_of E s) /\
  logged_block (log s') 1 = logged_block (log s) 1.
Proof.
  apply (quota_full_recent_no_mutation
           (Scenario.stamped_env (Some "2026-10-12 08:55:00")
              (fun _ => Scenario.oct12 9 0 0) Scenario.no_fault)
           (Scenario.at_rest (Scenario.one_user 7 (Some 100))) 1
           (mk_user 1 "u@example.com" "hash" None 7)
           "2026-10-12 08:55:00" (Scenario.oct12 8 55 0)).
  - reflexivity.
  - vm_compute. reflexivity.
  - reflexivity.
  - vm_compute. reflexivity.
  - vm_compute. reflexivity.
Defined.

(** C1, as the code has it.  For a user whose count of the day is 100 and
    whose last update is 600 seconds old or older, [auto_block_accounts]
    neither resets nor increments: both counters keep their values, nothing
    is written and no block is reported. *)
Theorem quota_full_stale_no_reset
    (E : Env) (s : state) (user_id : Z) (u : user_row)
    (text : string) (last_time : datetime) :
  select_user (txn s) user_id = Some u ->
  window (txn s) user_id (today_of E s) = Some 100 ->
  sql_last_updated E (today_of E s) = Some text ->
  strptime E text = Some last_time ->
  600 * 1000000 <= elapsed_us (now_of E s) last_time ->
  let r := (auto_block_accounts E user_id s).1 in
  let s' := (auto_block_accounts E user_id s).2 in
  r = Ret tt /\
  disk s' = disk s /\ txn s' = txn s /\ journal s' = journal s /\
  window (disk s') user_id (today_of E s) = window (disk s) user_id (today_of E s) /\
  lifetime (disk s') user_id = lifetime (disk s) user_id /\
  logged_block (log s') user_id = logged_block (log s) user_id.
Proof.
  intros Hu Hw _ _ _.
  destruct (at_cap_is_a_no_op E s user_id 100 Hw ltac:(lia))
    as (Hd & Ht & Hj & Hl & Hr).
  cbv zeta. rewrite Hd. repeat split; auto.
  destruct Hl as [-> | ->]; [done | apply logged_block_error].
Qed.

Lemma quota_full_stale_no_reset_witness :
  let E := Scenario.stamped_env (Some "2026-10-12 08:00:00")
             (fun _ => Scenario.oct12 9 0 0) Scenario.no_fault in
  let s := Scenario.at_rest (Scenario.one_user 7 (Some 100)) in
  let s' := (auto_block_accounts E 1 s).2 in
  (auto_block_accounts E 1 s).1 = Ret tt /\
  disk s' = disk s /\ txn s' = txn s /\ journal s' = journal s /\
  window (disk s') 1 (today_of E s) = window (disk s) 1 (today_of E s) /\
  lifetime (disk s') 1 = lifetime (disk s) 1 /\
  logged_block (log s') 1 = logged_block (log s) 1.
Proof.
  apply (quota_full_stale_no_reset
           (Scenario.stamped_env (Some "2026-10-12 08:00:00")
              (fun _ => Scenario.oct12 9 0 0) Scenario.no_fault)
           (Scenario.at_rest (Scenario.one_user 7 (Some 100))) 1
           (mk_user 1 "u@example.com" "hash" None 7)
           "2026-10-12 08:00:00" (Scenario.oct12 8 0 0)).
  - reflexivity.
  - vm_compute. reflexivity.
  - reflexivity.
  - vm_compute. reflexivity.
  - vm_compute. intros H. discriminate H.
Defined.

(** The claim of a reset at the cap fails for a user at 100 whose last
    update is one hour old: the count stays 100 and the lifetime counter
    stays 7. *)
Lemma resets_at_cap_after_600s_counterexample :
  ¬ resets_at_cap_after_600s
      (Scenario.stamped_env (Some "2026-10-12 08:00:00")
         (fun _ => Scenario.oct12 9 0 0) Scenario.no_fault)
      (Scenario.at_rest (Scenario.one_user 7 (Some 100))) 1.
Proof.
  intros H.
  specialize (H 7 "2026-10-12 08:00:00" (Scenario.oct12 8 0 0)).
  destruct H as (Hw & _).
  - intros n. reflexivity.
  - reflexivity.
  - vm_compute. reflexivity.
  - reflexivity.
  - vm_compute. reflexivity.
  - vm_compute. intros H. discriminate H.
  - vm_compute in Hw. discriminate Hw.
Qed.

(** ** The quota tracker below the cap *)

Lemma daily_count_read E user_id d db :
  match select_daily E user_id d db with Some r => r.1 | None => 0 end
  = default 0 (window db user_id d).
Proof. unfold select_daily. by destruct (window db user_id d). Qed.

Lemma last_updated_read E user_id d db :
  match select_daily E user_id d db with Some r => r.2 | None => None end
  = match window db user_id d with
    | Some _ => sql_last_updated E d
    | None => None
    end.
Proof. unfold select_daily. by destruct (window db user_id d). Qed.

(** Drops the executions in which an operation fails. *)
Ltac no_fault_paths Hnf :=
  repeat match goal with
  | H : store_fault _ _ = true |- _ => rewrite Hnf in H; discriminate H
  | H : store_fault _ _ = false |- _ => clear H
  end.

(** The row the first query found against what is known of the user. *)
Ltac known_user :=
  match goal with
  | Hl : lifetime ?db ?u = Some ?n, Hs : select_user ?db ?u = Some ?r |- _ =>
      let H := fresh "Hbc" in
      assert (H : blocked_count r = n)
        by (unfold lifetime in Hl; rewrite Hs in Hl; by injection Hl);
      rewrite ?H in *
  | Hl : lifetime ?db ?u = Some ?n, Hs : select_user ?db ?u = None |- _ =>
      unfold lifetime in Hl; rewrite Hs in Hl; discriminate Hl
  end.

Ltac reads := rewrite ?daily_count_read, ?last_updated_read in *.

Ltac tables :=
  rewrite ?window_update, ?window_replace_eq, ?lifetime_replace_daily.

(** C3, as the code has it.  For a user whose count of the day is [c] < 100
    (0 when the day has no row) and who has no last update, a call that
    meets no store error records one block: the count becomes [c + 1], the
    lifetime counter grows by 1, both are committed and the block is logged;
    the function returns no value. *)
Theorem below_cap_without_timestamp_increments
    (E : Env) (s : state) (user_id total : Z) :
  no_faults E ->
  lifetime (txn s) user_id = Some total ->
  daily_count_of E s user_id < 100 ->
  str_truthy (last_updated_of E s user_id) = false ->
  let c := daily_count_of E s user_id in
  let r := (auto_block_accounts E user_id s).1 in
  let s' := (auto_block_accounts E user_id s).2 in
  r = Ret tt /\
  window (disk s') user_id (today_of E s) = Some (c + 1) /\
  lifetime (disk s') user_id = Some (total + 1) /\
  txn s' = disk s' /\
  log s' = Info_auto_blocked user_id (total + 1) (c + 1) :: log s /\
  journal s' =
    Commit :: Update_blocked_count (total + 1) user_id
           :: Replace_daily user_id (today_of E s) (c + 1) :: journal s.
Proof.
  intros Hnf Hl Hc Ht.
  unfold daily_count_of, last_updated_of, today_of in *.
  exec_auto_block E user_id s r s'; no_fault_paths Hnf; reads;
    try known_user; try congruence; try lia.
  repeat split; tables; try done.
  by apply lifetime_update_eq with total.
Qed.

Lemma below_cap_without_timestamp_increments_witness :
  let E := Scenario.sqlite_env Scenario.any_render Scenario.strptime_canonical
             (fun _ => Scenario.oct12 9 0 0) Scenario.no_fault in
  let s := Scenario.at_rest (Scenario.one_user 7 (Some 50)) in
  let s' := (auto_block_accounts E 1 s).2 in
  (auto_block_accounts E 1 s).1 = Ret tt /\
  window (disk s') 1 (today_of E s) = Some (daily_count_of E s 1 + 1) /\
  lifetime (disk s') 1 = Some (7 + 1) /\
  txn s' = disk s' /\
  log s' = Info_auto_blocked 1 (7 + 1) (daily_count_of E s 1 + 1) :: log s /\
  journal s' =
    Commit :: Update_blocked_count (7 + 1) 1
           :: Replace_daily 1 (today_of E s) (daily_count_of E s 1 + 1)
           :: journal s.
Proof.
  apply (below_cap_without_timestamp_increments
           (Scenario.sqlite_env Scenario.any_render Scenario.strptime_canonical
              (fun _ => Scenario.oct12 9 0 0) Scenario.no_fault)
           (Scenario.at_rest (Scenario.one_user 7 (Some 50))) 1 7).
  - intros n. reflexivity.
  - reflexivity.
  - vm_compute. reflexivity.
  - vm_compute. reflexivity.
Defined.

(** The claim of a window count of 1 fails for a user at 50 without a last
    update: the count becomes 51. *)
Lemma first_increment_sets_window_to_1_counterexample :
  ¬ first_increment_sets_window_to_1
      (Scenario.sqlite_env Scenario.any_render Scenario.strptime_canonical
         (fun _ => Scenario.oct12 9 0 0) Scenario.no_fault)
      (Scenario.at_rest (Scenario.one_user 7 (Some 50))) 1.
Proof.
  intros H. specialize (H 7). destruct H as (Hw & _).
  - intros n. reflexivity.
  - reflexivity.
  - vm_compute. reflexivity.
  - vm_compute. reflexivity.
  - vm_compute in Hw. discriminate Hw.
Qed.

(** The branch of lines 251-260, on a store whose query returns a last
    update: for a user whose count of the day is below 100, with a last
    update that is more than 600 seconds old when the clock is read against
    it, a call that meets no store error writes the reset of the count to
    0, then the count 1 and the lifetime counter plus 1, and commits.  The
    query of the deployed code returns no last update, see
    [sqlite_last_updated_of_iso_date]. *)
Lemma stale_below_cap_resets_then_counts
    (E : Env) (s : state) (user_id total c : Z)
    (text : string) (last_time : datetime) :
  no_faults E ->
  lifetime (txn s) user_id = Some total ->
  window (txn s) user_id (today_of E s) = Some c ->
  c < 100 ->
  sql_last_updated E (today_of E s) = Some text ->
  text ≠ "" ->
  strptime E text = Some last_time ->
  600 * 1000000 < elapsed_us (utcnow E (S (clock_reads s))) last_time ->
  let r := (auto_block_accounts E user_id s).1 in
  let s' := (auto_block_accounts E user_id s).2 in
  r = Ret tt /\
  journal s' =
    Commit :: Update_blocked_count (total + 1) user_id
           :: Replace_daily user_id (today_of E s) 1
           :: Replace_daily user_id (today_of E s) 0 :: journal s /\
  window (txn s') user_id (today_of E s) = Some 1 /\
  window (disk s') user_id (today_of E s) = Some 1 /\
  lifetime (disk s') user_id = Some (total + 1) /\
  log s' = Info_auto_blocked user_id (total + 1) 1 :: log s.
Proof.
  intros Hnf Hl Hw Hc Hlu Hne Hp He.
  unfold today_of, elapsed_us in *.
  assert (Htr : str_truthy (Some text) = true) by (by destruct text).
  exec_auto_block E user_id s r s'; no_fault_paths Hnf; reads;
    rewrite ?Hw, ?Hlu in *; cbn [from_option] in *; unfold id in *;
    simplify_eq; try known_user;
    unfold total_seconds_gt in *; try lia; try congruence.
  repeat split; tables; try done.
  by apply lifetime_update_eq with total.
Qed.

Lemma stale_below_cap_resets_then_counts_witness :
  let E := Scenario.stamped_env (Some "2026-10-12 08:00:00")
             (fun _ => Scenario.oct12 9 0 0) Scenario.no_fault in
  let s := Scenario.at_rest (Scenario.one_user 7 (Some 50)) in
  let s' := (auto_block_accounts E 1 s).2 in
  (auto_block_accounts E 1 s).1 = Ret tt /\
  journal s' =
    Commit :: Update_blocked_count (7 + 1) 1
           :: Replace_daily 1 (today_of E s) 1
           :: Replace_daily 1 (today_of E s) 0 :: journal s /\
  window (txn s') 1 (today_of E s) = Some 1 /\
  window (disk s') 1 (today_of E s) = Some 1 /\
  lifetime (disk s') 1 = Some (7 + 1) /\
  log s' = Info_auto_blocked 1 (7 + 1) 1 :: log s.
Proof.
  apply (stale_below_cap_resets_then_counts
           (Scenario.stamped_env (Some "2026-10-12 08:00:00")
              (fun _ => Scenario.oct12 9 0 0) Scenario.no_fault)
           (Scenario.at_rest (Scenario.one_user 7 (Some 50))) 1 7 50
           "2026-10-12 08:00:00" (Scenario.oct12 8 0 0)).
  - intros n. reflexivity.
  - reflexivity.
  - vm_compute. reflexivity.
  - reflexivity.
  - reflexivity.
  - intros H. discriminate H.
  - vm_compute. reflexivity.
  - vm_compute. reflexivity.
Defined.

(** ** Range of the counters *)

(** The statements of [j] that come on top of [j0]. *)
Ltac prefix_of j j0 :=
  match j with
  | j0 => constr:(@nil statement)
  | ?a :: ?j' => let p := prefix_of j' j0 in constr:(a :: p)
  end.

Ltac journal_grew :=
  match goal with
  | |- ∃ new, ?j = (new ++ ?j0)%list ∧ _ =>
      let p := prefix_of j j0 in exists p; split; [reflexivity|]
  end.

Ltac members H :=
  repeat (apply elem_of_cons in H as [H|H]; [simplify_eq|]);
  try (by apply elem_of_nil in H).

Lemma default_Some (x : Z) : default 0 (Some x) = x.
Proof. done. Qed.

(** C6.  From a state in which the user's count of the day is in [0,100],
    whatever the clock and the store do, every count [auto_block_accounts]
    writes is in [0,100] and so is the count it leaves.  The lifetime
    counter stays non-negative and grows by at most 1; it grows by exactly
    1, from any value, whenever the block is logged: no bound is tested. *)
Theorem window_writes_stay_in_range (E : Env) (s : state) (user_id : Z) :
  0 <= daily_count_of E s user_id <= 100 ->
  let s' := (auto_block_accounts E user_id s).2 in
  (∃ new : list statement, journal s' = (new ++ journal s)%list ∧
     ∀ u d v, Replace_daily u d v ∈ new →
       u = user_id ∧ d = today_of E s ∧ 0 <= v <= 100) ∧
  0 <= default 0 (window (txn s') user_id (today_of E s)) <= 100 ∧
  (∀ n, lifetime (txn s) user_id = Some n → 0 <= n →
     ∃ n', lifetime (txn s') user_id = Some n' ∧ n <= n' <= n + 1 ∧
       ((∃ t d, log s' = Info_auto_blocked user_id t d :: log s) → n' = n + 1)).
Proof.
  intros Hc. unfold daily_count_of, today_of in *.
  exec_auto_block E user_id s r s'; reads; try lia.
  all: split; [journal_grew; intros u' d' v' Hin; members Hin; repeat split; lia|].
  all: split; [tables; rewrite ?default_Some; lia|].
  all: intros n Hl Hn; try known_user.
  all: try (exists n; split; [by tables|]; split; [lia|]; intros (t & d' & Hlog);
            solve [ by apply (f_equal length) in Hlog; cbn in Hlog; lia
                  | discriminate Hlog ]).
  all: exists (n + 1); split;
    [apply lifetime_update_eq with n; by tables | split; [lia | done]].
Qed.

Lemma window_writes_stay_in_range_witness :
  let E := Scenario.stamped_env (Some "2026-10-12 08:00:00")
             (fun _ => Scenario.oct12 9 0 0) Scenario.no_fault in
  let s := Scenario.at_rest (Scenario.one_user 7 (Some 99)) in
  let s' := (auto_block_accounts E 1 s).2 in
  (∃ new : list statement, journal s' = (new ++ journal s)%list ∧
     ∀ u d v, Replace_daily u d v ∈ new →
       u = 1 ∧ d = today_of E s ∧ 0 <= v <= 100) ∧
  0 <= default 0 (window (txn s') 1 (today_of E s)) <= 100 ∧
  (∀ n, lifetime (txn s) 1 = Some n → 0 <= n →
     ∃ n', lifetime (txn s') 1 = Some n' ∧ n <= n' <= n + 1 ∧
       ((∃ t d, log s' = Info_auto_blocked 1 t d :: log s) → n' = n + 1)).
Proof.
  apply (window_writes_stay_in_range
           (Scenario.stamped_env (Some "2026-10-12 08:00:00")
              (fun _ => Scenario.oct12 9 0 0) Scenario.no_fault)
           (Scenario.at_rest (Scenario.one_user 7 (Some 99))) 1).
  assert (Hd : daily_count_of
                 (Scenario.stamped_env (Some "2026-10-12 08:00:00")
                    (fun _ => Scenario.oct12 9 0 0) Scenario.no_fault)
                 (Scenario.at_rest (Scenario.one_user 7 (Some 99))) 1 = 99)
    by (vm_compute; reflexivity).
  rewrite Hd. lia.
Defined.

(** ** What SQLite returns for the date of a row *)

Lemma digit_cases (n : Z) :
  digit n ∈ ["0"; "1"; "2"; "3"; "4"; "5"; "6"; "7"; "8"; "9"]%char.
Proof.
  unfold digit. pose proof (Z.mod_pos_bound n 10 ltac:(lia)) as Hk.
  set (k := n mod 10) in *.
  assert (k = 0 ∨ k = 1 ∨ k = 2 ∨ k = 3 ∨ k = 4 ∨ k = 5 ∨ k = 6 ∨ k = 7
          ∨ k = 8 ∨ k = 9) as Hcases by lia.
  clearbody k. clear Hk.
  repeat (destruct Hcases as [-> | Hcases]; [cbn; set_solver|]).
  subst k. cbn. set_solver.
Qed.

Lemma is_digit_digit n : Sqlite.is_digit (digit n) = true.
Proof.
  pose proof (digit_cases n) as H.
  repeat (apply elem_of_cons in H as [-> | H]; [done|]).
  by apply elem_of_nil in H.
Qed.

Lemma digit_value_digit n : Sqlite.digit_value (digit n) = n mod 10.
Proof.
  unfold digit. pose proof (Z.mod_pos_bound n 10 ltac:(lia)) as Hk.
  set (k := n mod 10) in *.
  assert (k = 0 ∨ k = 1 ∨ k = 2 ∨ k = 3 ∨ k = 4 ∨ k = 5 ∨ k = 6 ∨ k = 7
          ∨ k = 8 ∨ k = 9) as Hcases by lia.
  clearbody k.
  repeat (destruct Hcases as [-> | Hcases]; [done|]).
  by subst k.
Qed.

Lemma expect_dash_digit n z : Sqlite.expect "-"%char (String (digit n) z) = None.
Proof.
  pose proof (digit_cases n) as H. unfold Sqlite.expect.
  repeat (apply elem_of_cons in H as [-> | H]; [done|]).
  by apply elem_of_nil in H.
Qed.

Lemma get_digits_2 n z acc :
  0 <= n <= 99 ->
  Sqlite.get_digits 2 (String (digit (n / 10)) (String (digit n) z)) acc
  = Some (acc * 100 + n, z).
Proof.
  intros Hn. cbn [Sqlite.get_digits].
  rewrite !is_digit_digit, !digit_value_digit. do 2 f_equal.
  Z.div_mod_to_equations. lia.
Qed.

Lemma get_digits_4 n z :
  0 <= n <= 9999 ->
  Sqlite.get_digits 4
    (String (digit (n / 1000)) (String (digit (n / 100))
       (String (digit (n / 10)) (String (digit n) z)))) 0
  = Some (n, z).
Proof.
  intros Hn. cbn [Sqlite.get_digits].
  rewrite !is_digit_digit, !digit_value_digit. do 2 f_equal.
  Z.div_mod_to_equations. lia.
Qed.

Lemma date_isoformat_chars t :
  date_isoformat t =
  String (digit (year t / 1000)) (String (digit (year t / 100))
    (String (digit (year t / 10)) (String (digit (year t))
      (String "-" (String (digit (month t / 10)) (String (digit (month t))
        (String "-" (String (digit (day t / 10)) (String (digit (day t))
          ""))))))))).
Proof. reflexivity. Qed.

Lemma parseYyyyMmDd_isoformat t :
  valid_datetime t ->
  Sqlite.parseYyyyMmDd (date_isoformat t) = Some (year t, month t, day t).
Proof.
  intros (Hy & Hm & Hd & _).
  assert (day t <= 31).
  { unfold days_in_month in Hd. repeat case_match; lia. }
  rewrite date_isoformat_chars. unfold Sqlite.parseYyyyMmDd.
  rewrite expect_dash_digit. cbn [default from_option id].
  rewrite get_digits_4 by lia. cbn [mbind option_bind Sqlite.expect Ascii.eqb Bool.eqb].
  rewrite get_digits_2 by lia. cbn [mbind option_bind Sqlite.expect Ascii.eqb Bool.eqb].
  rewrite get_digits_2 by lia. cbn [mbind option_bind].
  rewrite !Z.mul_0_l, !Z.add_0_l.
  replace ((1 <=? month t) && (month t <=? 12) && (1 <=? day t) && (day t <=? 31))
    with true by (symmetry; repeat (apply andb_true_intro; split); lia).
  rewrite bool_decide_eq_false_2; [done|]. by intros [? ?].
Qed.

(** The [date] of every row the query of [auto_block_accounts] can find is
    the ISO date of a valid day: its [last_updated] is NULL. *)
Lemma sqlite_last_updated_of_iso_date render t :
  valid_datetime t ->
  Sqlite.datetime_unixepoch_localtime render (date_isoformat t) = None.
Proof.
  intros Hv. unfold Sqlite.datetime_unixepoch_localtime, Sqlite.parseDateOrTime.
  by rewrite parseYyyyMmDd_isoformat.
Qed.


(** ** The deployed scheduler: a cap per calendar day *)

Lemma window_grows db user_id d u d' n :
  window db u d' = Some n ->
  ∃ n', window (replace_daily user_id d (default 0 (window db user_id d) + 1) db) u d'
        = Some n' ∧ n <= n'.
Proof.
  intros Hn. destruct (decide ((user_id, d) = (u, d'))) as [Heq|Hne].
  - injection Heq as -> ->. rewrite window_replace_eq, Hn.
    exists (n + 1). split; [done|lia].
  - rewrite window_replace_ne by done. exists n. split; [done|lia].
Qed.

Lemma repeat_calls_at_cap E user_id day c n : forall s,
  (forall k, date_isoformat (utcnow E k) = day) ->
  window (txn s) user_id day = Some c -> 100 <= c ->
  txn (repeat_calls E user_id n s) = txn s /\
  disk (repeat_calls E user_id n s) = disk s /\
  journal (repeat_calls E user_id n s) = journal s.
Proof.
  induction n as [|n IH]; intros s Hday Hw Hc; [done|].
  cbn [repeat_calls].
  destruct (at_cap_is_a_no_op E s user_id c) as (Hd & Ht & Hj & _); [|done|].
  { unfold today_of. by rewrite Hday. }
  destruct (IH (auto_block_accounts E user_id s).2 Hday) as (Ht' & Hd' & Hj');
    [by rewrite Ht | done |].
  rewrite Ht', Hd', Hj'. done.
Qed.


(** C10.  With SQLite evaluating [datetime(date, 'unixepoch', 'localtime')]
    on the ISO date of a valid day, the last update read back is NULL.  So
    the reset branch is never taken (the clock is read once and every count
    written is the previous count plus 1), no window count ever decreases,
    and from a count of 100 on the call changes nothing, however many calls
    follow on that calendar day and whatever the time. *)
Theorem sqlite_rows_never_show_a_last_update
    (render : Z -> string) (parse : string -> option datetime)
    (clock : nat -> datetime) (fault : nat -> bool)
    (s : state) (user_id : Z) :
  let E := Scenario.sqlite_env render parse clock fault in
  valid_datetime (now_of E s) ->
  let c := daily_count_of E s user_id in
  let s' := (auto_block_accounts E user_id s).2 in
  sql_last_updated E (today_of E s) = None ∧
  (clock_reads s' <= S (clock_reads s))%nat ∧
  (∃ new : list statement, journal s' = (new ++ journal s)%list ∧
     ∀ u d v, Replace_daily u d v ∈ new → v = c + 1) ∧
  (∀ u d n, window (txn s) u d = Some n →
     ∃ n', window (txn s') u d = Some n' ∧ n <= n') ∧
  (100 <= c →
     txn s' = txn s ∧ disk s' = disk s ∧ journal s' = journal s ∧
     ∀ n, (∀ k, date_isoformat (clock k) = today_of E s) →
       txn (repeat_calls E user_id n s) = txn s ∧
       disk (repeat_calls E user_id n s) = disk s).
Proof.
  intros E Hv c s'.
  assert (Hsql : sql_last_updated E (today_of E s) = None)
    by (by apply sqlite_last_updated_of_iso_date).
  assert (Hclock : utcnow E = clock) by done.
  split; [done|].
  assert (Hcap : 100 <= c →
     txn s' = txn s ∧ disk s' = disk s ∧ journal s' = journal s ∧
     ∀ n, (∀ k, date_isoformat (clock k) = today_of E s) →
       txn (repeat_calls E user_id n s) = txn s ∧
       disk (repeat_calls E user_id n s) = disk s).
  { intros Hc. unfold c, daily_count_of in Hc.
    destruct (window (txn s) user_id (today_of E s)) as [c0|] eqn:Hw;
      [|cbn in Hc; lia].
    rewrite default_Some in Hc.
    destruct (at_cap_is_a_no_op E s user_id c0 Hw Hc) as (Hd & Ht & Hj & _).
    repeat split; try done.
    all: intros; by apply (repeat_calls_at_cap E user_id (today_of E s) c0). }
  enough ((clock_reads s' <= S (clock_reads s))%nat ∧
          (∃ new : list statement, journal s' = (new ++ journal s)%list ∧
             ∀ u d v, Replace_daily u d v ∈ new → v = c + 1) ∧
          (∀ u d n, window (txn s) u d = Some n →
             ∃ n', window (txn s') u d = Some n' ∧ n <= n')) by tauto.
  clear Hcap. subst c s'.
  unfold daily_count_of, today_of, now_of in *. clearbody E.
  exec_auto_block E user_id s r s'; reads; rewrite ?Hsql in *.
  all: try match goal with
       | H : str_truthy (match ?w with Some _ => None | None => None end) = true |- _ =>
           by destruct w
       end.
  all: split; [lia|].
  all: split; [journal_grew; intros u' d' v' Hin; by members Hin|].
  all: intros u' d' n Hn; tables;
       first [ apply window_grows; done | exists n; split; [done|lia] ].
Qed.

Lemma sqlite_rows_never_show_a_last_update_witness :
  let E := Scenario.sqlite_env Scenario.any_render Scenario.strptime_canonical
             (fun _ => Scenario.oct12 9 0 0) Scenario.no_fault in
  let s := Scenario.at_rest (Scenario.one_user 7 (Some 50)) in
  let c := daily_count_of E s 1 in
  let s' := (auto_block_accounts E 1 s).2 in
  sql_last_updated E (today_of E s) = None ∧
  (clock_reads s' <= S (clock_reads s))%nat ∧
  (∃ new : list statement, journal s' = (new ++ journal s)%list ∧
     ∀ u d v, Replace_daily u d v ∈ new → v = c + 1) ∧
  (∀ u d n, window (txn s) u d = Some n →
     ∃ n', window (txn s') u d = Some n' ∧ n <= n') ∧
  (100 <= c →
     txn s' = txn s ∧ disk s' = disk s ∧ journal s' = journal s ∧
     ∀ n, (∀ k : nat, date_isoformat (Scenario.oct12 9 0 0) = today_of E s) →
       txn (repeat_calls E 1 n s) = txn s ∧
       disk (repeat_calls E 1 n s) = disk s).
Proof.
  apply (sqlite_rows_never_show_a_last_update
           Scenario.any_render Scenario.strptime_canonical
           (fun _ => Scenario.oct12 9 0 0) Scenario.no_fault
           (Scenario.at_rest (Scenario.one_user 7 (Some 50))) 1).
  unfold valid_datetime, now_of. cbn. lia.
Defined.

(** ** The window that never reopens *)

(** A call of the deployed code for a known user below the cap, with no
    store error: the query finds no last update, whatever the row and the
    clock, so nothing is reset and the count written is the count read
    plus 1. *)
Lemma deployed_call_below_cap
    (render : Z → string) (parse : string → option datetime)
    (clock : nat → datetime) (s : state) (user_id total c : Z) :
  let E := Scenario.sqlite_env render parse clock Scenario.no_fault in
  valid_datetime (clock (clock_reads s)) →
  lifetime (txn s) user_id = Some total →
  daily_count_of E s user_id = c → c < 100 →
  let today := date_isoformat (clock (clock_reads s)) in
  let s' := (auto_block_accounts E user_id s).2 in
  (auto_block_accounts E user_id s).1 = Ret tt ∧
  last_updated_of E s user_id = None ∧
  journal s' =
    Commit :: Update_blocked_count (total + 1) user_id
           :: Replace_daily user_id today (c + 1) :: journal s ∧
  txn s' = update_blocked_count (total + 1) user_id
             (replace_daily user_id today (c + 1) (txn s)) ∧
  disk s' = txn s' ∧
  clock_reads s' = S (clock_reads s) ∧
  log s' = Info_auto_blocked user_id (total + 1) (c + 1) :: log s.
Proof.
  intros E Hv Hl Hc Hlt today s'. subst s' today.
  assert (Hsql : sql_last_updated E (today_of E s) = None)
    by (by apply sqlite_last_updated_of_iso_date).
  assert (Hnf : no_faults E) by (intros n; reflexivity).
  assert (Hlu : last_updated_of E s user_id = None).
  { unfold last_updated_of. rewrite Hsql. by destruct (window _ _ _). }
  unfold daily_count_of, last_updated_of, today_of in *.
  assert (Hclock : utcnow E = clock) by done. clearbody E.
  exec_auto_block E user_id s r s'; no_fault_paths Hnf; reads;
    rewrite ?Hlu in *; try known_user; try discriminate; try congruence;
    try lia.
  subst c. rewrite Hclock. done.
Qed.

(** C4, at the failing input of the deployed code.  A call at [t0] writes
    the count of the day of a user, [c + 1] below 100; the next call comes
    more than 600 seconds later on that day.  The update is more than 600
    seconds old, yet the call reads no last update (the query computes it
    from the date of the row, and SQLite gives NULL): it writes no reset,
    and the stored count after it is [c + 2], not 1. *)
Theorem stale_count_below_cap_is_not_reset
    (render : Z → string) (parse : string → option datetime)
    (clock : nat → datetime) (s : state) (user_id total c : Z) :
  let E := Scenario.sqlite_env render parse clock Scenario.no_fault in
  let t0 := clock (clock_reads s) in
  let t1 := clock (S (clock_reads s)) in
  valid_datetime t0 → valid_datetime t1 →
  date_isoformat t1 = date_isoformat t0 →
  600 * 1000000 < elapsed_us t1 t0 →
  lifetime (txn s) user_id = Some total →
  daily_count_of E s user_id = c → 0 <= c → c + 1 < 100 →
  let today := date_isoformat t0 in
  let s1 := (auto_block_accounts E user_id s).2 in
  let s2 := (auto_block_accounts E user_id s1).2 in
  journal s1 =
    Commit :: Update_blocked_count (total + 1) user_id
           :: Replace_daily user_id today (c + 1) :: journal s ∧
  window (disk s1) user_id today = Some (c + 1) ∧
  now_of E s1 = t1 ∧
  last_updated_of E s1 user_id = None ∧
  (auto_block_accounts E user_id s1).1 = Ret tt ∧
  journal s2 =
    Commit :: Update_blocked_count (total + 2) user_id
           :: Replace_daily user_id today (c + 2) :: journal s1 ∧
  window (disk s2) user_id today = Some (c + 2) ∧
  window (disk s2) user_id today ≠ Some 1 ∧
  lifetime (disk s2) user_id = Some (total + 2) ∧
  log s2 = Info_auto_blocked user_id (total + 2) (c + 2) :: log s1.
Proof.
  intros E t0 t1 Hv0 Hv1 Hday Hgap Hl Hc H0 Hlt today s1 s2.
  destruct (deployed_call_below_cap render parse clock s user_id total c
              Hv0 Hl Hc ltac:(lia))
    as (_ & _ & Hj1 & Ht1 & Hd1 & Hk1 & _).
  fold E in Hj1, Ht1, Hd1, Hk1. fold s1 in Hj1, Ht1, Hd1, Hk1.
  fold t0 in Hj1, Ht1. fold today in Hj1, Ht1.
  assert (Hw1 : window (txn s1) user_id today = Some (c + 1)).
  { rewrite Ht1. by rewrite window_update, window_replace_eq. }
  assert (Hl1 : lifetime (txn s1) user_id = Some (total + 1)).
  { rewrite Ht1. apply lifetime_update_eq with total.
    by rewrite lifetime_replace_daily. }
  assert (Hnow : clock (clock_reads s1) = t1) by (by rewrite Hk1).
  assert (Htoday : today_of E s1 = today).
  { unfold today_of. change (utcnow E) with clock. by rewrite Hnow. }
  assert (Hc1 : daily_count_of E s1 user_id = c + 1).
  { unfold daily_count_of. by rewrite Htoday, Hw1. }
  destruct (deployed_call_below_cap render parse clock s1 user_id (total + 1)
              (c + 1) ltac:(by rewrite Hnow) Hl1 Hc1 ltac:(lia))
    as (Hr2 & Hlu2 & Hj2 & Ht2 & Hd2 & _ & Hlog2).
  fold E in Hr2, Hlu2, Hj2, Ht2, Hd2, Hlog2.
  fold s2 in Hj2, Ht2, Hd2, Hlog2.
  rewrite Hnow, Hday in Hj2, Ht2. fold today in Hj2, Ht2.
  replace (total + 1 + 1) with (total + 2) in * by lia.
  replace (c + 1 + 1) with (c + 2) in * by lia.
  assert (Hw2 : window (disk s2) user_id today = Some (c + 2)).
  { rewrite Hd2, Ht2. by rewrite window_update, window_replace_eq. }
  repeat split; try done.
  - by rewrite Hd1.
  - rewrite Hw2. intros H. simplify_eq. lia.
  - rewrite Hd2, Ht2. apply lifetime_update_eq with (total + 1).
    by rewrite lifetime_replace_daily.
Qed.

Lemma stale_count_below_cap_is_not_reset_witness :
  let E := Scenario.sqlite_env Scenario.any_render Scenario.strptime_canonical
             Scenario.nine_then_noon Scenario.no_fault in
  let s := Scenario.at_rest (Scenario.one_user 7 (Some 49)) in
  let s1 := (auto_block_accounts E 1 s).2 in
  let s2 := (auto_block_accounts E 1 s1).2 in
  journal s1 =
    Commit :: Update_blocked_count (7 + 1) 1
           :: Replace_daily 1 "2026-10-12" (49 + 1) :: journal s ∧
  window (disk s1) 1 "2026-10-12" = Some (49 + 1) ∧
  now_of E s1 = Scenario.oct12 12 0 0 ∧
  last_updated_of E s1 1 = None ∧
  (auto_block_accounts E 1 s1).1 = Ret tt ∧
  journal s2 =
    Commit :: Update_blocked_count (7 + 2) 1
           :: Replace_daily 1 "2026-10-12" (49 + 2) :: journal s1 ∧
  window (disk s2) 1 "2026-10-12" = Some (49 + 2) ∧
  window (disk s2) 1 "2026-10-12" ≠ Some 1 ∧
  lifetime (disk s2) 1 = Some (7 + 2) ∧
  log s2 = Info_auto_blocked 1 (7 + 2) (49 + 2) :: log s1.
Proof.
  apply (stale_count_below_cap_is_not_reset
           Scenario.any_render Scenario.strptime_canonical Scenario.nine_then_noon
           (Scenario.at_rest (Scenario.one_user 7 (Some 49))) 1 7 49).
  - unfold valid_datetime. cbn. lia.
  - unfold valid_datetime. cbn. lia.
  - reflexivity.
  - vm_compute. reflexivity.
  - reflexivity.
  - vm_compute. reflexivity.
  - lia.
  - lia.
Defined.

(** ** The lifetime counter, the store errors and the eligibility filter *)

(** [UPDATE users SET blocked_count = v + 1 WHERE id = user_id] touches the
    row of [user_id] and no other. *)
Lemma lifetime_after_update db v user_id u :
  lifetime (update_blocked_count (v + 1) user_id db) u = lifetime db u ∨
  (u = user_id ∧ ∃ n, lifetime db u = Some n ∧
     lifetime (update_blocked_count (v + 1) user_id db) u = Some (v + 1)).
Proof.
  destruct (decide (u = user_id)) as [->|Hne].
  - destruct (lifetime db user_id) as [n|] eqn:Hl.
    + right. split; [done|]. exists n. split; [done|].
      by apply lifetime_update_eq with n.
    + left. unfold lifetime in *. rewrite select_user_update.
      by destruct (select_user db user_id).
  - left. by apply lifetime_update_ne.
Qed.

Lemma update_replace_comm db v user_id u d c :
  update_blocked_count v user_id (replace_daily u d c db)
  = replace_daily u d c (update_blocked_count v user_id db).
Proof. done. Qed.

(** What one call can do, whatever the clock and the store do: it never
    lets a [sqlite3.Error] out, commits only when it logs the block, and
    leaves every lifetime counter or adds 1 to the one of [user_id]. *)
Lemma auto_block_accounts_effect E user_id s :
  let r := (auto_block_accounts E user_id s).1 in
  let s' := (auto_block_accounts E user_id s).2 in
  r ≠ Raise Sqlite3_Error ∧
  sleeps s' = sleeps s ∧
  (disk s' = disk s ∨
   (disk s' = txn s' ∧ r = Ret tt ∧
    ∃ t d, log s' = Info_auto_blocked user_id t d :: log s)) ∧
  (log s' = Error_database_in_auto_block_accounts :: log s →
   r = Ret tt ∧ disk s' = disk s) ∧
  (∀ u, lifetime (txn s') u = lifetime (txn s) u ∨
        (u = user_id ∧ ∃ n, lifetime (txn s) u = Some n ∧
           lifetime (txn s') u = Some (n + 1))).
Proof.
  exec_auto_block E user_id s r s'.
  all: split; [done|].
  all: split; [done|].
  all: split; [first [by left | right; eauto]|].
  all: split;
    [first [ done
           | intros Hlog; by apply (f_equal length) in Hlog; cbn in Hlog; lia
           | intros Hlog; discriminate Hlog ]|].
  all: intros u0; rewrite ?update_replace_comm, ?lifetime_replace_daily;
    try by left.
  all: match goal with
       | Hs : select_user ?db ?uid = Some ?r |- _ =>
           destruct (lifetime_after_update db (blocked_count r) uid u0)
             as [Hsame|(-> & n & Hn & Hup)];
           [by left | right; split; [done|]; exists n; split; [done|]];
           assert (blocked_count r = n)
             by (unfold lifetime in Hn; rewrite Hs in Hn; by injection Hn);
           congruence
       end.
Qed.

Lemma evolves_refl d : evolves d d.
Proof.
  intros u. destruct (lifetime d u) as [n|] eqn:H; [|done].
  exists n. split; [done|lia].
Qed.

Lemma evolves_trans d0 d1 d2 : evolves d0 d1 -> evolves d1 d2 -> evolves d0 d2.
Proof.
  intros H1 H2 u. specialize (H1 u). specialize (H2 u).
  destruct (lifetime d0 u) as [n|].
  - destruct H1 as (m & Hm & Hle). rewrite Hm in H2.
    destruct H2 as (k & Hk & Hle'). exists k. split; [done|lia].
  - by rewrite H1 in H2.
Qed.

Lemma auto_block_accounts_evolves E user_id s :
  evolves (txn s) (txn (auto_block_accounts E user_id s).2).
Proof.
  destruct (auto_block_accounts_effect E user_id s) as (_ & _ & _ & _ & Hl).
  intros u. destruct (Hl u) as [Hsame|(-> & n & Hn & Hup)].
  - rewrite Hsame. apply evolves_refl.
  - rewrite Hn. exists (n + 1). split; [done|lia].
Qed.

(** The loop over the paying users keeps the invariant of a turn: neither
    the committed database nor the view of the connection loses a user or
    lowers a counter. *)
Lemma for_paid_users_evolves E d0 l : forall s,
  evolves d0 (disk s) -> evolves d0 (txn s) ->
  let s' := (for_paid_users E l s).2 in
  evolves d0 (disk s') ∧ evolves d0 (txn s') ∧ sleeps s' = sleeps s.
Proof.
  induction l as [|user rest IH]; intros s Hd Ht; [done|].
  cbn [for_paid_users]. rewrite run_query_bind.
  destruct (store_fault E (store_ops s)); [done|].
  assert (Hcont : forall s1, evolves d0 (disk s1) -> evolves d0 (txn s1) ->
            sleeps s1 = sleeps s ->
            let s' := (for_paid_users E rest s1).2 in
            evolves d0 (disk s') ∧ evolves d0 (txn s') ∧ sleeps s' = sleeps s).
  { intros s1 H1 H2 H3. rewrite <- H3. by apply IH. }
  assert (Hcall :
    let s' := ((auto_block_accounts E user ≫= λ _, for_paid_users E rest)
                 (tick_store s)).2 in
    evolves d0 (disk s') ∧ evolves d0 (txn s') ∧ sleeps s' = sleeps s).
  { rewrite run_bind.
    pose proof (auto_block_accounts_effect E user (tick_store s))
      as (_ & Hs & Hdisk & _ & _).
    pose proof (auto_block_accounts_evolves E user (tick_store s)) as Hev.
    destruct (auto_block_accounts E user (tick_store s)) as [[[]|e] s1];
      cbn [fst snd] in *.
    - apply Hcont; [|by eapply evolves_trans|done].
      destruct Hdisk as [-> | (-> & _)]; [done|by eapply evolves_trans].
    - repeat split; [|by eapply evolves_trans|done].
      destruct Hdisk as [-> | (-> & _)]; [done|by eapply evolves_trans]. }
  destruct (head _) as [v|]; [destruct (truthy v)|]; [exact Hcall| |];
    rewrite run_ret_bind; by apply Hcont.
Qed.

(** A turn of the task returns normally and sleeps, with or without an
    exception inside. *)
Lemma start_auto_blocking_pass_effect E s :
  let r := (start_auto_blocking_pass E s).1 in
  let s' := (start_auto_blocking_pass E s).2 in
  r = Ret tt ∧ sleeps s' = S (sleeps s) ∧ evolves (disk s) (disk s').
Proof.
  unfold start_auto_blocking_pass. rewrite run_bind. unfold try_except.
  rewrite run_connect_bind.
  destruct (store_fault E (store_ops s));
    [by split; [|split; [|apply evolves_refl]]|].
  rewrite run_query_bind. cbn [store_ops txn].
  destruct (store_fault E (S (store_ops s)));
    [by split; [|split; [|apply evolves_refl]]|].
  rewrite run_bind.
  match goal with
  | |- context [for_paid_users E ?l ?s1] =>
      pose proof (for_paid_users_evolves E (disk s) l s1
                    (evolves_refl _) (evolves_refl _)) as (Hd & _ & Hs);
      destruct (for_paid_users E l s1) as [[[]|e] s2]
  end; cbn [fst snd disk sleeps tick_store] in *.
  all: cbn; split; [done|]; split; [by f_equal|done].
Qed.

(** So do any number of turns. *)
Lemma start_auto_blocking_effect E n : forall s,
  let r := (start_auto_blocking E n s).1 in
  let s' := (start_auto_blocking E n s).2 in
  r = Ret tt ∧ sleeps s' = (sleeps s + n)%nat ∧ evolves (disk s) (disk s').
Proof.
  induction n as [|n IH]; intros s.
  - cbn. split; [done|]. split; [lia|apply evolves_refl].
  - cbn [start_auto_blocking]. rewrite run_bind.
    destruct (start_auto_blocking_pass_effect E s) as (Hr & Hs & He).
    destruct (start_auto_blocking_pass E s) as [r1 s1]. cbn [fst snd] in *.
    subst r1. destruct (IH s1) as (Hr' & Hs' & He').
    split; [done|]. split; [lia|by eapply evolves_trans].
Qed.

Lemma find_snoc {A} (f : A -> bool) l x :
  find f (l ++ [x]) =
  match find f l with Some y => Some y | None => if f x then Some x else None end.
Proof.
  induction l as [|a l IH]; cbn; [done|]. by destruct (f a).
Qed.

Lemma lifetime_signup e h db u :
  match lifetime db u with
  | Some n => lifetime (signup e h db) u = Some n
  | None => lifetime (signup e h db) u = None ∨ lifetime (signup e h db) u = Some 0
  end.
Proof.
  unfold signup. destruct (existsb _ _).
  - destruct (lifetime db u); [done|by left].
  - unfold lifetime, select_user. cbn [users]. rewrite find_snoc.
    destruct (find _ (users db)); [done|]. cbn [u_id].
    destruct (_ =? u); [by right|by left].
Qed.

Lemma lifetime_create_subscription user_id c db u :
  lifetime (create_subscription user_id c db) u = lifetime db u.
Proof.
  unfold create_subscription.
  destruct (select_user db user_id) as [r|]; [|done].
  assert (Hmap : lifetime
            (set_users (map (fun r => if u_id r =? user_id
               then mk_user (u_id r) (email r) (password r) (Some c) (blocked_count r)
               else r)) db) u = lifetime db u).
  { unfold lifetime, select_user, set_users. cbn [users].
    induction (users db) as [|a l IH]; [done|]. cbn [map find].
    destruct (u_id a =? user_id); cbn [u_id]; destruct (u_id a =? u); done. }
  destruct (stripe_customer_id r) as [[|]|]; done.
Qed.

(** No request touches [blocked_count]; [signup] creates it at 0. *)
Lemma lifetime_handle r db u :
  match lifetime db u with
  | Some n => lifetime (handle r db) u = Some n
  | None =>
      lifetime (handle r db) u = None ∨
      ((∃ e h, r = Signup e h) ∧ lifetime (handle r db) u = Some 0)
  end.
Proof.
  destruct r as [e h| | | | | |]; cbn [handle].
  - pose proof (lifetime_signup e h db u) as H.
    destruct (lifetime db u); [done|]. destruct H; [by left|right; eauto].
  - destruct (lifetime db u); [done|by left].
  - destruct (lifetime db u); [done|by left].
  - change (lifetime (connect_instagram user_id db) u) with (lifetime db u).
    destruct (lifetime db u); [done|by left].
  - destruct (lifetime db u); [done|by left].
  - assert (lifetime (confirm_payment user_id succeeded amount description now_iso db) u
            = lifetime db u) as ->.
    { unfold confirm_payment. destruct (select_user db user_id); [|done].
      by destruct succeeded. }
    destruct (lifetime db u); [done|by left].
  - rewrite lifetime_create_subscription.
    destruct (lifetime db u); [done|by left].
Qed.

Lemma ids_below_next db r : r ∈ users db → u_id r < next_user_id db.
Proof.
  unfold next_user_id. induction (users db) as [|a l IH]; intros Hin.
  - by apply elem_of_nil in Hin.
  - cbn. apply elem_of_cons in Hin as [->|Hin]; [lia|]. specialize (IH Hin). lia.
Qed.

Lemma signup_creates_at_zero e h db :
  existsb (fun r => String.eqb (email r) e) (users db) = false →
  lifetime (signup e h db) (next_user_id db) = Some 0.
Proof.
  intros Hfree. unfold signup. rewrite Hfree.
  unfold lifetime, select_user. cbn [users]. rewrite find_snoc.
  destruct (find _ (users db)) as [r|] eqn:Hf.
  - apply find_some in Hf as [Hin Heq]. apply list_elem_of_In in Hin.
    pose proof (ids_below_next db r Hin). lia.
  - cbn [u_id]. by rewrite Z.eqb_refl.
Qed.

(** One event of the application, seen from one user. *)
Lemma system_step_cases E s ev u :
  match lifetime (disk s) u with
  | Some n =>
      ∃ m, lifetime (disk (system_step E s ev)) u = Some m ∧ n <= m ∧
           (ev ≠ Wake → m = n)
  | None =>
      lifetime (disk (system_step E s ev)) u = None ∨
      ((∃ e h, ev = Request (Signup e h)) ∧
       lifetime (disk (system_step E s ev)) u = Some 0)
  end.
Proof.
  destruct ev as [r|]; cbn [system_step disk].
  - pose proof (lifetime_handle r (disk s) u) as H.
    destruct (lifetime (disk s) u) as [n|].
    + exists n. split; [done|]. split; [lia|done].
    + destruct H as [H|((e & h & ->) & H)]; [by left|right; eauto].
  - pose proof (start_auto_blocking_pass_effect E s) as (_ & _ & Hev).
    specialize (Hev u). destruct (lifetime (disk s) u) as [n|].
    + destruct Hev as (m & Hm & Hle). exists m. by repeat split.
    + by left.
Qed.

Lemma run_non_negative E evs : forall s,
  non_negative (disk s) -> non_negative (disk (run E evs s)).
Proof.
  induction evs as [|ev evs IH]; intros s Hs; [done|].
  cbn [run foldl]. apply IH. intros u m Hm.
  pose proof (system_step_cases E s ev u) as H.
  destruct (lifetime (disk s) u) as [n|] eqn:Hn.
  - destruct H as (m' & Hm' & Hle & _). specialize (Hs u n Hn).
    rewrite Hm in Hm'. injection Hm' as <-. lia.
  - destruct H as [H|(_ & H)]; rewrite Hm in H; [done|]. injection H as ->. lia.
Qed.

(** C7.  Along every run of the application from the empty database: a
    user that appears has been created by [signup] with a lifetime counter
    of 0; the counter of an existing user is never negative and no event
    decreases it; no request changes it, only a turn of the background task
    does; one call of [auto_block_accounts] leaves it or adds 1 to it; and
    a signup with a free email creates the user with counter 0. *)
Theorem lifetime_counter_only_grows
    (E : Env) (evs : list event) (ev : event) (user_id : Z) :
  let s := run E evs initial_state in
  let s' := system_step E s ev in
  (lifetime (disk s) user_id = None →
     lifetime (disk s') user_id = None ∨
     ((∃ e h, ev = Request (Signup e h)) ∧ lifetime (disk s') user_id = Some 0)) ∧
  (∀ n, lifetime (disk s) user_id = Some n →
     0 <= n ∧
     ∃ m, lifetime (disk s') user_id = Some m ∧ n <= m ∧ (ev ≠ Wake → m = n)) ∧
  (∀ s0 target n, lifetime (txn s0) user_id = Some n →
     let s1 := (auto_block_accounts E target s0).2 in
     lifetime (txn s1) user_id = Some n ∨
     (target = user_id ∧ lifetime (txn s1) user_id = Some (n + 1))) ∧
  (∀ e h, existsb (fun r => String.eqb (email r) e) (users (disk s)) = false →
     lifetime (signup e h (disk s)) (next_user_id (disk s)) = Some 0).
Proof.
  intros s s'. subst s'.
  pose proof (system_step_cases E s ev user_id) as Hstep.
  split; [|split; [|split; [|intros e h; apply signup_creates_at_zero]]].
  - intros Hn. by rewrite Hn in Hstep.
  - intros n Hn. rewrite Hn in Hstep. split; [|done].
    by apply (run_non_negative E evs initial_state) with user_id.
  - intros s0 target n Hn s1. subst s1.
    destruct (auto_block_accounts_effect E target s0) as (_ & _ & _ & _ & Hl).
    destruct (Hl user_id) as [Hsame|(-> & n' & Hn' & Hup)].
    + left. by rewrite Hsame.
    + right. split; [done|]. rewrite Hup. congruence.
Qed.

Lemma lifetime_counter_only_grows_witness :
  let E := Scenario.sqlite_env Scenario.any_render Scenario.strptime_canonical
             (fun _ => Scenario.oct12 9 0 0) Scenario.no_fault in
  let evs := [Request (Signup "u@example.com" "hash");
              Request (Confirm_payment 1 true 999 "basic" "2026-10-01T00:00:00");
              Request (Connect_instagram 1); Wake] in
  let s := run E evs initial_state in
  let s' := system_step E s Wake in
  0 <= 1 ∧
  ∃ m, lifetime (disk s') 1 = Some m ∧ 1 <= m ∧ (Wake ≠ Wake → m = 1).
Proof.
  apply (proj1 (proj2 (lifetime_counter_only_grows
           (Scenario.sqlite_env Scenario.any_render Scenario.strptime_canonical
              (fun _ => Scenario.oct12 9 0 0) Scenario.no_fault)
           [Request (Signup "u@example.com" "hash");
            Request (Confirm_payment 1 true 999 "basic" "2026-10-01T00:00:00");
            Request (Connect_instagram 1); Wake]
           Wake 1)) 1).
  vm_compute. reflexivity.
Defined.

Ltac faults_in k :=
  repeat match goal with
  | H : store_fault _ ?n = false |- _ =>
      destruct (decide (k = n)) as [->|?]; [congruence|]; clear H
  end.

Ltac not_this_log H :=
  first [ discriminate H
        | by (apply (f_equal length) in H; cbn in H; lia) ].

(** A store error during the call is what the error record of the log
    reports. *)
Lemma store_error_iff_logged E user_id s :
  let s' := (auto_block_accounts E user_id s).2 in
  (∃ k, (store_ops s <= k < store_ops s')%nat ∧ store_fault E k = true) ↔
  log s' = Error_database_in_auto_block_accounts :: log s.
Proof.
  exec_auto_block E user_id s r s'.
  all: split;
    [ intros (k & Hk & Hf); first [ reflexivity | faults_in k; lia ]
    | intros Hlog; first [ not_this_log Hlog | idtac ] ].
  all: match goal with
       | H : store_fault _ ?n = true |- _ => exists n; split; [lia|done]
       end.
Qed.

(** What a call has executed stays on the connection: the view of the
    connection is the view before the call with the statements of the call
    applied, error or not; a call that logs an error has not committed. *)
Lemma auto_block_accounts_pending E user_id s :
  let s' := (auto_block_accounts E user_id s).2 in
  ∃ new, journal s' = (new ++ journal s)%list ∧
         txn s' = foldr apply_statement (txn s) new ∧
         (log s' = Error_database_in_auto_block_accounts :: log s →
          Commit ∉ new).
Proof.
  exec_auto_block E user_id s r s'.
  all: journal_grew.
  all: split; [reflexivity|].
  all: intros Hlog Hin; first [ not_this_log Hlog | by members Hin ].
Qed.

(** A call that logs a block has committed the whole view of the
    connection: its own two writes and whatever was pending before it. *)
Lemma logged_block_commits_the_connection E u2 s2 t d :
  let s3 := (auto_block_accounts E u2 s2).2 in
  log s3 = Info_auto_blocked u2 t d :: log s2 →
  disk s3 = txn s3 ∧
  (∀ u, u ≠ u2 → lifetime (disk s3) u = lifetime (txn s2) u) ∧
  (∀ u day, (u, day) ≠ (u2, today_of E s2) →
     window (disk s3) u day = window (txn s2) u day).
Proof.
  unfold today_of.
  exec_auto_block E u2 s2 r s3; intros Hlog; try not_this_log Hlog.
  all: split; [done|]; split.
  all: try (intros u1 Hu; rewrite ?update_replace_comm, ?lifetime_replace_daily;
            by apply lifetime_update_ne).
  all: intros u1 d1 Hne; rewrite ?window_update, ?window_replace_ne; done.
Qed.

(** A turn opens its own connection: what an earlier connection left
    pending is in no committed database of the turn. *)
Lemma start_auto_blocking_pass_drops_pending E db s :
  disk (start_auto_blocking_pass E (with_txn db s)).2
  = disk (start_auto_blocking_pass E s).2.
Proof.
  unfold start_auto_blocking_pass. rewrite !run_bind. unfold try_except.
  rewrite !run_connect_bind. cbn [with_txn store_ops].
  destruct (store_fault E (store_ops s)); [done|]. done.
Qed.

(** C8, as the code has it.  A [sqlite3.Error] never leaves
    [auto_block_accounts].  A store error during the call is logged, and
    the error record is logged for nothing else; the call then returns
    normally and the committed database is as before the call.  What the
    call executed before the error is not rolled back: the connection sees
    its view of before the call with the statements of the call applied,
    none of them a commit.  The loop goes on with the remaining users on
    that connection, and a later call that logs a block commits the whole
    view of the connection: outside the two counters it writes, the
    committed database is then what the connection saw before that call,
    pending writes included.  What is still pending when the connection is
    closed is dropped, and a turn starts from the committed database
    alone.  A turn of [start_auto_blocking] catches every exception,
    returns normally and sleeps, and so does every number of turns. *)
Theorem store_error_is_logged_and_contained (E : Env) (s : state) (user_id : Z) :
  let r := (auto_block_accounts E user_id s).1 in
  let s' := (auto_block_accounts E user_id s).2 in
  r ≠ Raise Sqlite3_Error ∧
  ((∃ k, (store_ops s <= k < store_ops s')%nat ∧ store_fault E k = true) ↔
   log s' = Error_database_in_auto_block_accounts :: log s) ∧
  (log s' = Error_database_in_auto_block_accounts :: log s →
     r = Ret tt ∧ disk s' = disk s) ∧
  (∃ new, journal s' = (new ++ journal s)%list ∧
          txn s' = foldr apply_statement (txn s) new ∧
          (log s' = Error_database_in_auto_block_accounts :: log s →
           Commit ∉ new)) ∧
  (∀ rest s0 v,
     store_fault E (store_ops s0) = false →
     head (select_is_connected (txn s0) user_id) = Some v →
     truthy v = true →
     let s1 := (auto_block_accounts E user_id (tick_store s0)).2 in
     log s1 = Error_database_in_auto_block_accounts :: log s0 →
     for_paid_users E (user_id :: rest) s0 = for_paid_users E rest s1) ∧
  (∀ s2 u2 t d,
     let s3 := (auto_block_accounts E u2 s2).2 in
     log s3 = Info_auto_blocked u2 t d :: log s2 →
     disk s3 = txn s3 ∧
     (∀ u, u ≠ u2 → lifetime (disk s3) u = lifetime (txn s2) u) ∧
     (∀ u day, (u, day) ≠ (u2, today_of E s2) →
        window (disk s3) u day = window (txn s2) u day)) ∧
  (txn (close s').2 = disk s' ∧ disk (close s').2 = disk s') ∧
  (∀ db, disk (start_auto_blocking_pass E (with_txn db s)).2
         = disk (start_auto_blocking_pass E s).2) ∧
  (start_auto_blocking_pass E s).1 = Ret tt ∧
  sleeps (start_auto_blocking_pass E s).2 = S (sleeps s) ∧
  (∀ n, (start_auto_blocking E n s).1 = Ret tt ∧
        sleeps (start_auto_blocking E n s).2 = (sleeps s + n)%nat).
Proof.
  destruct (auto_block_accounts_effect E user_id s) as (Hr & _ & _ & Herr & _).
  destruct (start_auto_blocking_pass_effect E s) as (Hp & Hs & _).
  split; [done|].
  split; [apply store_error_iff_logged|].
  split; [done|].
  split; [apply auto_block_accounts_pending|].
  split.
  { intros rest s0 v Hf Hv Ht s1 Hlog. subst s1.
    cbn [for_paid_users]. rewrite run_query_bind, Hf, Hv, Ht, run_bind.
    destruct (auto_block_accounts_effect E user_id (tick_store s0))
      as (_ & _ & _ & Herr0 & _).
    destruct (Herr0 Hlog) as [Hret _].
    destruct (auto_block_accounts E user_id (tick_store s0)) as [r1 s1].
    cbn [fst snd] in *. by rewrite Hret. }
  split; [intros s2 u2 t d; apply logged_block_commits_the_connection|].
  split; [done|].
  split; [intros db; apply start_auto_blocking_pass_drops_pending|].
  split; [done|]. split; [done|].
  intros n. destruct (start_auto_blocking_effect E n s) as (Hn & Hsn & _).
  done.
Qed.

(** The [UPDATE] of user 1 fails: the error is logged, the committed
    database has no count for user 1, the connection has the count 1; the
    call for user 2 on that connection commits it, with a lifetime counter
    of 0. *)
Lemma store_error_is_logged_and_contained_witness :
  let E := Scenario.sqlite_env Scenario.any_render Scenario.strptime_canonical
             (fun _ => Scenario.oct12 9 0 0) (Scenario.fault_at 3) in
  let s := Scenario.at_rest Scenario.two_users in
  let s' := (auto_block_accounts E 1 s).2 in
  let s3 := (auto_block_accounts E 2 s').2 in
  log s' = Error_database_in_auto_block_accounts :: log s ∧
  (auto_block_accounts E 1 s).1 = Ret tt ∧
  disk s' = disk s ∧
  window (disk s') 1 "2026-10-12" = None ∧
  window (txn s') 1 "2026-10-12" = Some 1 ∧
  window (disk s3) 1 "2026-10-12" = Some 1 ∧
  lifetime (disk s3) 1 = Some 0.
Proof.
  intros E s s' s3.
  destruct (store_error_is_logged_and_contained E s 1)
    as (_ & Hiff & Herr & _ & _ & Hnext & _).
  assert (Hlog : log s' = Error_database_in_auto_block_accounts :: log s).
  { apply Hiff. exists 3%nat. vm_compute. repeat split; lia. }
  destruct (Herr Hlog) as [Hret Hdisk].
  destruct (Hnext s' 2 1 1) as (_ & Hl & Hw); [vm_compute; reflexivity|].
  split; [exact Hlog|]. split; [exact Hret|]. split; [exact Hdisk|].
  split; [vm_compute; reflexivity|].
  split; [vm_compute; reflexivity|].
  split.
  - unfold s3. rewrite (Hw 1 "2026-10-12"); [vm_compute; reflexivity|].
    intros H. discriminate H.
  - unfold s3. rewrite (Hl 1); [vm_compute; reflexivity|lia].
Defined.

(** The [UPDATE] of user 1 fails after the [INSERT OR REPLACE] of the day's
    count; the commit of user 2, on the same connection, publishes that
    count: user 1 ends the turn with a count of 1, a lifetime counter of 0
    and no block reported. *)
Lemma store_error_leaves_no_trace_counterexample :
  ¬ store_error_leaves_no_trace
      (Scenario.sqlite_env Scenario.any_render Scenario.strptime_canonical
         (fun _ => Scenario.oct12 9 0 0) (Scenario.fault_at 6))
      (Scenario.at_rest Scenario.two_users) 1.
Proof.
  intros H. destruct H as [_ Hw]; [vm_compute; reflexivity|].
  specialize (Hw "2026-10-12"). vm_compute in Hw. discriminate Hw.
Qed.

(** The filter is sound: a user the turn calls [auto_block_accounts] for
    has a payment and a connected account row.  It is the converse that
    fails. *)
Lemma selected_sound db user_id :
  selected db user_id = true ->
  has_payment db user_id = true ∧
  ∃ a, a ∈ accounts db ∧ a_user_id a = user_id ∧ truthy (is_connected a) = true.
Proof.
  unfold selected. intros H. apply andb_true_iff in H as [Hp Hc].
  apply bool_decide_eq_true in Hp. unfold select_paid_users in Hp.
  apply list_elem_of_In, in_map_iff in Hp as (r & <- & Hr).
  apply list_elem_of_In, elem_of_index_order, list_elem_of_filter
    in Hr as [Hpay _].
  split; [by apply Is_true_true|].
  unfold select_is_connected in Hc.
  destruct (index_order username (filter _ (accounts db))) as [|a l] eqn:Hf;
    [done|]. cbn in Hc.
  assert (Ha : a ∈ filter (fun a => a_user_id a = u_id r) (accounts db))
    by (apply (elem_of_index_order username); rewrite Hf; left).
  apply list_elem_of_filter in Ha as [Hu Hin]. exists a. done.
Qed.

(** C2, at the failing input.  [start_auto_blocking] reads one row of
    [accounts] per user ([fetchone]): a paying user whose first row is not
    connected and whose second row is, is shown as connected by
    [get_dashboard] ([any] over the rows) yet is passed over by the turn,
    which writes and logs nothing. *)
Theorem eligibility_reads_first_account_row_only :
  let db := Scenario.two_accounts in
  let E := Scenario.sqlite_env Scenario.any_render Scenario.strptime_canonical
             (fun _ => Scenario.oct12 9 0 0) Scenario.no_fault in
  let s' := (start_auto_blocking_pass E (Scenario.at_rest db)).2 in
  has_payment db 1 = true ∧
  (∃ a, a ∈ accounts db ∧ a_user_id a = 1 ∧ truthy (is_connected a) = true) ∧
  dashboard_instagram_connected db 1 = true ∧
  selected db 1 = false ∧
  journal s' = [] ∧ log s' = [] ∧ lifetime (disk s') 1 = Some 0 ∧
  ¬ selected_iff_paid_and_connected db 1.
Proof.
  assert (Hc : ∃ a, a ∈ accounts Scenario.two_accounts ∧ a_user_id a = 1 ∧
                    truthy (is_connected a) = true).
  { exists (mk_account 1 "@instagram_acc" (Some 1)). split; [|done].
    apply elem_of_cons. right. apply elem_of_cons. by left. }
  repeat split; try done; try (vm_compute; reflexivity).
  intros [_ Hiff]. assert (Hs : selected Scenario.two_accounts 1 = true) by (by apply Hiff).
  vm_compute in Hs. discriminate Hs.
Qed.

(** The deployed scheduler on one day: a hundred turns six seconds apart
    bring both counters to 100; the turn at noon, three hours after the
    last write, changes nothing. *)
Lemma deployed_day_stops_at_100 :
  let E := Scenario.sqlite_env Scenario.any_render Scenario.strptime_canonical
             Scenario.morning_then_noon Scenario.no_fault in
  let s100 := (start_auto_blocking E 100 (Scenario.at_rest (Scenario.one_user 0 None))).2 in
  let s101 := (start_auto_blocking_pass E s100).2 in
  window (disk s100) 1 "2026-10-12" = Some 100 ∧
  lifetime (disk s100) 1 = Some 100 ∧
  utcnow E (clock_reads s100) = Scenario.oct12 12 0 0 ∧
  window (disk s101) 1 "2026-10-12" = Some 100 ∧
  lifetime (disk s101) 1 = Some 100 ∧
  log s101 = log s100.
Proof. vm_compute. repeat split; reflexivity. Qed.

(** * The rest of the scheduler and the handlers *)
Lemma auto_block_accounts_frame E user_id s :
  let s' := (auto_block_accounts E user_id s).2 in
  accounts (txn s') = accounts (txn s) ∧
  payment_history (txn s') = payment_history (txn s) ∧
  users_seq (txn s') = users_seq (txn s) ∧
  map identity (users (txn s')) = map identity (users (txn s)) ∧
  (∀ u, u ≠ user_id → lifetime (txn s') u = lifetime (txn s) u) ∧
  (∀ u d, (u, d) ≠ (user_id, today_of E s) →
     window (txn s') u d = window (txn s) u d).
Proof.
  assert (Hid : forall v db,
            map identity (users (update_blocked_count v user_id db))
            = map identity (users db)).
  { intros v db. unfold update_blocked_count, set_users. cbn [users].
    induction (users db) as [|a l IH]; [done|]. cbn [map]. rewrite IH.
    f_equal. by destruct (u_id a =? user_id). }
  unfold today_of.
  exec_auto_block E user_id s r s'.
  all: repeat split; try done.
  all: try (rewrite ?update_replace_comm; cbn [replace_daily set_daily users]; apply Hid).
  all: try (intros u1 Hu; rewrite ?update_replace_comm, ?lifetime_replace_daily;
            first [done | by apply lifetime_update_ne]).
  all: intros u1 d1 Hne; rewrite ?window_update, ?window_replace_ne; done.
Qed.

(** ** Invariants of a turn *)

(** An invariant of the database that every call the loop makes keeps on
    the view of the connection is kept by the loop, and by a whole turn on
    the committed database, whatever fails. *)
Lemma for_paid_users_invariant E (P : DB -> Prop) l :
  (forall user s v,
     user ∈ l → head (select_is_connected (txn s) user) = Some v →
     truthy v = true →
     P (txn s) → P (txn (auto_block_accounts E user s).2)) ->
  forall s, P (disk s) -> P (txn s) ->
  P (disk (for_paid_users E l s).2) ∧ P (txn (for_paid_users E l s).2).
Proof.
  induction l as [|user rest IH]; intros Hcall s Hd Ht; [done|].
  assert (IH' : forall s, P (disk s) -> P (txn s) ->
            P (disk (for_paid_users E rest s).2) ∧
            P (txn (for_paid_users E rest s).2)).
  { apply IH. intros u s0 v Hu. apply Hcall. by right. }
  cbn [for_paid_users]. rewrite run_query_bind.
  destruct (store_fault E (store_ops s)); [done|].
  cbn [txn tick_store].
  destruct (head (select_is_connected (txn s) user)) as [v|] eqn:Hv;
    [destruct (truthy v) eqn:Htr|]; [|rewrite run_ret_bind; by apply IH'..].
  rewrite run_bind.
  pose proof (auto_block_accounts_effect E user (tick_store s))
    as (_ & _ & Hdisk & _ & _).
  pose proof (Hcall user (tick_store s) v ltac:(left) Hv Htr Ht) as Ht'.
  destruct (auto_block_accounts E user (tick_store s)) as [[[]|e] s1];
    cbn [fst snd] in *.
  - apply IH'; [|done]. by destruct Hdisk as [-> | (-> & _)].
  - split; [|done]. by destruct Hdisk as [-> | (-> & _)].
Qed.

Lemma start_auto_blocking_pass_invariant E (P : DB -> Prop) s :
  (forall user s0 v,
     user ∈ select_paid_users (disk s) →
     head (select_is_connected (txn s0) user) = Some v → truthy v = true →
     P (txn s0) → P (txn (auto_block_accounts E user s0).2)) ->
  P (disk s) -> P (disk (start_auto_blocking_pass E s).2).
Proof.
  intros Hcall Hd.
  unfold start_auto_blocking_pass. rewrite run_bind. unfold try_except.
  rewrite run_connect_bind.
  destruct (store_fault E (store_ops s)); [done|].
  rewrite run_query_bind. cbn [store_ops txn].
  destruct (store_fault E (S (store_ops s))); [done|].
  rewrite run_bind.
  match goal with
  | |- context [for_paid_users E ?l ?s1] =>
      pose proof (for_paid_users_invariant E P l Hcall s1 Hd Hd) as [Hd' _];
      destruct (for_paid_users E l s1) as [[[]|e] s2]
  end; done.
Qed.

Lemma start_auto_blocking_pass_frame E s :
  let s' := (start_auto_blocking_pass E s).2 in
  accounts (disk s') = accounts (disk s) ∧
  payment_history (disk s') = payment_history (disk s) ∧
  users_seq (disk s') = users_seq (disk s) ∧
  map identity (users (disk s')) = map identity (users (disk s)).
Proof.
  apply (start_auto_blocking_pass_invariant E
           (fun db => accounts db = accounts (disk s) ∧
                      payment_history db = payment_history (disk s) ∧
                      users_seq db = users_seq (disk s) ∧
                      map identity (users db) = map identity (users (disk s))));
    [|done].
  intros user_id s0 v _ _ _ (Ha & Hp & Hq & Hi).
  destruct (auto_block_accounts_frame E user_id s0) as (Ha' & Hp' & Hq' & Hi' & _).
  cbv zeta in *. by rewrite Ha', Hp', Hq', Hi'.
Qed.

(** ** The states the application can reach *)

Lemma select_user_is_Some db u :
  is_Some (select_user db u) ↔ u ∈ map u_id (users db).
Proof.
  unfold select_user. induction (users db) as [|r l IH]; cbn [find map].
  - split; [by intros [? ?]|]. intros H. by apply elem_of_nil in H.
  - destruct (u_id r =? u) eqn:Hr.
    + split; [|by eauto]. intros _. apply Z.eqb_eq in Hr as ->. left.
    + rewrite IH. split; [by right|]. intros H.
      apply elem_of_cons in H as [->|H]; [|done]. lia.
Qed.

Lemma existsb_email_false e l :
  existsb (fun r => String.eqb (email r) e) l = false → e ∉ map email l.
Proof.
  induction l as [|r l IH]; cbn [existsb map]; intros H Hin.
  - by apply elem_of_nil in Hin.
  - apply orb_false_iff in H as [Hr Hl].
    apply elem_of_cons in Hin as [->|Hin]; [|by apply IH].
    by rewrite String.eqb_refl in Hr.
Qed.

Lemma foldr_max_ge (l : list Z) z : z <= foldr Z.max z l.
Proof. induction l as [|a l IH]; cbn; lia. Qed.

Lemma foldr_max_bound (l : list Z) z b :
  z <= b → (∀ x, x ∈ l → x <= b) → foldr Z.max z l <= b.
Proof.
  intros Hz. induction l as [|a l IH]; intros H; cbn; [done|].
  apply Z.max_lub; [apply H; left|apply IH]. intros x Hx. apply H. by right.
Qed.

Lemma next_user_id_api db :
  api_state db → next_user_id db = users_seq db + 1.
Proof.
  intros Hdb. unfold next_user_id.
  pose proof (foldr_max_ge (map u_id (users db)) (users_seq db)).
  assert (foldr Z.max (users_seq db) (map u_id (users db)) <= users_seq db); [|lia].
  apply foldr_max_bound; [done|]. intros x Hx.
  apply list_elem_of_In, in_map_iff in Hx as (r & <- & Hr).
  apply list_elem_of_In in Hr. by apply (ids_from_sequence db Hdb).
Qed.

Lemma api_state_signup e h db : api_state db → api_state (signup e h db).
Proof.
  intros Hdb. unfold signup.
  destruct (existsb _ _) eqn:Hfree; [done|].
  pose proof (next_user_id_api db Hdb) as Hnext.
  destruct Hdb as [Hids Hemails Hseq Hnn Hacc Hone Hpay].
  split; cbn [users users_seq accounts payment_history]; try done.
  - rewrite map_app. apply NoDup_app. split; [done|]. split; [|apply NoDup_singleton].
    intros x Hx Hx'. apply list_elem_of_singleton in Hx'. subst x.
    apply list_elem_of_In, in_map_iff in Hx as (r & Hr & Hin).
    apply list_elem_of_In in Hin. specialize (Hseq r Hin). cbn in Hr. lia.
  - rewrite map_app. apply NoDup_app. split; [done|]. split; [|apply NoDup_singleton].
    intros x Hx Hx'. apply list_elem_of_singleton in Hx'. subst x.
    by apply existsb_email_false in Hfree.
  - intros r Hr. apply elem_of_app in Hr as [Hr|Hr].
    + specialize (Hseq r Hr). lia.
    + apply list_elem_of_singleton in Hr. subst r. cbn [u_id]. lia.
  - lia.
  - intros p Hp. rewrite map_app. apply elem_of_app. left. by apply Hpay.
Qed.

Lemma api_state_connect_instagram u db :
  api_state db → api_state (connect_instagram u db).
Proof.
  intros [Hids Hemails Hseq Hnn Hacc Hone Hpay].
  split; cbn [users users_seq accounts payment_history connect_instagram]; try done.
  - intros a Ha. apply elem_of_app in Ha as [Ha|Ha].
    + apply list_elem_of_filter in Ha as [_ Ha]. by apply Hacc.
    + apply list_elem_of_singleton in Ha. by subst a.
  - rewrite map_app. apply NoDup_app. split; [|split; [|apply NoDup_singleton]].
    + change (map a_user_id ?l) with (a_user_id <$> l) in *.
      apply NoDup_fmap_2_strong; [|by apply NoDup_filter, (NoDup_fmap_1 a_user_id)].
      intros a b Ha Hb Hab.
      apply list_elem_of_filter in Ha as [_ Ha].
      apply list_elem_of_filter in Hb as [_ Hb].
      clear -Hone Ha Hb Hab.
      induction (accounts db) as [|c l IH]; [by apply elem_of_nil in Ha|].
      cbn in Hone. apply NoDup_cons in Hone as [Hc Hl].
      apply elem_of_cons in Ha as [->|Ha]; apply elem_of_cons in Hb as [->|Hb];
        try done.
      * exfalso. apply Hc. rewrite Hab. by apply list_elem_of_fmap_2.
      * exfalso. apply Hc. rewrite <- Hab. by apply list_elem_of_fmap_2.
      * by apply IH.
    + intros x Hx Hx'. apply list_elem_of_singleton in Hx'. subst x.
      apply list_elem_of_In, in_map_iff in Hx as (a & Ha & Hin).
      apply list_elem_of_In, list_elem_of_filter in Hin as [Hne Hin].
      apply Hne. split; [done|]. by apply Hacc.
Qed.

Lemma api_state_confirm_payment u ok amt d t db :
  api_state db → api_state (confirm_payment u ok amt d t db).
Proof.
  intros Hdb. unfold confirm_payment.
  destruct (select_user db u) as [r|] eqn:Hu; [|done]. destruct ok; [|done].
  destruct Hdb as [Hids Hemails Hseq Hnn Hacc Hone Hpay].
  split; cbn [users users_seq accounts payment_history]; try done.
  intros p Hp. apply elem_of_app in Hp as [Hp|Hp]; [by apply Hpay|].
  apply list_elem_of_singleton in Hp. subst p. cbn [p_user_id].
  apply select_user_is_Some. by rewrite Hu.
Qed.

(** A change of the users that keeps ids and emails keeps the invariant. *)
Lemma api_state_same_identity db db' :
  map u_id (users db') = map u_id (users db) →
  map email (users db') = map email (users db) →
  users_seq db' = users_seq db →
  accounts db' = accounts db →
  payment_history db' = payment_history db →
  api_state db → api_state db'.
Proof.
  intros Hi He Hs Ha Hp [Hids Hemails Hseq Hnn Hacc Hone Hpay].
  split; rewrite ?Hi, ?He, ?Hs, ?Ha, ?Hp; try done.
  intros r Hr.
  assert (Hin : u_id r ∈ map u_id (users db)).
  { rewrite <- Hi. apply list_elem_of_In, in_map. by apply list_elem_of_In. }
  apply list_elem_of_In, in_map_iff in Hin as (r0 & <- & Hr0).
  apply Hseq. by apply list_elem_of_In.
Qed.

Lemma identity_ids l l' :
  map identity l' = map identity l →
  map u_id l' = map u_id l ∧ map email l' = map email l.
Proof.
  revert l'. induction l as [|a l IH]; intros [|b l'] H; try done.
  cbn in H. injection H as Hid He Hp Hc Hl. destruct (IH l' Hl) as [Hi' He'].
  cbn. by rewrite Hid, He, Hi', He'.
Qed.

Lemma api_state_create_subscription u c db :
  api_state db → api_state (create_subscription u c db).
Proof.
  intros Hdb. unfold create_subscription.
  destruct (select_user db u) as [r|]; [|done].
  assert (Hmap : api_state
            (set_users (map (fun r => if u_id r =? u
               then mk_user (u_id r) (email r) (password r) (Some c) (blocked_count r)
               else r)) db)).
  { apply (api_state_same_identity db); try done.
    - unfold set_users. cbn [users]. induction (users db) as [|a l IH]; [done|].
      cbn [map]. rewrite IH. f_equal. by destruct (u_id a =? u).
    - unfold set_users. cbn [users]. induction (users db) as [|a l IH]; [done|].
      cbn [map]. rewrite IH. f_equal. by destruct (u_id a =? u). }
  by destruct (stripe_customer_id r) as [[|]|].
Qed.

Lemma api_state_handle r db : api_state db → api_state (handle r db).
Proof.
  destruct r; cbn [handle]; try done.
  - apply api_state_signup.
  - apply api_state_connect_instagram.
  - apply api_state_confirm_payment.
  - apply api_state_create_subscription.
Qed.

Lemma api_state_system_step E s ev :
  api_state (disk s) → api_state (disk (system_step E s ev)).
Proof.
  destruct ev as [r|]; cbn [system_step disk]; [apply api_state_handle|].
  intros Hdb.
  destruct (start_auto_blocking_pass_frame E s) as (Ha & Hp & Hq & Hi).
  apply identity_ids in Hi as [Hi He].
  by apply (api_state_same_identity (disk s)).
Qed.

Lemma api_state_run E evs : forall s,
  api_state (disk s) → api_state (disk (run E evs s)).
Proof.
  induction evs as [|ev evs IH]; intros s Hs; [done|].
  cbn [run foldl]. apply IH. by apply api_state_system_step.
Qed.

Lemma api_state_empty : api_state empty_DB.
Proof.
  split; cbn; try done; try apply NoDup_nil_2; try lia.
  all: intros x Hx; by apply elem_of_nil in Hx.
Qed.

(** ** The deployed scheduler as a function of the database *)

(** A call that meets no store error and reads no last update is
    [record_block] on the view of the connection; it commits when it
    writes. *)
Lemma call_is_record_block E s user_id :
  no_faults E →
  str_truthy (sql_last_updated E (today_of E s)) = false →
  is_Some (select_user (txn s) user_id) →
  let r := (auto_block_accounts E user_id s).1 in
  let s' := (auto_block_accounts E user_id s).2 in
  r = Ret tt ∧
  txn s' = record_block (today_of E s) user_id (txn s) ∧
  disk s' = (if daily_count_of E s user_id <? 100 then txn s' else disk s) ∧
  clock_reads s' = S (clock_reads s) ∧
  sleeps s' = sleeps s ∧
  (log s' = log s ∨ ∃ t d, log s' = Info_auto_blocked user_id t d :: log s).
Proof.
  intros Hnf Hnull [row Hrow].
  unfold daily_count_of, today_of, record_block in *. rewrite Hrow.
  exec_auto_block E user_id s r s'; no_fault_paths Hnf; reads; simplify_eq.
  all: try match goal with
       | H : str_truthy (match ?w with Some _ => _ | None => None end) = true |- _ =>
           destruct w; cbn in H; congruence
       end.
  all: try match goal with
       | H : (?c <? 100) = _ |- _ => rewrite H
       end; repeat split; eauto.
Qed.

Lemma record_block_counts day u db total :
  lifetime db u = Some total →
  let c := default 0 (window db u day) in
  c <= 100 →
  default 0 (window (record_block day u db) u day) = Z.min 100 (c + 1) ∧
  lifetime (record_block day u db) u = Some (total + (Z.min 100 (c + 1) - c)).
Proof.
  intros Hl c Hc. unfold c in *. clear c. unfold record_block.
  destruct (select_user db u) as [row|] eqn:Hrow;
    [|unfold lifetime in Hl; by rewrite Hrow in Hl].
  assert (blocked_count row = total) as ->
    by (unfold lifetime in Hl; rewrite Hrow in Hl; by injection Hl).
  destruct (default 0 (window db u day) <? 100) eqn:Hlt.
  - rewrite window_update, window_replace_eq, default_Some.
    rewrite update_replace_comm, lifetime_replace_daily.
    rewrite (lifetime_update_eq db _ u total Hl).
    set (c := default 0 (window db u day)) in *. clearbody c.
    apply Z.ltb_lt in Hlt. split; [lia|f_equal; lia].
  - rewrite Hl. set (c := default 0 (window db u day)) in *. clearbody c.
    apply Z.ltb_ge in Hlt. split; [lia|f_equal; lia].
Qed.

Lemma repeat_calls_counts E user_id day n : forall s total,
  no_faults E →
  (∀ k, date_isoformat (utcnow E k) = day) →
  str_truthy (sql_last_updated E day) = false →
  lifetime (txn s) user_id = Some total →
  let c := default 0 (window (txn s) user_id day) in
  c <= 100 →
  let s' := repeat_calls E user_id n s in
  default 0 (window (txn s') user_id day) = Z.min 100 (c + Z.of_nat n) ∧
  lifetime (txn s') user_id = Some (total + (Z.min 100 (c + Z.of_nat n) - c)) ∧
  (disk s = txn s → disk s' = txn s').
Proof.
  induction n as [|n IH]; intros s total Hnf Hday Hnull Hl c Hc;
    unfold c in *; clear c.
  - cbn [repeat_calls]. set (c := default 0 _) in *. clearbody c.
    split; [lia|]. split; [rewrite Hl; f_equal; lia|done].
  - cbn [repeat_calls].
    destruct (call_is_record_block E s user_id Hnf) as (_ & Ht & Hd & _).
    { unfold today_of. by rewrite Hday. }
    { unfold lifetime in Hl. by destruct (select_user (txn s) user_id). }
    unfold daily_count_of, today_of in Ht, Hd. rewrite Hday in Ht, Hd.
    destruct (record_block_counts day user_id (txn s) total Hl Hc) as [Hw' Hl'].
    rewrite <- Ht in Hw', Hl'.
    set (s1 := (auto_block_accounts E user_id s).2) in *.
    destruct (IH s1 _ Hnf Hday Hnull Hl') as (Hw2 & Hl2 & Hd2).
    { rewrite Hw'. lia. }
    rewrite Hw' in Hw2, Hl2.
    split; [rewrite Hw2|split; [rewrite Hl2; f_equal|]].
    1,2: set (c := default 0 (window (txn s) user_id day)) in *; clearbody c; lia.
    intros Heq. apply Hd2. rewrite Hd.
    destruct (default 0 (window (txn s) user_id day) <? 100) eqn:Hlt; [done|].
    rewrite Heq, Ht. unfold record_block.
    destruct (select_user (txn s) user_id); [|done]. by rewrite Hlt.
Qed.

Lemma update_blocked_count_ids v u db :
  map u_id (users (update_blocked_count v u db)) = map u_id (users db).
Proof.
  unfold update_blocked_count, set_users. cbn [users].
  induction (users db) as [|a l IH]; [done|]. cbn [map]. rewrite IH.
  f_equal. by destruct (u_id a =? u).
Qed.

Lemma record_block_frame day u db :
  accounts (record_block day u db) = accounts db ∧
  payment_history (record_block day u db) = payment_history db ∧
  map u_id (users (record_block day u db)) = map u_id (users db) ∧
  (∀ u', u' ≠ u → lifetime (record_block day u db) u' = lifetime db u') ∧
  (∀ u' d, (u', d) ≠ (u, day) →
     window (record_block day u db) u' d = window db u' d).
Proof.
  unfold record_block. destruct (select_user db u) as [row|]; [|done].
  destruct (_ <? 100); [|done].
  repeat split; try done.
  - rewrite update_replace_comm. cbn [replace_daily set_daily users].
    apply update_blocked_count_ids.
  - intros u' Hu. rewrite update_replace_comm, lifetime_replace_daily.
    by apply lifetime_update_ne.
  - intros u' d Hne. rewrite window_update. by apply window_replace_ne.
Qed.

Lemma turn_step_frame day u db :
  accounts (turn_step day db u) = accounts db ∧
  payment_history (turn_step day db u) = payment_history db ∧
  map u_id (users (turn_step day db u)) = map u_id (users db) ∧
  (∀ u', u' ≠ u → lifetime (turn_step day db u) u' = lifetime db u') ∧
  (∀ u' d, (u', d) ≠ (u, day) →
     window (turn_step day db u) u' d = window db u' d).
Proof.
  unfold turn_step. destruct (head _) as [v|]; [|done].
  destruct (truthy v); [apply record_block_frame|done].
Qed.

(** For a known user below the cap whose first account row is connected the
    step adds 1 to both counters; for any other user it changes nothing. *)
Lemma turn_step_self day u db total :
  lifetime db u = Some total →
  let c := default 0 (window db u day) in
  let hit := match head (select_is_connected db u) with
             | Some v => truthy v | None => false end && (c <? 100) in
  lifetime (turn_step day db u) u = Some (if hit then total + 1 else total) ∧
  window (turn_step day db u) u day
  = (if hit then Some (c + 1) else window db u day).
Proof.
  intros Hl c hit. unfold hit, c, turn_step, record_block. clear hit c.
  destruct (head _) as [v|]; [|by rewrite Hl]. destruct (truthy v); [|by rewrite Hl].
  cbn [andb].
  destruct (select_user db u) as [row|] eqn:Hrow;
    [|unfold lifetime in Hl; by rewrite Hrow in Hl].
  assert (blocked_count row = total) as ->
    by (unfold lifetime in Hl; rewrite Hrow in Hl; by injection Hl).
  destruct (_ <? 100); [|by rewrite Hl].
  rewrite window_update, window_replace_eq.
  rewrite update_replace_comm, lifetime_replace_daily.
  by rewrite (lifetime_update_eq db _ u total Hl).
Qed.

Lemma foldl_turn_step_frame day l : forall db,
  accounts (foldl (turn_step day) db l) = accounts db ∧
  map u_id (users (foldl (turn_step day) db l)) = map u_id (users db) ∧
  (∀ u, u ∉ l →
     lifetime (foldl (turn_step day) db l) u = lifetime db u ∧
     ∀ d, window (foldl (turn_step day) db l) u d = window db u d) ∧
  (∀ u d, d ≠ day → window (foldl (turn_step day) db l) u d = window db u d).
Proof.
  induction l as [|a l IH]; intros db; [done|]. cbn [foldl].
  destruct (IH (turn_step day db a)) as (Ha & Hi & Hu & Hd).
  destruct (turn_step_frame day a db) as (Ha' & _ & Hi' & Hl' & Hw').
  rewrite Ha, Hi, Ha', Hi'. repeat split; try done.
  - apply not_elem_of_cons in H as [Hne Hl]. destruct (Hu u Hl) as [-> _].
    by apply Hl'.
  - intros d. apply not_elem_of_cons in H as [Hne Hl]. destruct (Hu u Hl) as [_ ->].
    apply Hw'. congruence.
  - intros u d Hne. rewrite Hd by done. apply Hw'. congruence.
Qed.

Lemma foldl_turn_step_member day l : forall db u total,
  NoDup l → u ∈ l →
  lifetime db u = Some total →
  lifetime (foldl (turn_step day) db l) u = lifetime (turn_step day db u) u ∧
  window (foldl (turn_step day) db l) u day = window (turn_step day db u) u day.
Proof.
  induction l as [|a l IH]; intros db u total Hnd Hin Hl.
  - by apply elem_of_nil in Hin.
  - apply NoDup_cons in Hnd as [Ha Hnd]. cbn [foldl].
    destruct (decide (u = a)) as [->|Hne].
    + destruct (foldl_turn_step_frame day l (turn_step day db a)) as (_ & _ & Hu & _).
      destruct (Hu a Ha) as [-> Hw]. by rewrite Hw.
    + apply elem_of_cons in Hin as [?|Hin]; [done|].
      destruct (turn_step_frame day a db) as (Hacc & _ & _ & Hl' & Hw').
      assert (Hl1 : lifetime (turn_step day db a) u = Some total)
        by (by rewrite Hl').
      destruct (IH (turn_step day db a) u total Hnd Hin Hl1) as [-> ->].
      destruct (turn_step_self day u (turn_step day db a) total Hl1) as [-> ->].
      destruct (turn_step_self day u db total Hl) as [-> ->].
      unfold select_is_connected. rewrite Hacc.
      rewrite !Hw' by congruence. done.
Qed.

Lemma for_paid_users_is_fold E day l : forall s,
  no_faults E →
  (∀ k, date_isoformat (utcnow E k) = day) →
  str_truthy (sql_last_updated E day) = false →
  disk s = txn s →
  (∀ u, u ∈ l → u ∈ map u_id (users (txn s))) →
  let r := (for_paid_users E l s).1 in
  let s' := (for_paid_users E l s).2 in
  r = Ret tt ∧
  txn s' = foldl (turn_step day) (txn s) l ∧
  disk s' = txn s' ∧
  sleeps s' = sleeps s ∧
  ∃ new, log s' = (new ++ log s)%list ∧ only_blocks new.
Proof.
  induction l as [|user rest IH]; intros s Hnf Hday Hnull Hdt Hin.
  { repeat split; try done. exists []. split; [done|].
    intros r Hr. by apply elem_of_nil in Hr. }
  cbn [for_paid_users foldl]. rewrite run_query_bind, Hnf.
  assert (Hrest : forall s1 new1,
            txn s1 = turn_step day (txn s) user → disk s1 = txn s1 →
            sleeps s1 = sleeps s → log s1 = (new1 ++ log s)%list →
            only_blocks new1 →
            let r := (for_paid_users E rest s1).1 in
            let s' := (for_paid_users E rest s1).2 in
            r = Ret tt ∧
            txn s' = foldl (turn_step day) (turn_step day (txn s) user) rest ∧
            disk s' = txn s' ∧ sleeps s' = sleeps s ∧
            ∃ new, log s' = (new ++ log s)%list ∧ only_blocks new).
  { intros s1 new1 Ht1 Hd1 Hs1 Hl1 Hb1.
    destruct (IH s1 Hnf Hday Hnull Hd1) as (Hr & Ht & Hd & Hs & new & Hl & Hb).
    { intros u Hu. rewrite Ht1.
      destruct (turn_step_frame day user (txn s)) as (_ & _ & -> & _).
      apply Hin. by right. }
    rewrite <- Ht1, <- Hs1. repeat split; try done.
    exists (new ++ new1)%list. split; [by rewrite Hl, Hl1, app_assoc|].
    intros r Hr'. apply elem_of_app in Hr' as [?|?]; [by apply Hb|by apply Hb1]. }
  assert (Hnil : only_blocks []) by (intros r Hr; by apply elem_of_nil in Hr).
  unfold turn_step in *. cbn [txn tick_store].
  destruct (head (select_is_connected (txn s) user)) as [v|];
    [destruct (truthy v)|].
  - rewrite run_bind.
    destruct (call_is_record_block E (tick_store s) user Hnf)
      as (Hr & Ht & Hd & _ & Hs & Hlog).
    { unfold today_of. by rewrite Hday. }
    { apply select_user_is_Some, Hin. left. }
    unfold daily_count_of, today_of in Ht, Hd. rewrite Hday in Ht, Hd.
    cbn [txn disk tick_store sleeps log] in *.
    destruct (auto_block_accounts E user (tick_store s)) as [r1 s1].
    cbn [fst snd] in *. subst r1.
    assert (Hd1 : disk s1 = txn s1).
    { rewrite Hd. destruct (_ <? 100) eqn:Hlt; [done|].
      rewrite Ht, Hdt. unfold record_block.
      destruct (select_user (txn s) user); [|done]. by rewrite Hlt. }
    destruct Hlog as [Hlog|(t & d & Hlog)].
    + apply (Hrest s1 []); done.
    + apply (Hrest s1 [Info_auto_blocked user t d]); try done.
      intros r Hr. apply list_elem_of_singleton in Hr. eauto.
  - rewrite run_ret_bind. by apply (Hrest (tick_store s) []).
  - rewrite run_ret_bind. by apply (Hrest (tick_store s) []).
Qed.

Lemma select_paid_users_known db u :
  u ∈ select_paid_users db → u ∈ map u_id (users db).
Proof.
  unfold select_paid_users. intros H.
  apply list_elem_of_In, in_map_iff in H as (r & <- & Hr).
  apply list_elem_of_In, elem_of_index_order, list_elem_of_filter
    in Hr as [_ Hr].
  apply list_elem_of_In, in_map. by apply list_elem_of_In.
Qed.

Lemma NoDup_map_filter {A B} (f : A → B) (P : A → Prop)
    `{∀ x, Decision (P x)} (l : list A) :
  NoDup (map f l) → NoDup (map f (filter P l)).
Proof.
  induction l as [|a l IH]; intros Hnd; [apply NoDup_nil_2|].
  cbn [map] in Hnd. apply NoDup_cons in Hnd as [Ha Hl].
  assert (Hsub : ∀ x, x ∈ map f (filter P l) → x ∈ map f l).
  { intros x Hx. apply list_elem_of_In, in_map_iff in Hx as (r & <- & Hr).
    apply list_elem_of_In, list_elem_of_filter in Hr as [_ Hr].
    apply list_elem_of_In, in_map. by apply list_elem_of_In. }
  rewrite filter_cons. destruct (decide (P a)); [|by apply IH].
  cbn [map]. apply NoDup_cons. split; [|by apply IH]. intros Hin. by apply Ha, Hsub.
Qed.

Lemma select_paid_users_NoDup db :
  NoDup (map u_id (users db)) → NoDup (select_paid_users db).
Proof.
  intros Hnd. unfold select_paid_users.
  rewrite (Permutation_map u_id (index_order_Permutation email _)).
  by apply NoDup_map_filter.
Qed.

(** A turn that meets no store error and reads no last update is the fold
    of [turn_step] over the paying users in the order of the query. *)
Lemma start_auto_blocking_pass_is_fold E day s :
  no_faults E →
  (∀ k, date_isoformat (utcnow E k) = day) →
  str_truthy (sql_last_updated E day) = false →
  let r := (start_auto_blocking_pass E s).1 in
  let s' := (start_auto_blocking_pass E s).2 in
  r = Ret tt ∧
  disk s' = foldl (turn_step day) (disk s) (select_paid_users (disk s)) ∧
  txn s' = disk s' ∧
  sleeps s' = S (sleeps s) ∧
  ∃ new, log s' = (new ++ log s)%list ∧ only_blocks new.
Proof.
  intros Hnf Hday Hnull.
  unfold start_auto_blocking_pass. rewrite run_bind. unfold try_except.
  rewrite run_connect_bind, Hnf, run_query_bind, Hnf, run_bind.
  cbn [txn tick_store].
  match goal with
  | |- context [for_paid_users E ?l ?s1] =>
      destruct (for_paid_users_is_fold E day l s1 Hnf Hday Hnull)
        as (Hr & Ht & Hd & Hs & new & Hl & Hb);
      [done | intros u Hu; by apply select_paid_users_known |];
      destruct (for_paid_users E l s1) as [r2 s2]
  end.
  cbn [fst snd txn disk sleeps log tick_store] in *. subst r2.
  cbn. rewrite Hd, Ht, Hs. repeat split; try done. by exists new.
Qed.

(** A user the filter does not select is left alone by the turn, whatever
    the clock and the store do. *)
Lemma start_auto_blocking_pass_unselected E s u :
  selected (disk s) u = false →
  let s' := (start_auto_blocking_pass E s).2 in
  lifetime (disk s') u = lifetime (disk s) u ∧
  ∀ d, window (disk s') u d = window (disk s) u d.
Proof.
  intros Hsel s'. subst s'.
  enough (accounts (disk (start_auto_blocking_pass E s).2) = accounts (disk s) ∧
          lifetime (disk (start_auto_blocking_pass E s).2) u = lifetime (disk s) u ∧
          ∀ d, window (disk (start_auto_blocking_pass E s).2) u d
               = window (disk s) u d) by tauto.
  apply (start_auto_blocking_pass_invariant E
           (fun db => accounts db = accounts (disk s) ∧
                      lifetime db u = lifetime (disk s) u ∧
                      ∀ d, window db u d = window (disk s) u d)); [|done].
  intros user s0 v Hin Hv Htr (Ha & Hl & Hw).
  destruct (auto_block_accounts_frame E user s0) as (Ha' & _ & _ & _ & Hl' & Hw').
  cbv zeta in *.
  destruct (decide (user = u)) as [->|Hne].
  - exfalso. unfold selected in Hsel.
    rewrite bool_decide_eq_true_2 in Hsel by done.
    unfold select_is_connected in Hv, Hsel. rewrite Ha in Hv.
    rewrite Hv, Htr in Hsel. done.
  - rewrite Ha', Hl' by done. repeat split; try done.
    intros d. rewrite Hw' by congruence. apply Hw.
Qed.

(** Window counts in [0,100] stay there, for every key. *)
Lemma auto_block_accounts_windows_in_range E user_id s :
  (∀ u d v, window (txn s) u d = Some v → 0 <= v <= 100) →
  ∀ u d v, window (txn (auto_block_accounts E user_id s).2) u d = Some v →
           0 <= v <= 100.
Proof.
  intros Hin u d v.
  destruct (auto_block_accounts_frame E user_id s) as (_ & _ & _ & _ & _ & Hw).
  cbv zeta in Hw.
  destruct (decide ((u, d) = (user_id, today_of E s))) as [Heq|Hne];
    [|rewrite Hw by done; apply Hin].
  injection Heq as -> ->. clear Hw.
  assert (Hc : 0 <= default 0 (window (txn s) user_id (today_of E s)) <= 100).
  { destruct (window (txn s) user_id (today_of E s)) as [c|] eqn:Hc; [|done].
    rewrite default_Some. by apply (Hin user_id (today_of E s)). }
  unfold today_of in *. revert Hc.
  exec_auto_block E user_id s r s'; reads; intros Hc;
    set (c := default 0 (window (txn s) user_id _)) in *;
    rewrite ?window_update, ?window_replace_eq;
    try (by apply Hin).
  all: intros [= <-]; apply Z.ltb_lt in Heqb1 || idtac; try lia.
Qed.

(** No call deletes a row of [daily_blocked_counts]. *)
Lemma auto_block_accounts_keeps_rows E user_id s u d :
  is_Some (window (txn s) u d) →
  is_Some (window (txn (auto_block_accounts E user_id s).2) u d).
Proof.
  intros Hsome.
  destruct (auto_block_accounts_frame E user_id s) as (_ & _ & _ & _ & _ & Hw).
  cbv zeta in Hw.
  destruct (decide ((u, d) = (user_id, today_of E s))) as [Heq|Hne];
    [|by rewrite Hw].
  injection Heq as -> ->. clear Hw. unfold today_of in *.
  exec_auto_block E user_id s r s';
    rewrite ?window_update, ?window_replace_eq; eauto.
Qed.

(** ** Exceptions *)

(** What a call can raise and log: nothing, the report of the block, or
    the store error; a TypeError only for a user without a row, a
    ValueError only when a last update is read. *)
Lemma auto_block_accounts_outcome E user_id s :
  let r := (auto_block_accounts E user_id s).1 in
  let s' := (auto_block_accounts E user_id s).2 in
  (r = Ret tt ∨
   (r = Raise TypeError ∧ select_user (txn s) user_id = None) ∨
   (r = Raise ValueError ∧
    str_truthy (sql_last_updated E (today_of E s)) = true)) ∧
  (log s' = log s ∨
   log s' = Error_database_in_auto_block_accounts :: log s ∨
   ∃ t d, log s' = Info_auto_blocked user_id t d :: log s).
Proof.
  unfold today_of.
  exec_auto_block E user_id s r s'; reads.
  all: split; [|by eauto].
  all: try by left.
  all: try (right; left; done).
  right. right. split; [done|].
  match goal with
  | H : str_truthy (match ?w with Some _ => _ | None => None end) = true |- _ =>
      by destruct w
  end.
Qed.

(** A call for a user without a row raises TypeError out of the function
    and changes nothing. *)
Lemma auto_block_accounts_unknown_user E user_id s :
  store_fault E (store_ops s) = false →
  select_user (txn s) user_id = None →
  auto_block_accounts E user_id s = (Raise TypeError, tick_store s).
Proof.
  intros Hf Hu. unfold auto_block_accounts, try_except.
  rewrite run_query_bind, Hf, run_subscript_bind, Hu. done.
Qed.

Lemma for_paid_users_raises E (ok : exn → Prop) l : forall s,
  ok Sqlite3_Error →
  (∀ user s0, user ∈ l →
     map u_id (users (txn s0)) = map u_id (users (txn s)) →
     ∀ e, (auto_block_accounts E user s0).1 = Raise e → ok e) →
  let r := (for_paid_users E l s).1 in
  let s' := (for_paid_users E l s).2 in
  (∀ e, r = Raise e → ok e) ∧
  ∃ new, log s' = (new ++ log s)%list ∧
         ∀ e, Error_in_auto_blocking_task e ∉ new.
Proof.
  induction l as [|user rest IH]; intros s Hsql Hcall.
  { split; [done|]. exists []. split; [done|]. intros e He. by apply elem_of_nil in He. }
  assert (Hnil : ∀ e, Error_in_auto_blocking_task e ∉ []).
  { intros e He. by apply elem_of_nil in He. }
  assert (Hrest : forall s1 new1,
            map u_id (users (txn s1)) = map u_id (users (txn s)) →
            log s1 = (new1 ++ log s)%list →
            (∀ e, Error_in_auto_blocking_task e ∉ new1) →
            (∀ e, (for_paid_users E rest s1).1 = Raise e → ok e) ∧
            ∃ new, log (for_paid_users E rest s1).2 = (new ++ log s)%list ∧
                   ∀ e, Error_in_auto_blocking_task e ∉ new).
  { intros s1 new1 Hi Hl Hn.
    destruct (IH s1 Hsql) as (Hr & new & Hl' & Hn').
    { intros u s0 Hu Hi0. apply Hcall; [by right|congruence]. }
    split; [done|]. exists (new ++ new1)%list.
    split; [by rewrite Hl', Hl, app_assoc|].
    intros e He. apply elem_of_app in He as [He|He]; [by apply (Hn' e)|by apply (Hn e)]. }
  cbn [for_paid_users]. rewrite run_query_bind.
  destruct (store_fault E (store_ops s)).
  { split; [by intros e [= <-]|]. by exists []. }
  cbn [txn tick_store].
  destruct (head (select_is_connected (txn s) user)) as [v|];
    [destruct (truthy v)|]; [|rewrite run_ret_bind; by apply (Hrest _ [])..].
  rewrite run_bind.
  pose proof (Hcall user (tick_store s) ltac:(left) eq_refl) as Hraise.
  pose proof (auto_block_accounts_outcome E user (tick_store s)) as [_ Hlog].
  destruct (auto_block_accounts_frame E user (tick_store s))
    as (_ & _ & _ & Hi & _).
  apply identity_ids in Hi as [Hi _].
  cbv zeta in *. cbn [txn log tick_store] in *.
  destruct (auto_block_accounts E user (tick_store s)) as [[[]|e] s1];
    cbn [fst snd] in *.
  - destruct Hlog as [Hlog|[Hlog|(t & d & Hlog)]].
    + by apply (Hrest s1 []).
    + apply (Hrest s1 [Error_database_in_auto_block_accounts]); [done..|].
      intros e He. by apply list_elem_of_singleton in He.
    + apply (Hrest s1 [Info_auto_blocked user t d]); [done..|].
      intros e He. by apply list_elem_of_singleton in He.
  - split; [intros e' [= <-]; by apply Hraise|].
    destruct Hlog as [Hlog|[Hlog|(t & d & Hlog)]].
    + by exists [].
    + exists [Error_database_in_auto_block_accounts]. split; [done|].
      intros e0 He. by apply list_elem_of_singleton in He.
    + exists [Info_auto_blocked user t d]. split; [done|].
      intros e0 He. by apply list_elem_of_singleton in He.
Qed.

Lemma start_auto_blocking_pass_raises E (ok : exn → Prop) s :
  ok Sqlite3_Error →
  (∀ user s0, user ∈ select_paid_users (disk s) →
     map u_id (users (txn s0)) = map u_id (users (disk s)) →
     ∀ e, (auto_block_accounts E user s0).1 = Raise e → ok e) →
  let s' := (start_auto_blocking_pass E s).2 in
  ∃ new, log s' = (new ++ log s)%list ∧
         ∀ e, Error_in_auto_blocking_task e ∈ new → ok e.
Proof.
  intros Hsql Hcall.
  unfold start_auto_blocking_pass. rewrite run_bind. unfold try_except.
  rewrite run_connect_bind.
  assert (Hone : ∀ e l, ok e →
            ∃ new, Error_in_auto_blocking_task e :: l = (new ++ l)%list ∧
                   ∀ e', Error_in_auto_blocking_task e' ∈ new → ok e').
  { intros e l He. exists [Error_in_auto_blocking_task e]. split; [done|].
    intros e' He'. apply list_elem_of_singleton in He'. by injection He' as ->. }
  destruct (store_fault E (store_ops s)); [by apply Hone|].
  rewrite run_query_bind. cbn [store_ops txn].
  destruct (store_fault E (S (store_ops s))); [by apply Hone|].
  rewrite run_bind.
  match goal with
  | |- context [for_paid_users E ?l ?s1] =>
      destruct (for_paid_users_raises E ok l s1 Hsql Hcall)
        as (Hr & new & Hl & Hn);
      destruct (for_paid_users E l s1) as [[[]|e] s2]
  end; cbn [fst snd log tick_store] in *.
  - exists new. split; [done|]. intros e He. by apply Hn in He.
  - exists (Error_in_auto_blocking_task e :: new). cbn. split; [by rewrite Hl|].
    intros e' He'. apply elem_of_cons in He' as [[= ->]|He']; [by apply Hr|].
    by apply Hn in He'.
Qed.

(** ** The request handlers *)

Lemma connect_instagram_idempotent u db :
  connect_instagram u (connect_instagram u db) = connect_instagram u db.
Proof.
  unfold connect_instagram. cbn [users users_seq accounts payment_history
                                  daily_blocked_counts].
  f_equal. rewrite filter_app, filter_cons_False, filter_nil, app_nil_r.
  - f_equal. induction (accounts db) as [|a l IH]; [done|].
    rewrite filter_cons. destruct (decide _) as [Hp|Hp]; [|done].
    by rewrite filter_cons_True, IH.
  - cbn. intros H. by apply H.
Qed.

Lemma connect_instagram_connected u db :
  dashboard_instagram_connected (connect_instagram u db) u = true ∧
  Some 1 ∈ select_is_connected (connect_instagram u db) u.
Proof.
  assert (Hin : Some 1 ∈ select_is_connected (connect_instagram u db) u).
  { unfold select_is_connected, connect_instagram. cbn [accounts].
    apply list_elem_of_In, in_map_iff. exists (mk_account u "@instagram_acc" (Some 1)).
    split; [done|].
    apply list_elem_of_In, elem_of_index_order, list_elem_of_filter.
    split; [done|]. apply elem_of_app. right. left. }
  split; [|done]. unfold dashboard_instagram_connected.
  apply existsb_exists. exists (Some 1). split; [by apply list_elem_of_In|done].
Qed.

Lemma connect_instagram_other_users u db u' :
  u' ≠ u →
  select_is_connected (connect_instagram u db) u' = select_is_connected db u'.
Proof.
  intros Hne. unfold select_is_connected, connect_instagram. cbn [accounts].
  do 2 f_equal.
  rewrite filter_app, filter_cons_False, filter_nil, app_nil_r by done.
  induction (accounts db) as [|a l IH]; [done|].
  rewrite (filter_cons _ a l). destruct (decide _) as [Hp|Hp].
  - rewrite !filter_cons. destruct (decide (a_user_id a = u')); by rewrite IH.
  - rewrite IH. rewrite filter_cons_False; [done|].
    intros Ha. apply Hp. intros [Hu _]. congruence.
Qed.

Lemma existsb_email_snoc e l r :
  email r = e →
  existsb (fun r => String.eqb (email r) e) (l ++ [r]) = true.
Proof.
  intros <-. rewrite existsb_app. cbn. rewrite String.eqb_refl.
  by rewrite orb_true_r.
Qed.

Lemma signup_idempotent e h h' db :
  signup e h' (signup e h db) = signup e h db.
Proof.
  unfold signup.
  destruct (existsb _ (users db)) eqn:Htaken; [by rewrite Htaken|].
  cbn [users]. by rewrite existsb_email_snoc.
Qed.

Lemma select_user_set_customer c user_id db u :
  select_user
    (set_users (map (fun r => if u_id r =? user_id
       then mk_user (u_id r) (email r) (password r) (Some c) (blocked_count r)
       else r)) db) u
  = (fun r => if u_id r =? user_id
       then mk_user (u_id r) (email r) (password r) (Some c) (blocked_count r)
       else r) <$> select_user db u.
Proof.
  unfold select_user, set_users. cbn [users].
  induction (users db) as [|r l IH]; [done|]. cbn [map find].
  destruct (u_id r =? user_id) eqn:Hr; cbn [u_id];
    destruct (u_id r =? u) eqn:Hu; try done; cbn; by rewrite Hr.
Qed.

Lemma create_subscription_idempotent u c c' db :
  c ≠ "" →
  create_subscription u c' (create_subscription u c db)
  = create_subscription u c db.
Proof.
  intros Hc.
  destruct (select_user db u) as [r|] eqn:Hr;
    [|unfold create_subscription; by rewrite Hr, Hr].
  set (db' := set_users (map (fun r => if u_id r =? u
           then mk_user (u_id r) (email r) (password r) (Some c) (blocked_count r)
           else r)) db).
  assert (Hset : create_subscription u c' db' = db').
  { unfold create_subscription, db'. rewrite select_user_set_customer, Hr. cbn.
    apply select_user_id in Hr. apply Z.eqb_eq in Hr. rewrite Hr.
    cbn [stripe_customer_id]. by destruct c. }
  destruct (stripe_customer_id r) as [[|a c0]|] eqn:Hcust.
  - assert (create_subscription u c db = db') as ->; [|done].
    unfold create_subscription. by rewrite Hr, Hcust.
  - assert (Hval : forall c1, create_subscription u c1 db = db).
    { intros c1. unfold create_subscription. by rewrite Hr, Hcust. }
    by rewrite !Hval.
  - assert (create_subscription u c db = db') as ->; [|done].
    unfold create_subscription. by rewrite Hr, Hcust.
Qed.

Lemma create_subscription_sets_customer u c db r :
  select_user db u = Some r →
  stripe_customer_id r = None ∨ stripe_customer_id r = Some "" →
  select_user (create_subscription u c db) u
  = Some (mk_user (u_id r) (email r) (password r) (Some c) (blocked_count r)).
Proof.
  intros Hr Hc. unfold create_subscription. rewrite Hr.
  assert (Hu : (u_id r =? u) = true)
    by (apply select_user_id in Hr; by apply Z.eqb_eq).
  destruct Hc as [-> | ->]; rewrite select_user_set_customer, Hr; cbn; by rewrite Hu.
Qed.

Lemma payment_history_handle r db :
  payment_history db `prefix_of` payment_history (handle r db).
Proof.
  destruct r; cbn [handle]; try done.
  - unfold signup. by destruct (existsb _ _).
  - unfold confirm_payment. destruct (select_user db user_id); [|done].
    destruct succeeded; [|done]. cbn. by apply prefix_app_r.
  - unfold create_subscription. destruct (select_user db user_id) as [r|]; [|done].
    by destruct (stripe_customer_id r) as [[|]|].
Qed.

Lemma payment_history_system_step E s ev :
  payment_history (disk s) `prefix_of` payment_history (disk (system_step E s ev)).
Proof.
  destruct ev as [r|]; cbn [system_step disk]; [apply payment_history_handle|].
  destruct (start_auto_blocking_pass_frame E s) as (_ & -> & _). done.
Qed.

Lemma has_payment_prefix db db' u :
  payment_history db `prefix_of` payment_history db' →
  has_payment db u = true → has_payment db' u = true.
Proof.
  intros [k Hk] H. unfold has_payment in *. rewrite Hk, existsb_app, H. done.
Qed.

(** ** Eligibility on the states the application reaches *)

Lemma selected_complete_api db u :
  api_state db →
  has_payment db u = true →
  (∃ a, a ∈ accounts db ∧ a_user_id a = u ∧ truthy (is_connected a) = true) →
  selected db u = true.
Proof.
  intros Hdb Hpay (a & Ha & Hu & _). unfold selected.
  apply andb_true_iff. split.
  - apply bool_decide_eq_true. unfold select_paid_users.
    pose proof Hpay as Hp. unfold has_payment in Hp.
    apply existsb_exists in Hp as (p & Hp & Hpu). apply Z.eqb_eq in Hpu.
    apply list_elem_of_In in Hp.
    pose proof (payments_of_users db Hdb p Hp) as Hin. rewrite Hpu in Hin.
    apply list_elem_of_In, in_map_iff in Hin as (r & Hr & Hrin).
    apply list_elem_of_In, in_map_iff. exists r. split; [done|].
    apply list_elem_of_In, elem_of_index_order, list_elem_of_filter.
    split; [|by apply list_elem_of_In].
    rewrite Hr. by apply Is_true_true.
  - unfold select_is_connected.
    destruct (index_order username
                (filter (λ a0, a_user_id a0 = u) (accounts db)))
      as [|b l] eqn:Hf.
    + assert (Hin : a ∈ filter (λ a0, a_user_id a0 = u) (accounts db))
        by (by apply list_elem_of_filter).
      apply (elem_of_index_order username) in Hin.
      rewrite Hf in Hin. by apply elem_of_nil in Hin.
    + assert (Hb : b ∈ filter (λ a0, a_user_id a0 = u) (accounts db))
        by (apply (elem_of_index_order username); rewrite Hf; left).
      apply list_elem_of_filter in Hb as [_ Hb].
      destruct (accounts_connected db Hdb b Hb) as [_ Hc]. cbn. by rewrite Hc.
Qed.

Lemma connected_row_handle r db u :
  (∃ a, a ∈ accounts db ∧ a_user_id a = u ∧ truthy (is_connected a) = true) →
  ∃ a, a ∈ accounts (handle r db) ∧ a_user_id a = u ∧
       truthy (is_connected a) = true.
Proof.
  intros (a & Ha & Hu & Ht).
  destruct r; cbn [handle]; try by eauto.
  - unfold signup. destruct (existsb _ _); by eauto.
  - cbn [connect_instagram accounts].
    destruct (decide (user_id = u)) as [->|Hne].
    + exists (mk_account u "@instagram_acc" (Some 1)). split; [|done].
      apply elem_of_app. right. left.
    + exists a. split; [|done]. apply elem_of_app. left.
      apply list_elem_of_filter. split; [|done]. intros [? _]. congruence.
  - unfold confirm_payment. destruct (select_user db user_id); [|by eauto].
    destruct succeeded; by eauto.
  - unfold create_subscription. destruct (select_user db user_id) as [r|]; [|by eauto].
    destruct (stripe_customer_id r) as [[|]|]; by eauto.
Qed.

Lemma selected_stays E s ev u :
  api_state (disk s) →
  selected (disk s) u = true →
  selected (disk (system_step E s ev)) u = true.
Proof.
  intros Hdb Hsel. apply selected_sound in Hsel as [Hpay Hconn].
  apply selected_complete_api.
  - by apply api_state_system_step.
  - eapply has_payment_prefix; [apply payment_history_system_step|done].
  - destruct ev as [r|]; cbn [system_step disk]; [by apply connected_row_handle|].
    destruct (start_auto_blocking_pass_frame E s) as (-> & _). done.
Qed.

(** ** Along the runs of the application *)

Lemma window_handle r db u d : window (handle r db) u d = window db u d.
Proof.
  destruct r; cbn [handle]; try done.
  - unfold signup. by destruct (existsb _ _).
  - unfold confirm_payment. destruct (select_user db user_id); [|done].
    by destruct succeeded.
  - unfold create_subscription. destruct (select_user db user_id) as [r|]; [|done].
    by destruct (stripe_customer_id r) as [[|]|].
Qed.

Lemma system_step_windows_in_range E s ev :
  (∀ u d v, window (disk s) u d = Some v → 0 <= v <= 100) →
  ∀ u d v, window (disk (system_step E s ev)) u d = Some v → 0 <= v <= 100.
Proof.
  intros Hs. destruct ev as [r|]; cbn [system_step disk].
  - intros u d v. rewrite window_handle. apply Hs.
  - apply (start_auto_blocking_pass_invariant E
             (λ db, ∀ u d v, window db u d = Some v → 0 <= v <= 100)); [|done].
    intros user s0 _ _ _ _ H0. by apply auto_block_accounts_windows_in_range.
Qed.

Lemma run_windows_in_range E evs : forall s,
  (∀ u d v, window (disk s) u d = Some v → 0 <= v <= 100) →
  ∀ u d v, window (disk (run E evs s)) u d = Some v → 0 <= v <= 100.
Proof.
  induction evs as [|ev evs IH]; intros s Hs; [done|].
  cbn [run foldl]. apply IH. by apply system_step_windows_in_range.
Qed.

Lemma system_step_keeps_rows E s ev u d :
  is_Some (window (disk s) u d) →
  is_Some (window (disk (system_step E s ev)) u d).
Proof.
  intros Hs. destruct ev as [r|]; cbn [system_step disk].
  - by rewrite window_handle.
  - apply (start_auto_blocking_pass_invariant E
             (λ db, is_Some (window db u d))); [|done].
    intros user s0 _ _ _ _ H0. by apply auto_block_accounts_keeps_rows.
Qed.

Lemma run_keeps_rows E evs u d : forall s,
  is_Some (window (disk s) u d) →
  is_Some (window (disk (run E evs s)) u d).
Proof.
  induction evs as [|ev evs IH]; intros s Hs; [done|].
  cbn [run foldl]. apply IH. by apply system_step_keeps_rows.
Qed.

Lemma run_app E evs evs' s :
  run E (evs ++ evs')%list s = run E evs' (run E evs s).
Proof. unfold run. by rewrite foldl_app. Qed.

Lemma run_payment_history E evs : forall s,
  payment_history (disk s) `prefix_of` payment_history (disk (run E evs s)).
Proof.
  induction evs as [|ev evs IH]; intros s; [done|].
  cbn [run foldl]. etrans; [apply payment_history_system_step|apply IH].
Qed.

Lemma run_selected_stays E evs u : forall s,
  api_state (disk s) →
  selected (disk s) u = true →
  selected (disk (run E evs s)) u = true.
Proof.
  induction evs as [|ev evs IH]; intros s Hdb Hsel; [done|].
  cbn [run foldl]. apply IH; [by apply api_state_system_step|by apply selected_stays].
Qed.

(** ** The fault-free turn, user by user *)

Lemma fault_free_turn_per_user E day s u total :
  no_faults E →
  (∀ k, date_isoformat (utcnow E k) = day) →
  str_truthy (sql_last_updated E day) = false →
  NoDup (map u_id (users (disk s))) →
  lifetime (disk s) u = Some total →
  let s' := (start_auto_blocking_pass E s).2 in
  let c := default 0 (window (disk s) u day) in
  let hit := selected (disk s) u && (c <? 100) in
  lifetime (disk s') u = Some (if hit then total + 1 else total) ∧
  window (disk s') u day = (if hit then Some (c + 1) else window (disk s) u day) ∧
  ∀ d, d ≠ day → window (disk s') u d = window (disk s) u d.
Proof.
  intros Hnf Hday Hnull Hnd Hl s' c hit.
  destruct (start_auto_blocking_pass_is_fold E day s Hnf Hday Hnull)
    as (_ & Hdisk & _).
  fold s' in Hdisk. rewrite Hdisk.
  destruct (foldl_turn_step_frame day (select_paid_users (disk s)) (disk s))
    as (_ & _ & Hout & Hdays).
  split; [|split; [|by intros d Hd; apply Hdays]].
  all: destruct (decide (u ∈ select_paid_users (disk s))) as [Hin|Hnin].
  - destruct (foldl_turn_step_member day _ (disk s) u total
                (select_paid_users_NoDup _ Hnd) Hin Hl) as [-> _].
    destruct (turn_step_self day u (disk s) total Hl) as [-> _].
    subst hit c. unfold selected. by rewrite bool_decide_eq_true_2.
  - destruct (Hout u Hnin) as [-> _]. subst hit. unfold selected.
    by rewrite bool_decide_eq_false_2, Hl.
  - destruct (foldl_turn_step_member day _ (disk s) u total
                (select_paid_users_NoDup _ Hnd) Hin Hl) as [_ ->].
    destruct (turn_step_self day u (disk s) total Hl) as [_ ->].
    subst hit c. unfold selected. by rewrite bool_decide_eq_true_2.
  - destruct (Hout u Hnin) as [_ ->]. subst hit. unfold selected.
    by rewrite bool_decide_eq_false_2.
Qed.

(** ** What a turn can fail with *)

Lemma deployed_call_never_raises render parse clock fault user s :
  let E := Scenario.sqlite_env render parse clock fault in
  (∀ k, valid_datetime (clock k)) →
  user ∈ map u_id (users (txn s)) →
  ∀ e, (auto_block_accounts E user s).1 ≠ Raise e.
Proof.
  intros E Hv Hin e He.
  destruct (auto_block_accounts_outcome E user s) as [[Hr|[[Hr Hn]|[Hr Ht]]] _].
  - rewrite Hr in He. done.
  - apply select_user_is_Some in Hin. rewrite Hn in Hin. by destruct Hin.
  - unfold today_of, E in Ht. cbn [sql_last_updated Scenario.sqlite_env] in Ht.
    rewrite sqlite_last_updated_of_iso_date in Ht by apply Hv. done.
Qed.

(** * Further properties of the scheduler and of the handlers *)

(** X1.  One call of [auto_block_accounts], whatever the clock, the stored
    timestamps and the store failures, changes in its connection's view of
    the database nothing but the lifetime counter of its own user and the
    daily row of that user for the current date: accounts, payments, the
    id sequence and every user's id, email, password and customer id stay
    as they are, and so do the counters of every other user and the rows
    of every other day. *)
Theorem auto_block_accounts_touches_one_user (E : Env) (user_id : Z) (s : state) :
  let s' := (auto_block_accounts E user_id s).2 in
  accounts (txn s') = accounts (txn s) ∧
  payment_history (txn s') = payment_history (txn s) ∧
  users_seq (txn s') = users_seq (txn s) ∧
  map identity (users (txn s')) = map identity (users (txn s)) ∧
  (∀ u, u ≠ user_id → lifetime (txn s') u = lifetime (txn s) u) ∧
  (∀ u d, (u, d) ≠ (user_id, today_of E s) →
     window (txn s') u d = window (txn s) u d).
Proof. apply auto_block_accounts_frame. Qed.

(** X2.  [n] calls in a row for one user on one calendar day, with no store
    failure and no stored timestamp, bring the daily count from [c] to
    [min(100, c + n)] and add to the lifetime counter exactly what the
    daily count gained; what was committed before stays committed. *)
Theorem same_day_calls_count_up_to_the_cap
    (E : Env) (user_id : Z) (day : string) (n : nat) (s : state) (total : Z) :
  no_faults E →
  (∀ k : nat, date_isoformat (utcnow E k) = day) →
  str_truthy (sql_last_updated E day) = false →
  lifetime (txn s) user_id = Some total →
  default 0 (window (txn s) user_id day) <= 100 →
  disk s = txn s →
  let c := default 0 (window (txn s) user_id day) in
  let s' := repeat_calls E user_id n s in
  default 0 (window (disk s') user_id day) = Z.min 100 (c + Z.of_nat n) ∧
  lifetime (disk s') user_id = Some (total + (Z.min 100 (c + Z.of_nat n) - c)).
Proof.
  intros Hnf Hday Hnull Hl Hc Hd c s'.
  destruct (repeat_calls_counts E user_id day n s total Hnf Hday Hnull Hl Hc)
    as (Hw & Hl' & Hdisk).
  fold s' in Hw, Hl', Hdisk. rewrite (Hdisk Hd). done.
Qed.

Lemma same_day_calls_count_up_to_the_cap_witness :
  let E := Scenario.sqlite_env Scenario.any_render Scenario.strptime_canonical
             (fun _ => Scenario.oct12 9 0 0) Scenario.no_fault in
  let s := Scenario.at_rest (Scenario.one_user 7 (Some 95)) in
  let c := default 0 (window (txn s) 1 "2026-10-12") in
  let s' := repeat_calls E 1 10 s in
  default 0 (window (disk s') 1 "2026-10-12") = Z.min 100 (c + Z.of_nat 10) ∧
  lifetime (disk s') 1 = Some (7 + (Z.min 100 (c + Z.of_nat 10) - c)).
Proof.
  apply (same_day_calls_count_up_to_the_cap
           (Scenario.sqlite_env Scenario.any_render Scenario.strptime_canonical
              (fun _ => Scenario.oct12 9 0 0) Scenario.no_fault)
           1 "2026-10-12" 10 (Scenario.at_rest (Scenario.one_user 7 (Some 95))) 7).
  - intros k. reflexivity.
  - intros k. vm_compute. reflexivity.
  - vm_compute. reflexivity.
  - vm_compute. reflexivity.
  - vm_compute. intros H. discriminate H.
  - reflexivity.
Defined.

(** X3.  A turn of the background task without store failure on a day
    without stored timestamps, over users with distinct ids: every user
    that is selected and whose daily count is below 100 gains exactly 1 on
    both counters, every other user keeps both, and no row of another day
    changes. *)
Theorem fault_free_turn_counts_each_selected_user_once
    (E : Env) (day : string) (s : state) (u total : Z) :
  no_faults E →
  (∀ k : nat, date_isoformat (utcnow E k) = day) →
  str_truthy (sql_last_updated E day) = false →
  NoDup (map u_id (users (disk s))) →
  lifetime (disk s) u = Some total →
  let s' := (start_auto_blocking_pass E s).2 in
  let c := default 0 (window (disk s) u day) in
  let hit := selected (disk s) u && (c <? 100) in
  lifetime (disk s') u = Some (if hit then total + 1 else total) ∧
  window (disk s') u day = (if hit then Some (c + 1) else window (disk s) u day) ∧
  ∀ d, d ≠ day → window (disk s') u d = window (disk s) u d.
Proof. apply fault_free_turn_per_user. Qed.

Lemma fault_free_turn_counts_each_selected_user_once_witness :
  let E := Scenario.sqlite_env Scenario.any_render Scenario.strptime_canonical
             (fun _ => Scenario.oct12 9 0 0) Scenario.no_fault in
  let s := Scenario.at_rest Scenario.two_users in
  let s' := (start_auto_blocking_pass E s).2 in
  let c := default 0 (window (disk s) 2 "2026-10-12") in
  let hit := selected (disk s) 2 && (c <? 100) in
  lifetime (disk s') 2 = Some (if hit then 0 + 1 else 0) ∧
  window (disk s') 2 "2026-10-12"
  = (if hit then Some (c + 1) else window (disk s) 2 "2026-10-12") ∧
  ∀ d, d ≠ "2026-10-12" → window (disk s') 2 d = window (disk s) 2 d.
Proof.
  apply (fault_free_turn_counts_each_selected_user_once
           (Scenario.sqlite_env Scenario.any_render Scenario.strptime_canonical
              (fun _ => Scenario.oct12 9 0 0) Scenario.no_fault)
           "2026-10-12" (Scenario.at_rest Scenario.two_users) 2 0).
  - intros k. reflexivity.
  - intros k. vm_compute. reflexivity.
  - vm_compute. reflexivity.
  - cbn. apply NoDup_cons. split; [|apply NoDup_singleton].
    intros H. apply list_elem_of_singleton in H. discriminate H.
  - vm_compute. reflexivity.
Defined.

(** X4.  A turn of the background task, whatever fails in it, leaves both
    counters of every user it does not select exactly as they were
    committed. *)
Theorem turn_leaves_unselected_users_alone (E : Env) (s : state) (u : Z) :
  selected (disk s) u = false →
  let s' := (start_auto_blocking_pass E s).2 in
  lifetime (disk s') u = lifetime (disk s) u ∧
  ∀ d, window (disk s') u d = window (disk s) u d.
Proof. apply start_auto_blocking_pass_unselected. Qed.

Lemma turn_leaves_unselected_users_alone_witness :
  let E := Scenario.stamped_env (Some "2026-10-12 08:00:00")
             (fun _ => Scenario.oct12 9 0 0) (Scenario.fault_at 4) in
  let s := Scenario.at_rest Scenario.two_accounts in
  let s' := (start_auto_blocking_pass E s).2 in
  lifetime (disk s') 1 = lifetime (disk s) 1 ∧
  ∀ d, window (disk s') 1 d = window (disk s) 1 d.
Proof.
  apply (turn_leaves_unselected_users_alone
           (Scenario.stamped_env (Some "2026-10-12 08:00:00")
              (fun _ => Scenario.oct12 9 0 0) (Scenario.fault_at 4))
           (Scenario.at_rest Scenario.two_accounts) 1).
  vm_compute. reflexivity.
Defined.

(** X5.  Along every sequence of requests and turns, under any clock,
    any stored timestamps and any store failures: no daily row is ever
    deleted, and every committed daily count stays within 0..100 once all
    of them are. *)
Theorem committed_daily_rows_persist_within_0_100
    (E : Env) (evs : list event) (s : state) :
  (∀ u d v, window (disk s) u d = Some v → 0 <= v <= 100) →
  ∀ u d,
    (is_Some (window (disk s) u d) →
     is_Some (window (disk (run E evs s)) u d)) ∧
    (∀ v, window (disk (run E evs s)) u d = Some v → 0 <= v <= 100).
Proof.
  intros Hs u d. split; [apply run_keeps_rows|].
  intros v. by apply run_windows_in_range.
Qed.

Lemma committed_daily_rows_persist_within_0_100_witness :
  let E := Scenario.stamped_env (Some "2026-10-12 08:00:00")
             (fun _ => Scenario.oct12 9 0 0) (Scenario.fault_at 6) in
  let s := Scenario.at_rest (Scenario.one_user 7 (Some 99)) in
  let db := disk (run E [Wake; Request (Connect_instagram 2); Wake] s) in
  (is_Some (window (disk s) 1 "2026-10-12") →
   is_Some (window db 1 "2026-10-12")) ∧
  (∀ v, window db 1 "2026-10-12" = Some v → 0 <= v <= 100).
Proof.
  refine (committed_daily_rows_persist_within_0_100
            (Scenario.stamped_env (Some "2026-10-12 08:00:00")
               (fun _ => Scenario.oct12 9 0 0) (Scenario.fault_at 6))
            [Wake; Request (Connect_instagram 2); Wake]
            (Scenario.at_rest (Scenario.one_user 7 (Some 99)))
            _ 1 "2026-10-12").
  intros u d v H. cbn in H.
  apply lookup_singleton_Some in H as [_ <-]. lia.
Defined.

(** X7.  The loop of [start_auto_blocking] survives everything: whatever
    the clock, the rows and the store failures, [n] iterations end
    normally and each of them has slept once. *)
Theorem start_auto_blocking_never_stops (E : Env) (n : nat) (s : state) :
  (start_auto_blocking E n s).1 = Ret tt ∧
  sleeps (start_auto_blocking E n s).2 = (sleeps s + n)%nat.
Proof.
  destruct (start_auto_blocking_effect E n s) as (Hr & Hs & _). done.
Qed.

(** X8.  Called for an id that has no row in [users], with the first query
    served, [auto_block_accounts] raises a TypeError that its own handler
    does not catch; nothing is written, committed or logged. *)
Theorem unknown_user_raises_TypeError (E : Env) (user_id : Z) (s : state) :
  store_fault E (store_ops s) = false →
  select_user (txn s) user_id = None →
  let r := (auto_block_accounts E user_id s).1 in
  let s' := (auto_block_accounts E user_id s).2 in
  r = Raise TypeError ∧
  disk s' = disk s ∧ txn s' = txn s ∧ journal s' = journal s ∧ log s' = log s.
Proof.
  intros Hf Hn r s'. subst r s'.
  rewrite (auto_block_accounts_unknown_user E user_id s Hf Hn).
  by destruct s.
Qed.

Lemma unknown_user_raises_TypeError_witness :
  let E := Scenario.sqlite_env Scenario.any_render Scenario.strptime_canonical
             (fun _ => Scenario.oct12 9 0 0) Scenario.no_fault in
  let s := Scenario.at_rest (Scenario.one_user 7 (Some 50)) in
  let r := (auto_block_accounts E 2 s).1 in
  let s' := (auto_block_accounts E 2 s).2 in
  r = Raise TypeError ∧
  disk s' = disk s ∧ txn s' = txn s ∧ journal s' = journal s ∧ log s' = log s.
Proof.
  apply (unknown_user_raises_TypeError
           (Scenario.sqlite_env Scenario.any_render Scenario.strptime_canonical
              (fun _ => Scenario.oct12 9 0 0) Scenario.no_fault)
           2 (Scenario.at_rest (Scenario.one_user 7 (Some 50)))).
  - reflexivity.
  - vm_compute. reflexivity.
Defined.

(** X9.  On the deployed store, with a clock that gives valid dates, the
    only exception a turn of the background task ever reports is a store
    error: no call of [auto_block_accounts] made by the turn raises, so no
    TypeError and no ValueError cuts the loop over the users short. *)
Theorem deployed_turn_reports_store_errors_only
    (render : Z -> string) (parse : string -> option datetime)
    (clock : nat -> datetime) (fault : nat -> bool) (s : state) :
  (∀ k : nat, valid_datetime (clock k)) →
  let E := Scenario.sqlite_env render parse clock fault in
  let s' := (start_auto_blocking_pass E s).2 in
  ∃ new, log s' = (new ++ log s)%list ∧
         ∀ e, Error_in_auto_blocking_task e ∈ new → e = Sqlite3_Error.
Proof.
  intros Hv E s'.
  apply (start_auto_blocking_pass_raises E (λ e, e = Sqlite3_Error) s); [done|].
  intros user s0 Hin Hids e He. exfalso.
  apply (deployed_call_never_raises render parse clock fault user s0 Hv) in He;
    [done|].
  rewrite Hids. by apply select_paid_users_known.
Qed.

Lemma deployed_turn_reports_store_errors_only_witness :
  let E := Scenario.sqlite_env Scenario.any_render Scenario.strptime_canonical
             (fun _ => Scenario.oct12 9 0 0) (Scenario.fault_at 1) in
  let s := Scenario.at_rest Scenario.two_users in
  let s' := (start_auto_blocking_pass E s).2 in
  ∃ new, log s' = (new ++ log s)%list ∧
         ∀ e, Error_in_auto_blocking_task e ∈ new → e = Sqlite3_Error.
Proof.
  apply (deployed_turn_reports_store_errors_only
           Scenario.any_render Scenario.strptime_canonical
           (fun _ => Scenario.oct12 9 0 0) (Scenario.fault_at 1)
           (Scenario.at_rest Scenario.two_users)).
  intros k. unfold valid_datetime. cbn. lia.
Defined.

(** X10.  In every state the application reaches from the empty database,
    by any requests and turns and under any store failures in the turns:
    user ids are distinct, positive and at most the last id handed out,
    emails are distinct, every account row is ("@instagram_acc", connected),
    a user has at most one account row, and every payment belongs to an
    existing user. *)
Theorem reachable_states_are_well_formed (E : Env) (evs : list event) :
  let db := disk (run E evs initial_state) in
  NoDup (map u_id (users db)) ∧
  NoDup (map email (users db)) ∧
  (∀ r, r ∈ users db → 1 <= u_id r <= users_seq db) ∧
  (∀ a, a ∈ accounts db →
     username a = "@instagram_acc" ∧ is_connected a = Some 1) ∧
  NoDup (map a_user_id (accounts db)) ∧
  (∀ p, p ∈ payment_history db → p_user_id p ∈ map u_id (users db)).
Proof.
  intros db.
  destruct (api_state_run E evs initial_state api_state_empty)
    as [H1 H2 H3 _ H5 H6 H7].
  done.
Qed.

(** X11.  In every state the application reaches from the empty database
    the filter of the background task is exact: a user is selected iff a
    payment exists for them and one of their account rows is connected. *)
Theorem eligibility_is_exact_on_reachable_states
    (E : Env) (evs : list event) (user_id : Z) :
  selected_iff_paid_and_connected (disk (run E evs initial_state)) user_id.
Proof.
  split; [apply selected_sound|]. intros [Hp Hc].
  apply selected_complete_api; [|done..].
  apply api_state_run, api_state_empty.
Qed.

(** X12.  Eligibility is permanent: a user the background task selects in
    a state reached from the empty database is selected in every later
    state, whatever requests and turns follow; nothing in the application
    disconnects an account or withdraws a payment. *)
Theorem eligibility_is_permanent
    (E : Env) (evs evs' : list event) (user_id : Z) :
  selected (disk (run E evs initial_state)) user_id = true →
  selected (disk (run E (evs ++ evs')%list initial_state)) user_id = true.
Proof.
  intros Hsel. rewrite run_app. apply run_selected_stays; [|done].
  apply api_state_run, api_state_empty.
Qed.

Lemma eligibility_is_permanent_witness :
  let E := Scenario.stamped_env (Some "2026-10-12 08:00:00")
             (fun _ => Scenario.oct12 9 0 0) (Scenario.fault_at 6) in
  selected
    (disk (run E ([Request (Signup "a@example.com" "hash");
                   Request (Connect_instagram 1);
                   Request (Confirm_payment 1 true 999 "basic"
                                            "2026-10-01T00:00:00")]
                  ++ [Wake; Request (Signup "b@example.com" "hash");
                      Request (Create_subscription 1 "cus_1"); Wake])%list
             initial_state)) 1 = true.
Proof.
  apply (eligibility_is_permanent
           (Scenario.stamped_env (Some "2026-10-12 08:00:00")
              (fun _ => Scenario.oct12 9 0 0) (Scenario.fault_at 6))
           [Request (Signup "a@example.com" "hash");
            Request (Connect_instagram 1);
            Request (Confirm_payment 1 true 999 "basic" "2026-10-01T00:00:00")]
           [Wake; Request (Signup "b@example.com" "hash");
            Request (Create_subscription 1 "cus_1"); Wake] 1).
  vm_compute. reflexivity.
Defined.

(** X13.  The payment history is append-only: after any sequence of
    requests and turns the rows committed before are still its first
    rows, in the same order, so a user that has paid stays a paying
    user. *)
Theorem payment_history_is_append_only
    (E : Env) (evs : list event) (s : state) :
  payment_history (disk s) `prefix_of` payment_history (disk (run E evs s)) ∧
  ∀ u, has_payment (disk s) u = true →
       has_payment (disk (run E evs s)) u = true.
Proof.
  split; [apply run_payment_history|].
  intros u. apply has_payment_prefix, run_payment_history.
Qed.

(** X14.  [connect_instagram] for a user makes the dashboard show that
    user as connected whatever account rows were there before, leaves the
    account rows of every other user as they are, and a second call
    changes nothing more. *)
Theorem connect_instagram_connects_one_user (user_id : Z) (db : DB) :
  dashboard_instagram_connected (connect_instagram user_id db) user_id = true ∧
  (∀ u, u ≠ user_id →
     select_is_connected (connect_instagram user_id db) u
     = select_is_connected db u) ∧
  connect_instagram user_id (connect_instagram user_id db)
  = connect_instagram user_id db.
Proof.
  split; [apply connect_instagram_connected|].
  split; [intros u; apply connect_instagram_other_users|].
  apply connect_instagram_idempotent.
Qed.

(** X15.  After [signup] the email is registered, and a further [signup]
    with the same email changes nothing, whatever password it brings: no
    second row, no new id, no overwritten password. *)
Theorem signup_registers_an_email_once (e h h' : string) (db : DB) :
  existsb (fun r => String.eqb (email r) e) (users (signup e h db)) = true ∧
  signup e h' (signup e h db) = signup e h db.
Proof.
  split; [|apply signup_idempotent].
  unfold signup.
  destruct (existsb _ (users db)) eqn:Htaken; [done|].
  cbn [users]. by apply existsb_email_snoc.
Qed.

(** X16.  [create_subscription] stores a customer id for a known user that
    has none and never replaces one: once a non-empty id is stored, a
    later call with any other id leaves the database as it is. *)
Theorem create_subscription_sets_the_customer_once
    (user_id : Z) (c c' : string) (db : DB) :
  c ≠ "" →
  (∀ r, select_user db user_id = Some r →
     stripe_customer_id r = None ∨ stripe_customer_id r = Some "" →
     select_user (create_subscription user_id c db) user_id
     = Some (mk_user (u_id r) (email r) (password r) (Some c) (blocked_count r))) ∧
  create_subscription user_id c' (create_subscription user_id c db)
  = create_subscription user_id c db.
Proof.
  intros Hc. split; [|by apply create_subscription_idempotent].
  intros r Hr Hnone. by apply create_subscription_sets_customer.
Qed.

Lemma create_subscription_sets_the_customer_once_witness :
  let db := Scenario.one_user 7 (Some 50) in
  (∀ r, select_user db 1 = Some r →
     stripe_customer_id r = None ∨ stripe_customer_id r = Some "" →
     select_user (create_subscription 1 "cus_1" db) 1
     = Some (mk_user (u_id r) (email r) (password r) (Some "cus_1")
                     (blocked_count r))) ∧
  create_subscription 1 "cus_2" (create_subscription 1 "cus_1" db)
  = create_subscription 1 "cus_1" db.
Proof.
  apply (create_subscription_sets_the_customer_once
           1 "cus_1" "cus_2" (Scenario.one_user 7 (Some 50))).
  intros H. discriminate H.
Defined.

(** X17.  The two writers keep to their tables.  A turn of the background
    task, whatever fails in it, changes no account row, no payment, no id,
    email, password or customer id and not the id sequence; a request
    changes no daily row. *)
Theorem writers_keep_to_their_tables (E : Env) (s : state) :
  (let s' := system_step E s Wake in
   accounts (disk s') = accounts (disk s) ∧
   payment_history (disk s') = payment_history (disk s) ∧
   users_seq (disk s') = users_seq (disk s) ∧
   map identity (users (disk s')) = map identity (users (disk s))) ∧
  (∀ r u d,
     window (disk (system_step E s (Request r))) u d = window (disk s) u d).
Proof.
  split; [apply start_auto_blocking_pass_frame|].
  intros r u d. cbn [system_step disk]. apply window_handle.
Qed.

(** * Dates as text and as ordinals *)

Lemma ascii_compare_digit x y :
  Ascii.compare (digit x) (digit y) = (x mod 10 ?= y mod 10).
Proof.
  unfold Ascii.compare, digit.
  pose proof (Z.mod_pos_bound x 10 ltac:(lia)).
  pose proof (Z.mod_pos_bound y 10 ltac:(lia)).
  rewrite !N_ascii_embedding by lia.
  rewrite <- N2Z.inj_compare, !N2Z.inj_add, !Z2N.id by lia.
  apply Z.add_compare_mono_l.
Qed.

Lemma compare_date_isoformat a b :
  String.compare (date_isoformat a) (date_isoformat b)
  = Calendar.then_by (year a / 1000 mod 10 ?= year b / 1000 mod 10)
     (Calendar.then_by (year a / 100 mod 10 ?= year b / 100 mod 10)
      (Calendar.then_by (year a / 10 mod 10 ?= year b / 10 mod 10)
       (Calendar.then_by (year a mod 10 ?= year b mod 10)
        (Calendar.then_by (month a / 10 mod 10 ?= month b / 10 mod 10)
         (Calendar.then_by (month a mod 10 ?= month b mod 10)
          (Calendar.then_by (day a / 10 mod 10 ?= day b / 10 mod 10)
           (day a mod 10 ?= day b mod 10))))))).
Proof.
  rewrite !date_isoformat_chars. cbn [String.compare].
  rewrite !ascii_compare_digit. unfold Calendar.then_by.
  repeat (match goal with |- context [?x ?= ?y] => destruct (x ?= y) end; try done).
Qed.

Lemma digits_4 y :
  0 <= y < 10000 →
  y = 1000 * (y / 1000 mod 10) + 100 * (y / 100 mod 10)
      + 10 * (y / 10 mod 10) + y mod 10.
Proof. intros Hy. Z.div_mod_to_equations. lia. Qed.

Lemma digits_2 m :
  0 <= m < 100 → m = 10 * (m / 10 mod 10) + m mod 10.
Proof. intros Hm. Z.div_mod_to_equations. lia. Qed.

Lemma leb_date_isoformat a b :
  0 <= year a < 10000 → 0 <= month a < 100 → 0 <= day a < 100 →
  0 <= year b < 10000 → 0 <= month b < 100 → 0 <= day b < 100 →
  String.leb (date_isoformat a) (date_isoformat b) = true ↔ Calendar.date_le a b.
Proof.
  intros Hya Hma Hda Hyb Hmb Hdb.
  unfold String.leb. rewrite compare_date_isoformat. unfold Calendar.date_le.
  pose proof (digits_4 (year a) Hya) as Eya.
  pose proof (digits_4 (year b) Hyb) as Eyb.
  pose proof (digits_2 (month a) Hma) as Ema.
  pose proof (digits_2 (month b) Hmb) as Emb.
  pose proof (digits_2 (day a) Hda) as Eda.
  pose proof (digits_2 (day b) Hdb) as Edb.
  pose proof (Z.mod_pos_bound (year a / 1000) 10 ltac:(lia)).
  pose proof (Z.mod_pos_bound (year a / 100) 10 ltac:(lia)).
  pose proof (Z.mod_pos_bound (year a / 10) 10 ltac:(lia)).
  pose proof (Z.mod_pos_bound (year a) 10 ltac:(lia)).
  pose proof (Z.mod_pos_bound (month a / 10) 10 ltac:(lia)).
  pose proof (Z.mod_pos_bound (month a) 10 ltac:(lia)).
  pose proof (Z.mod_pos_bound (day a / 10) 10 ltac:(lia)).
  pose proof (Z.mod_pos_bound (day a) 10 ltac:(lia)).
  pose proof (Z.mod_pos_bound (year b / 1000) 10 ltac:(lia)).
  pose proof (Z.mod_pos_bound (year b / 100) 10 ltac:(lia)).
  pose proof (Z.mod_pos_bound (year b / 10) 10 ltac:(lia)).
  pose proof (Z.mod_pos_bound (year b) 10 ltac:(lia)).
  pose proof (Z.mod_pos_bound (month b / 10) 10 ltac:(lia)).
  pose proof (Z.mod_pos_bound (month b) 10 ltac:(lia)).
  pose proof (Z.mod_pos_bound (day b / 10) 10 ltac:(lia)).
  pose proof (Z.mod_pos_bound (day b) 10 ltac:(lia)).
  set (a3 := year a / 1000 mod 10) in *. set (a2 := year a / 100 mod 10) in *.
  set (a1 := year a / 10 mod 10) in *. set (a0 := year a mod 10) in *.
  set (b3 := year b / 1000 mod 10) in *. set (b2 := year b / 100 mod 10) in *.
  set (b1 := year b / 10 mod 10) in *. set (b0 := year b mod 10) in *.
  set (ma1 := month a / 10 mod 10) in *. set (ma0 := month a mod 10) in *.
  set (mb1 := month b / 10 mod 10) in *. set (mb0 := month b mod 10) in *.
  set (da1 := day a / 10 mod 10) in *. set (da0 := day a mod 10) in *.
  set (db1 := day b / 10 mod 10) in *. set (db0 := day b mod 10) in *.
  clearbody a3 a2 a1 a0 b3 b2 b1 b0 ma1 ma0 mb1 mb0 da1 da0 db1 db0.
  unfold Calendar.then_by.
  repeat (match goal with
          | |- context [?x ?= ?y] => destruct (Z.compare_spec x y)
          end).
  all: split; intros Hx; try done; try discriminate; lia.
Qed.

Lemma days_before_year_succ y :
  days_before_year (y + 1)
  = days_before_year y + 365 + (if is_leap y then 1 else 0).
Proof.
  unfold days_before_year, is_leap.
  replace (y + 1 - 1) with y by lia.
  destruct (y mod 4 =? 0) eqn:H4; destruct (y mod 100 =? 0) eqn:H100;
    destruct (y mod 400 =? 0) eqn:H400; cbn;
    rewrite ?Z.eqb_eq, ?Z.eqb_neq in *;
    Z.div_mod_to_equations; lia.
Qed.

Lemma days_before_year_mono y k :
  0 <= k → days_before_year y + 365 * k <= days_before_year (y + k).
Proof.
  intros Hk. revert k Hk.
  apply (natlike_ind (λ k, days_before_year y + 365 * k <= days_before_year (y + k))).
  - replace (y + 0) with y by lia. lia.
  - intros k Hk IH. replace (y + Z.succ k) with (y + k + 1) by lia.
    rewrite days_before_year_succ. destruct (is_leap (y + k)); lia.
Qed.

Ltac month_cases m :=
  let H := fresh in
  assert (m = 1 ∨ m = 2 ∨ m = 3 ∨ m = 4 ∨ m = 5 ∨ m = 6 ∨ m = 7 ∨ m = 8
          ∨ m = 9 ∨ m = 10 ∨ m = 11 ∨ m = 12) as H by lia;
  repeat (destruct H as [-> | H]); [..|subst m].

Lemma days_before_month_succ y m :
  1 <= m <= 11 →
  days_before_month y (m + 1) = days_before_month y m + days_in_month y m.
Proof.
  intros Hm. month_cases m; try lia; unfold days_before_month, days_in_month;
    destruct (is_leap y); reflexivity.
Qed.

Lemma days_in_month_pos y m : 1 <= m <= 12 → 28 <= days_in_month y m <= 31.
Proof.
  intros Hm. month_cases m; unfold days_in_month;
    destruct (is_leap y); vm_compute; split; discriminate.
Qed.

Lemma days_before_month_mono y m k :
  1 <= m → 0 <= k → m + k <= 12 →
  days_before_month y m + 28 * k <= days_before_month y (m + k).
Proof.
  intros Hm Hk. revert k Hk. apply (natlike_ind (λ k, m + k <= 12 →
    days_before_month y m + 28 * k <= days_before_month y (m + k))).
  - replace (m + 0) with m by lia. lia.
  - intros k Hk IH Hle. replace (m + Z.succ k) with (m + k + 1) by lia.
    rewrite days_before_month_succ by lia.
    pose proof (days_in_month_pos y (m + k) ltac:(lia)). lia.
Qed.

Lemma days_before_month_bounds y m :
  1 <= m <= 12 →
  0 <= days_before_month y m ∧
  days_before_month y m + days_in_month y m
  <= 365 + (if is_leap y then 1 else 0).
Proof.
  intros Hm. month_cases m; unfold days_before_month, days_in_month;
    destruct (is_leap y); vm_compute; split; discriminate.
Qed.

Lemma ymd2ord_date_le a b :
  1 <= month a <= 12 → 1 <= day a <= days_in_month (year a) (month a) →
  1 <= month b <= 12 → 1 <= day b <= days_in_month (year b) (month b) →
  Calendar.date_le a b ↔
  ymd2ord (year a) (month a) (day a) <= ymd2ord (year b) (month b) (day b).
Proof.
  intros Hma Hda Hmb Hdb. unfold Calendar.date_le, ymd2ord.
  pose proof (days_before_month_bounds (year a) (month a) Hma).
  pose proof (days_before_month_bounds (year b) (month b) Hmb).
  destruct (Z.lt_trichotomy (year a) (year b)) as [Hy|[Hy|Hy]].
  - pose proof (days_before_year_mono (year a + 1) (year b - (year a + 1))
                  ltac:(lia)) as Hmono.
    replace (year a + 1 + (year b - (year a + 1))) with (year b) in Hmono by lia.
    rewrite days_before_year_succ in Hmono.
    split; [intros _|intros _; by left].
    destruct (is_leap (year a)); lia.
  - rewrite Hy in *.
    destruct (Z.lt_trichotomy (month a) (month b)) as [Hm|[Hm|Hm]].
    + pose proof (days_before_month_mono (year b) (month a + 1)
                    (month b - (month a + 1)) ltac:(lia) ltac:(lia) ltac:(lia))
        as Hmono.
      replace (month a + 1 + (month b - (month a + 1))) with (month b)
        in Hmono by lia.
      rewrite days_before_month_succ in Hmono by lia.
      split; [intros _; lia|intros _; right; split; [done|by left]].
    + rewrite Hm in *. split; [lia|]. intros Hle. right. split; [done|].
      right. split; [done|lia].
    + pose proof (days_before_month_mono (year b) (month b + 1)
                    (month a - (month b + 1)) ltac:(lia) ltac:(lia) ltac:(lia))
        as Hmono.
      replace (month b + 1 + (month a - (month b + 1))) with (month a)
        in Hmono by lia.
      rewrite days_before_month_succ in Hmono by lia.
      split; [lia|]. intros Hle. lia.
  - pose proof (days_before_year_mono (year b + 1) (year a - (year b + 1))
                  ltac:(lia)) as Hmono.
    replace (year b + 1 + (year a - (year b + 1))) with (year a) in Hmono by lia.
    rewrite days_before_year_succ in Hmono.
    split; [lia|]. intros Hle. destruct (is_leap (year b)); lia.
Qed.

Lemma month_day_table :
  forallb (Calendar.month_day_ok true) (seq 0 366) = true ∧
  forallb (Calendar.month_day_ok false) (seq 0 365) = true.
Proof. split; vm_compute; reflexivity. Qed.

Lemma days_in_month_leap y y' m :
  is_leap y = is_leap y' → days_in_month y m = days_in_month y' m.
Proof. intros H. unfold days_in_month. by rewrite H. Qed.

Lemma days_before_month_leap y y' m :
  is_leap y = is_leap y' → days_before_month y m = days_before_month y' m.
Proof. intros H. unfold days_before_month. by rewrite H. Qed.

Lemma month_day_spec y n :
  0 <= n < 365 + (if is_leap y then 1 else 0) →
  let '(m, d) := Calendar.month_day (is_leap y) n in
  1 <= m <= 12 ∧ 1 <= d <= days_in_month y m ∧
  days_before_month y m + d = n + 1.
Proof.
  intros Hn. destruct month_day_table as [Ht Hf].
  assert (Hok : Calendar.month_day_ok (is_leap y) (Z.to_nat n) = true).
  { destruct (is_leap y).
    - eapply forallb_forall in Ht; [exact Ht|]. apply in_seq. lia.
    - eapply forallb_forall in Hf; [exact Hf|]. apply in_seq. lia. }
  unfold Calendar.month_day_ok in Hok. rewrite Z2Nat.id in Hok by lia.
  destruct (Calendar.month_day (is_leap y) n) as [m d].
  set (y0 := if is_leap y then 4 else 1) in Hok.
  assert (Hleap : is_leap y = is_leap y0) by (subst y0; by destruct (is_leap y)).
  rewrite (days_in_month_leap y y0 m Hleap),
          (days_before_month_leap y y0 m Hleap).
  repeat (apply andb_true_iff in Hok as [Hok ?]). lia.
Qed.

Lemma days_before_year_decomp a b c d :
  0 <= b <= 3 → 0 <= c <= 24 → 0 <= d <= 3 →
  days_before_year (400 * a + 100 * b + 4 * c + d + 1)
  = 146097 * a + 36524 * b + 1461 * c + 365 * d.
Proof.
  intros Hb Hc Hd. unfold days_before_year.
  replace (400 * a + 100 * b + 4 * c + d + 1 - 1)
    with (400 * a + 100 * b + 4 * c + d) by lia.
  Z.div_mod_to_equations. lia.
Qed.

Lemma is_leap_decomp a b c d :
  0 <= b <= 3 → 0 <= c <= 24 → 0 <= d <= 3 →
  is_leap (400 * a + 100 * b + 4 * c + d + 1)
  = (d =? 3) && (negb (c =? 24) || (b =? 3)).
Proof.
  intros Hb Hc Hd. unfold is_leap.
  set (y := 400 * a + 100 * b + 4 * c + d + 1).
  assert (y mod 4 = (d + 1) mod 4) as ->.
  { subst y. replace (400 * a + 100 * b + 4 * c + d + 1)
      with ((d + 1) + (100 * a + 25 * b + c) * 4) by lia.
    by rewrite Z.mod_add. }
  assert (y mod 100 = (4 * c + d + 1) mod 100) as ->.
  { subst y. replace (400 * a + 100 * b + 4 * c + d + 1)
      with ((4 * c + d + 1) + (4 * a + b) * 100) by lia.
    by rewrite Z.mod_add. }
  assert (y mod 400 = (100 * b + 4 * c + d + 1) mod 400) as ->.
  { subst y. replace (400 * a + 100 * b + 4 * c + d + 1)
      with ((100 * b + 4 * c + d + 1) + a * 400) by lia.
    by rewrite Z.mod_add. }
  destruct (d =? 3) eqn:Ed; destruct (c =? 24) eqn:Ec; destruct (b =? 3) eqn:Eb;
    rewrite ?Z.eqb_eq, ?Z.eqb_neq in *; cbn.
  all: repeat match goal with
       | |- context [?x mod ?k =? 0] =>
           let E := fresh in destruct (x mod k =? 0) eqn:E;
           rewrite ?Z.eqb_eq, ?Z.eqb_neq in E
       end; cbn; try done.
  all: exfalso; Z.div_mod_to_equations; lia.
Qed.

Lemma ord2ymd_month_day n :
  let n0 := n - 1 in
  let a := n0 / 146097 in let r400 := n0 mod 146097 in
  let b := r400 / 36524 in let r100 := r400 mod 36524 in
  let c := r100 / 1461 in let r4 := r100 mod 1461 in
  let d := r4 / 365 in let r1 := r4 mod 365 in
  let year := a * 400 + 1 + (b * 100 + c * 4 + d) in
  Calendar.ord2ymd n
  = if (d =? 4) || (b =? 4) then (year - 1, 12, 31)
    else let '(m, dd) := Calendar.month_day
                           ((d =? 3) && (negb (c =? 24) || (b =? 3))) r1 in
         (year, m, dd).
Proof.
  cbv zeta. unfold Calendar.ord2ymd, Calendar.month_day.
  change Calendar.DI400Y with 146097. change Calendar.DI100Y with 36524.
  change Calendar.DI4Y with 1461.
  destruct ((_ =? 4) || (_ =? 4)); [done|].
  by destruct (_ <? _).
Qed.

Lemma ord2ymd_spec n :
  1 <= n →
  let '(y, m, d) := Calendar.ord2ymd n in
  1 <= y ∧ 1 <= m <= 12 ∧ 1 <= d <= days_in_month y m ∧ ymd2ord y m d = n.
Proof.
  intros Hn. rewrite ord2ymd_month_day. cbv zeta.
  set (n0 := n - 1).
  set (a := n0 / 146097). set (r400 := n0 mod 146097).
  set (b := r400 / 36524). set (r100 := r400 mod 36524).
  set (c := r100 / 1461). set (r4 := r100 mod 1461).
  set (d := r4 / 365). set (r1 := r4 mod 365).
  assert (Hdec : n0 = 146097 * a + 36524 * b + 1461 * c + 365 * d + r1
                 ∧ 0 <= a ∧ 0 <= b <= 4 ∧ 0 <= c <= 24 ∧ 0 <= d <= 4
                 ∧ 0 <= r1 < 365
                 ∧ (b = 4 → c = 0 ∧ d = 0 ∧ r1 = 0)
                 ∧ (d = 4 → r1 = 0 ∧ c <= 23)).
  { assert (0 <= n0) by (subst n0; lia). clearbody n0.
    subst a r400 b r100 c r4 d r1. Z.div_mod_to_equations. lia. }
  assert (Hn' : n = n0 + 1) by (subst n0; lia).
  clearbody a r400 b r100 c r4 d r1 n0.
  destruct Hdec as (Hn0 & Ha & Hb & Hc & Hd & Hr1 & Hb4 & Hd4).
  destruct (d =? 4) eqn:Ed4; [|destruct (b =? 4) eqn:Eb4];
    rewrite ?Z.eqb_eq, ?Z.eqb_neq in *; cbn [orb].
  - destruct (Hd4 Ed4) as [-> Hc23]. subst d.
    replace (a * 400 + 1 + (b * 100 + c * 4 + 4) - 1)
      with (400 * a + 100 * b + 4 * c + 3 + 1) by lia.
    assert (Hb3 : 0 <= b <= 3).
    { destruct (decide (b = 4)) as [Hb'|]; [|lia]. destruct (Hb4 Hb'). lia. }
    pose proof (is_leap_decomp a b c 3 Hb3 ltac:(lia) ltac:(lia)) as Hleap.
    pose proof (days_before_year_decomp a b c 3 Hb3 ltac:(lia) ltac:(lia)) as Hy.
    replace (c =? 24) with false in Hleap by (symmetry; apply Z.eqb_neq; lia).
    cbn in Hleap.
    unfold ymd2ord, days_before_month, days_in_month. rewrite Hy, Hleap.
    change (nth (Z.to_nat 12) DAYS_BEFORE_MONTH 0) with 334.
    cbn. lia.
  - destruct (Hb4 Eb4) as (-> & -> & ->). subst b.
    replace (a * 400 + 1 + (4 * 100 + 0 * 4 + 0) - 1)
      with (400 * a + 100 * 3 + 4 * 24 + 3 + 1) by lia.
    pose proof (is_leap_decomp a 3 24 3 ltac:(lia) ltac:(lia) ltac:(lia)) as Hleap.
    pose proof (days_before_year_decomp a 3 24 3 ltac:(lia) ltac:(lia) ltac:(lia))
      as Hy.
    cbn in Hleap.
    unfold ymd2ord, days_before_month, days_in_month. rewrite Hy, Hleap.
    change (nth (Z.to_nat 12) DAYS_BEFORE_MONTH 0) with 334.
    cbn. lia.
  - replace (a * 400 + 1 + (b * 100 + c * 4 + d))
      with (400 * a + 100 * b + 4 * c + d + 1) by lia.
    set (y := 400 * a + 100 * b + 4 * c + d + 1).
    pose proof (is_leap_decomp a b c d ltac:(lia) Hc ltac:(lia)) as Hleap.
    pose proof (days_before_year_decomp a b c d ltac:(lia) Hc ltac:(lia)) as Hy.
    fold y in Hleap, Hy. rewrite <- Hleap.
    pose proof (month_day_spec y r1) as Hmd.
    destruct (Calendar.month_day (is_leap y) r1) as [m dd].
    assert (Hr : 0 <= r1 < 365 + (if is_leap y then 1 else 0))
      by (destruct (is_leap y); lia).
    destruct (Hmd Hr) as (Hm & Hdd & Hsum).
    repeat split; try lia.
    unfold ymd2ord. rewrite Hy. lia.
Qed.

Lemma ymd2ord_year_bound y m d :
  1 <= m <= 12 → 1 <= d → ymd2ord y m d <= Calendar.MAXORDINAL → y <= 9999.
Proof.
  intros Hm Hd Hmax. destruct (decide (y <= 9999)) as [|Hy]; [done|].
  pose proof (days_before_year_mono 10000 (y - 10000) ltac:(lia)) as Hmono.
  replace (10000 + (y - 10000)) with y in Hmono by lia.
  change (days_before_year 10000) with 3652059 in Hmono.
  pose proof (days_before_month_bounds y m Hm) as [Hb _].
  unfold ymd2ord, Calendar.MAXORDINAL in Hmax. lia.
Qed.

Lemma minus_days_spec now n t :
  Calendar.minus_days now n = Some t →
  1 <= year t <= 9999 ∧ 1 <= month t <= 12 ∧
  1 <= day t <= days_in_month (year t) (month t) ∧
  ymd2ord (year t) (month t) (day t)
  = ymd2ord (year now) (month now) (day now) - n.
Proof.
  unfold Calendar.minus_days.
  set (days := ymd2ord (year now) (month now) (day now) - n).
  destruct ((0 <? days) && (days <=? Calendar.MAXORDINAL)) eqn:Hr; [|done].
  apply andb_true_iff in Hr as [Hlo Hhi].
  apply Z.ltb_lt in Hlo. apply Z.leb_le in Hhi.
  pose proof (ord2ymd_spec days ltac:(lia)) as Hspec.
  destruct (Calendar.ord2ymd days) as [[y m] d].
  intros [= <-]. cbn [year month day].
  destruct Hspec as (Hy & Hm & Hd & Hord).
  repeat split; try lia.
  apply (ymd2ord_year_bound y m d); lia.
Qed.


(** * The handlers *)

Import Web.

Ltac run_handler :=
  cbv [Endpoint.serve Endpoint.signup Endpoint.login Endpoint.get_dashboard
       Endpoint.connect_instagram Endpoint.create_payment_intent
       Endpoint.confirm_payment Endpoint.create_subscription
       Endpoint.verify_token Endpoint.get_user_by_id
       Endpoint.create_access_token
       Endpoint.select Endpoint.execute Endpoint.commit Endpoint.store_op
       Endpoint.datetime_utcnow Endpoint.call Endpoint.subscript Endpoint.tick
       try_except handler_of Web.bind Web.ret Web.raise mbind mret H_bind H_ret
       is_JWTError is_StripeError is_OperationalError is_sqlite3_Error
       is_Exception committed view operations readings].

Ltac settle :=
  cbn; repeat split; intros;
  try discriminate; try congruence; simplify_eq; eauto 10.

Lemma verify_token_outcome W token c :
  let r := (Endpoint.verify_token W token c).1 in
  (Endpoint.verify_token W token c).2 = c ∧
  match r with
  | Returned user_id =>
      Endpoint.nonempty token = true ∧ jwt_decode W token = Value (Some user_id)
  | Raised e =>
      (e = HTTPException 401 ∧
       (Endpoint.nonempty token = false ∨ jwt_decode W token = Error ∨
        jwt_decode W token = Value None)) ∨
      (e = Exception ∧ Endpoint.nonempty token = true ∧ jwt_decode W token = Crash)
  end.
Proof.
  run_handler.
  destruct (Endpoint.nonempty token) eqn:Hne; cbn; [|by eauto 6].
  destruct (jwt_decode W token) as [[id|]| |] eqn:Hd; cbn; by eauto 8.
Qed.

Lemma select_user_by_email_existsb db e :
  existsb (fun r => String.eqb (email r) e) (users db)
  = bool_decide (is_Some (Endpoint.select_user_by_email db e)).
Proof.
  unfold Endpoint.select_user_by_email.
  induction (users db) as [|r l IH]; cbn.
  - done.
  - by destruct (String.eqb (email r) e).
Qed.

Lemma insert_user_signup e h db :
  Endpoint.select_user_by_email db e = None →
  Endpoint.insert_user e h db = Some (Http.signup e h db).
Proof.
  intros Hn. unfold Endpoint.insert_user, Http.signup.
  rewrite select_user_by_email_existsb, Hn.
  rewrite bool_decide_eq_false_2; [done|]. by intros [? ?].
Qed.

Lemma signup_outcome W e p db :
  let r := (Endpoint.serve (Endpoint.signup W e p) db).1 in
  let db' := (Endpoint.serve (Endpoint.signup W e p) db).2 in
  (r = Returned tt ∨ r = Raised (HTTPException 500)) ∧
  (db' = db ∨ ∃ h, pwd_hash W p = Value h ∧ db' = Http.signup e h db) ∧
  (r = Returned tt →
     Endpoint.select_user_by_email db e = None ∧
     ∃ h, pwd_hash W p = Value h ∧ db' = Http.signup e h db) ∧
  (Endpoint.select_user_by_email db e ≠ None →
     r = Raised (HTTPException 500) ∧ db' = db).
Proof.
  run_handler.
  destruct (store_error W 0) as [[|]|] eqn:H0; cbn; [by settle..|].
  destruct (Endpoint.select_user_by_email db e) as [u|] eqn:Hu; cbn;
    [by settle|].
  destruct (pwd_hash W p) as [h| |] eqn:Hh; cbn; [|by settle..].
  destruct (store_error W 1) as [[|]|] eqn:H1; cbn; [by settle..|].
  rewrite (insert_user_signup e h db Hu). cbn.
  destruct (store_error W 2) as [[|]|] eqn:H2; cbn; [by settle..|].
  destruct (store_error W 3) as [[|]|] eqn:H3; cbn; [by settle..|].
  destruct (Endpoint.select_user_by_email (signup e h db) e); by settle.
Qed.

Lemma select_user_by_email_signup e h db :
  is_Some (Endpoint.select_user_by_email (Http.signup e h db) e).
Proof.
  apply (bool_decide_unpack _). rewrite <- select_user_by_email_existsb.
  unfold Http.signup.
  destruct (existsb _ (users db)) eqn:Htaken; [by rewrite Htaken|].
  cbn [users]. by rewrite existsb_email_snoc.
Qed.

Lemma signup_succeeds W e p h db :
  Endpoint.select_user_by_email db e = None →
  pwd_hash W p = Value h →
  (∀ n, (n < 4)%nat → store_error W n = None) →
  Endpoint.serve (Endpoint.signup W e p) db = (Returned tt, Http.signup e h db).
Proof.
  intros Hu Hh Hs. run_handler.
  rewrite (Hs 0%nat) by lia. cbn. rewrite Hu, Hh. cbn.
  rewrite (Hs 1%nat) by lia. rewrite (insert_user_signup e h db Hu). cbn.
  rewrite (Hs 2%nat) by lia. cbn. rewrite (Hs 3%nat) by lia. cbn.
  destruct (select_user_by_email_signup e h db) as [u ->]. done.
Qed.

Lemma login_outcome W e p db :
  let r := (Endpoint.serve (Endpoint.login W e p) db).1 in
  let db' := (Endpoint.serve (Endpoint.login W e p) db).2 in
  db' = db ∧
  match r with
  | Returned token =>
      store_error W 0 = None ∧
      ∃ u, Endpoint.select_user_by_email db e = Some u ∧
           pwd_verify W p (password u) = Value true ∧
           jwt_encode W e (u_id u) (clock W 0) 30 = Value token
  | Raised exc => exc = HTTPException 500
  end.
Proof.
  run_handler.
  destruct (store_error W 0) as [[|]|] eqn:H0; cbn; [by settle..|].
  destruct (Endpoint.select_user_by_email db e) as [u|] eqn:Hu; cbn;
    [|by settle].
  destruct (pwd_verify W p (password u)) as [[|]| |] eqn:Hp; cbn;
    [|by settle..].
  destruct (jwt_encode W e (u_id u) (clock W 0) 30) as [t| |] eqn:Ht; cbn;
    by settle.
Qed.

Lemma select_chart_spec db user_id since d b :
  (d, b) ∈ Endpoint.select_chart db user_id since ↔
  window db user_id d = Some b ∧ String.leb since d = true.
Proof.
  unfold Endpoint.select_chart, window.
  rewrite elem_of_index_order, list_elem_of_omap. split.
  - intros ([[u d'] b'] & Hin & Hsome).
    apply elem_of_map_to_list in Hin.
    destruct (u =? user_id) eqn:Hu; [|done]. apply Z.eqb_eq in Hu. subst u.
    destruct (String.leb since d') eqn:Hle; [|done]. cbn in Hsome.
    by simplify_eq.
  - intros [Hw Hle]. exists ((user_id, d), b). split.
    + by apply elem_of_map_to_list.
    + by rewrite Z.eqb_refl, Hle.
Qed.

Lemma get_dashboard_outcome W token db :
  let r := (Endpoint.serve (Endpoint.get_dashboard W token) db).1 in
  let db' := (Endpoint.serve (Endpoint.get_dashboard W token) db).2 in
  db' = db ∧
  match r with
  | Returned out =>
      ∃ user_id u t,
        jwt_decode W token = Value (Some user_id) ∧
        select_user db user_id = Some u ∧
        Calendar.minus_days (clock W 0) 90 = Some t ∧
        out = Endpoint.mk_UserOut user_id (email u)
                (dashboard_instagram_connected db user_id)
                (map username
                   (filter (fun a => Is_true (Endpoint.nonempty (username a)))
                      (Endpoint.select_accounts db user_id)))
                (Endpoint.select_payments db user_id)
                (blocked_count u)
                (Endpoint.select_chart db user_id (date_isoformat t))
  | Raised e => e = HTTPException 500
  end.
Proof.
  run_handler.
  destruct (Endpoint.nonempty token) eqn:Hne; cbn; [|by settle].
  destruct (jwt_decode W token) as [[id|]| |] eqn:Hd; cbn; [|by settle..].
  destruct (store_error W 0) as [[|]|] eqn:H0; cbn; [by settle..|].
  destruct (select_user db id) as [u|] eqn:Hu; cbn; [|by settle].
  destruct (store_error W 1) as [[|]|] eqn:H1; cbn; [by settle..|].
  destruct (store_error W 2) as [[|]|] eqn:H2; cbn; [by settle..|].
  destruct (store_error W 3) as [[|]|] eqn:H3; cbn; [by settle..|].
  rewrite Hu. cbn.
  destruct (Calendar.minus_days (clock W 0) 90) as [t|] eqn:Ht; cbn;
    [|by settle].
  destruct (store_error W 4) as [[|]|] eqn:H4; cbn; [by settle..|].
  split; [done|]. exists id, u, t. repeat split; try done.
  by rewrite (select_user_id _ _ _ Hu).
Qed.

Lemma connect_instagram_outcome W token db :
  let r := (Endpoint.serve (Endpoint.connect_instagram W token) db).1 in
  let db' := (Endpoint.serve (Endpoint.connect_instagram W token) db).2 in
  match r with
  | Returned _ =>
      ∃ user_id, jwt_decode W token = Value (Some user_id) ∧
                 db' = Http.connect_instagram user_id db
  | Raised e =>
      db' = db ∧
      (e = HTTPException 401 ∨ e = HTTPException 500 ∨ e = DatabaseError ∨
       e = Exception)
  end.
Proof.
  run_handler.
  destruct (Endpoint.nonempty token) eqn:Hne; cbn; [|by settle].
  destruct (jwt_decode W token) as [[id|]| |] eqn:Hd; cbn; [|by settle..].
  destruct (store_error W 0) as [[|]|] eqn:H0; cbn; [by settle..|].
  destruct (store_error W 1) as [[|]|] eqn:H1; cbn; by settle.
Qed.

Lemma connect_instagram_succeeds W token user_id db :
  Endpoint.nonempty token = true →
  jwt_decode W token = Value (Some user_id) →
  store_error W 0 = None → store_error W 1 = None →
  Endpoint.serve (Endpoint.connect_instagram W token) db
  = (Returned tt, Http.connect_instagram user_id db).
Proof.
  intros Hne Hd H0 H1. run_handler. rewrite Hne. cbn. rewrite Hd. cbn.
  rewrite H0. cbn. rewrite H1. done.
Qed.

(** The answer of [connect_instagram] for every token and every store. *)
Lemma connect_instagram_answer W token db :
  let r := (Endpoint.serve (Endpoint.connect_instagram W token) db).1 in
  let db' := (Endpoint.serve (Endpoint.connect_instagram W token) db).2 in
  match Endpoint.nonempty token, jwt_decode W token with
  | false, _ | true, Error | true, Value None =>
      r = Raised (HTTPException 401) ∧ db' = db
  | true, Crash => r = Raised Exception ∧ db' = db
  | true, Value (Some user_id) =>
      match store_error W 0, store_error W 1 with
      | Some Operational, _ | None, Some Operational =>
          r = Raised (HTTPException 500) ∧ db' = db
      | Some Other_class, _ | None, Some Other_class =>
          r = Raised DatabaseError ∧ db' = db
      | None, None =>
          r = Returned tt ∧ db' = Http.connect_instagram user_id db
      end
  end.
Proof.
  run_handler.
  destruct (Endpoint.nonempty token) eqn:Hne; cbn; [|done].
  destruct (jwt_decode W token) as [[id|]| |] eqn:Hd; cbn; [|done..].
  destruct (store_error W 0) as [[|]|] eqn:H0; cbn; [done..|].
  destruct (store_error W 1) as [[|]|] eqn:H1; cbn; done.
Qed.

Lemma create_payment_intent_outcome W amount description token db :
  let r := (Endpoint.serve
              (Endpoint.create_payment_intent W amount description token) db).1 in
  let db' := (Endpoint.serve
                (Endpoint.create_payment_intent W amount description token) db).2 in
  db' = db ∧
  match r with
  | Returned secret =>
      ∃ user_id u customer payment_intent,
        jwt_decode W token = Value (Some user_id) ∧
        select_user db user_id = Some u ∧
        Customer_create W (email u) (Endpoint.before_at (email u))
        = Value customer ∧
        PaymentIntent_create W amount description customer
        = Value payment_intent ∧
        secret = pi_client_secret payment_intent
  | Raised e =>
      e = HTTPException 401 ∨ e = HTTPException 500 ∨ e = HTTPException 400 ∨
      e = Exception
  end.
Proof.
  run_handler.
  destruct (Endpoint.nonempty token) eqn:Hne; cbn; [|by settle].
  destruct (jwt_decode W token) as [[id|]| |] eqn:Hd; cbn; [|by settle..].
  destruct (store_error W 0) as [[|]|] eqn:H0; cbn; [by settle..|].
  destruct (select_user db id) as [u|] eqn:Hu; cbn; [|by settle].
  destruct (Customer_create W (email u) (Endpoint.before_at (email u)))
    as [c| |] eqn:Hc; cbn; [|by settle..].
  destruct (PaymentIntent_create W amount description c) as [pi| |] eqn:Hp; cbn;
    [|by settle..].
  split; [done|]. by exists id, u, c, pi.
Qed.

(** The answer of [create_payment_intent] for every token, store and
    Stripe. *)
Lemma create_payment_intent_answer W amount description token db :
  let r := (Endpoint.serve
              (Endpoint.create_payment_intent W amount description token) db).1 in
  match Endpoint.nonempty token, jwt_decode W token with
  | false, _ | true, Error | true, Value None => r = Raised (HTTPException 401)
  | true, Crash => r = Raised Exception
  | true, Value (Some user_id) =>
      match store_error W 0 with
      | Some _ => r = Raised (HTTPException 500)
      | None =>
          match select_user db user_id with
          | None => r = Raised (HTTPException 401)
          | Some u =>
              match Customer_create W (email u) (Endpoint.before_at (email u)) with
              | Error => r = Raised (HTTPException 400)
              | Crash => r = Raised Exception
              | Value customer =>
                  match PaymentIntent_create W amount description customer with
                  | Error => r = Raised (HTTPException 400)
                  | Crash => r = Raised Exception
                  | Value payment_intent =>
                      r = Returned (pi_client_secret payment_intent)
                  end
              end
          end
      end
  end.
Proof.
  run_handler.
  destruct (Endpoint.nonempty token) eqn:Hne; cbn; [|done].
  destruct (jwt_decode W token) as [[id|]| |] eqn:Hd; cbn; [|done..].
  destruct (store_error W 0) as [[|]|] eqn:H0; cbn; [done..|].
  destruct (select_user db id) as [u|] eqn:Hu; cbn; [|done].
  destruct (Customer_create W (email u) (Endpoint.before_at (email u)))
    as [c| |] eqn:Hc; cbn; [|done..].
  destruct (PaymentIntent_create W amount description c) as [pi| |] eqn:Hp; cbn;
    done.
Qed.

Lemma confirm_payment_outcome W payment_intent_id token db :
  let r := (Endpoint.serve
              (Endpoint.confirm_payment W payment_intent_id token) db).1 in
  let db' := (Endpoint.serve
                (Endpoint.confirm_payment W payment_intent_id token) db).2 in
  match r with
  | Returned _ =>
      ∃ user_id payment_intent description,
        jwt_decode W token = Value (Some user_id) ∧
        is_Some (select_user db user_id) ∧
        PaymentIntent_retrieve W payment_intent_id = Value payment_intent ∧
        pi_status payment_intent = "succeeded" ∧
        pi_description payment_intent = Some description ∧
        db' = Http.confirm_payment user_id true (pi_amount payment_intent)
                description (Calendar.datetime_isoformat (clock W 0)) db
  | Raised e =>
      db' = db ∧
      ((e = HTTPException 400 ∧
        PaymentIntent_retrieve W payment_intent_id = Error) ∨
       e = HTTPException 500)
  end.
Proof.
  run_handler.
  destruct (Endpoint.nonempty token) eqn:Hne; cbn; [|by settle].
  destruct (jwt_decode W token) as [[id|]| |] eqn:Hd; cbn; [|by settle..].
  destruct (store_error W 0) as [[|]|] eqn:H0; cbn; [by settle..|].
  destruct (select_user db id) as [u|] eqn:Hu; cbn; [|by settle].
  destruct (PaymentIntent_retrieve W payment_intent_id) as [pi| |] eqn:Hp; cbn;
    [|by settle..].
  destruct (String.eqb (pi_status pi) "succeeded") eqn:Hs; cbn; [|by settle].
  apply String.eqb_eq in Hs.
  destruct (store_error W 1) as [[|]|] eqn:H1; cbn; [by settle..|].
  destruct (pi_description pi) as [description|] eqn:Hdesc; cbn; [|by settle].
  destruct (store_error W 2) as [[|]|] eqn:H2; cbn; [by settle..|].
  exists id, pi, description. repeat split; try done.
  unfold Http.confirm_payment. by rewrite Hu.
Qed.

Lemma update_customer_create_subscription user_id u c db :
  select_user db user_id = Some u →
  str_truthy (stripe_customer_id u) = false →
  Endpoint.update_customer c user_id db = Http.create_subscription user_id c db.
Proof.
  intros Hu Ht. unfold Http.create_subscription. rewrite Hu.
  by destruct (stripe_customer_id u) as [[|]|].
Qed.

Lemma create_subscription_outcome W price_id token db :
  let r := (Endpoint.serve
              (Endpoint.create_subscription W price_id token) db).1 in
  let db' := (Endpoint.serve
                (Endpoint.create_subscription W price_id token) db).2 in
  (match r with
   | Returned _ => True
   | Raised e => e = HTTPException 400 ∨ e = HTTPException 500
   end) ∧
  (db' = db ∨
   ∃ user_id u customer,
     jwt_decode W token = Value (Some user_id) ∧
     select_user db user_id = Some u ∧
     str_truthy (stripe_customer_id u) = false ∧
     Customer_create W (email u) (Endpoint.before_at (email u)) = Value customer ∧
     db' = Http.create_subscription user_id customer db).
Proof.
  run_handler.
  destruct (Endpoint.nonempty token) eqn:Hne; cbn; [|by settle].
  destruct (jwt_decode W token) as [[id|]| |] eqn:Hd; cbn; [|by settle..].
  destruct (store_error W 0) as [[|]|] eqn:H0; cbn; [by settle..|].
  destruct (select_user db id) as [u|] eqn:Hu; cbn; [|by settle].
  destruct (str_truthy (stripe_customer_id u)) eqn:Ht; cbn.
  - destruct (Customer_retrieve W _) as [c| |]; cbn; [|by settle..].
    destruct (Subscription_create W c price_id (clock W 0)) as [?| |]; cbn;
      by settle.
  - destruct (Customer_create W (email u) (Endpoint.before_at (email u)))
      as [c| |] eqn:Hc; cbn; [|by settle..].
    destruct (store_error W 1) as [[|]|] eqn:H1; cbn; [by settle..|].
    destruct (store_error W 2) as [[|]|] eqn:H2; cbn; [by settle..|].
    rewrite (update_customer_create_subscription id u c db Hu Ht).
    destruct (Subscription_create W c price_id (clock W 0)) as [?| |]; cbn;
      (split; [by settle|]); right; by exists id, u, c.
Qed.


Lemma select_chart_since db user_id now since t b :
  Calendar.minus_days now 90 = Some since →
  valid_datetime t →
  (date_isoformat t, b)
    ∈ Endpoint.select_chart db user_id (date_isoformat since) ↔
  window db user_id (date_isoformat t) = Some b ∧
  ymd2ord (year now) (month now) (day now) - 90
  <= ymd2ord (year t) (month t) (day t).
Proof.
  intros Hsince (Hy & Hm & Hd & _).
  destruct (minus_days_spec now 90 since Hsince) as (Hys & Hms & Hds & Hord).
  pose proof (days_in_month_pos (year since) (month since) Hms).
  pose proof (days_in_month_pos (year t) (month t) Hm).
  rewrite select_chart_spec, leb_date_isoformat by lia.
  rewrite ymd2ord_date_le by done. by rewrite Hord.
Qed.

Lemma select_new_user e h db :
  Endpoint.select_user_by_email db e = None →
  Endpoint.select_user_by_email (Http.signup e h db) e
  = Some (mk_user (next_user_id db) e h None 0).
Proof.
  intros Hfree. pose proof (insert_user_signup e h db Hfree) as Hins.
  unfold Endpoint.insert_user in Hins.
  destruct (existsb _ (users db)); [done|]. injection Hins as <-.
  unfold Endpoint.select_user_by_email in *. cbn [users].
  rewrite find_snoc, Hfree. cbn [email]. by rewrite String.eqb_refl.
Qed.

Lemma login_succeeds W e p u token db :
  store_error W 0 = None →
  Endpoint.select_user_by_email db e = Some u →
  pwd_verify W p (password u) = Value true →
  jwt_encode W e (u_id u) (clock W 0) 30 = Value token →
  Endpoint.serve (Endpoint.login W e p) db = (Returned token, db).
Proof.
  intros H0 Hu Hp Ht. run_handler. rewrite H0. cbn. rewrite Hu. cbn.
  rewrite Hp. cbn. by rewrite Ht.
Qed.

Lemma database_after_is_a_request W c db :
  ∃ r, Api.database_after W c db = handle r db.
Proof.
  destruct c as [e p|e p|t|t|a d t|i t|p t]; cbn [Api.database_after].
  - destruct (signup_outcome W e p db) as (_ & [->|(h & _ & ->)] & _).
    + by exists (Login e).
    + by exists (Signup e h).
  - destruct (login_outcome W e p db) as [-> _]. by exists (Login e).
  - destruct (get_dashboard_outcome W t db) as [-> _]. by exists (Login "").
  - pose proof (connect_instagram_outcome W t db) as H. cbv zeta in H.
    destruct (Endpoint.serve (Endpoint.connect_instagram W t) db) as [[[]|exc] db'];
      cbn [fst snd] in *.
    + destruct H as (u & _ & ->). by exists (Connect_instagram u).
    + destruct H as [-> _]. by exists (Login "").
  - destruct (create_payment_intent_outcome W a d t db) as [-> _].
    by exists (Login "").
  - pose proof (confirm_payment_outcome W i t db) as H. cbv zeta in H.
    destruct (Endpoint.serve (Endpoint.confirm_payment W i t) db) as [[[]|exc] db'];
      cbn [fst snd] in *.
    + destruct H as (u & pi & desc & _ & _ & _ & _ & _ & ->).
      by eexists (Confirm_payment u true _ _ _).
    + destruct H as [-> _]. by exists (Login "").
  - destruct (create_subscription_outcome W p t db)
      as (_ & [->|(u & r & c & _ & _ & _ & _ & ->)]).
    + by exists (Login "").
    + by exists (Create_subscription u c).
Qed.

Lemma ymd2ord_upper t :
  valid_datetime t →
  1 <= ymd2ord (year t) (month t) (day t) <= Calendar.MAXORDINAL.
Proof.
  intros (Hy & Hm & Hd & _). unfold ymd2ord, Calendar.MAXORDINAL.
  pose proof (days_before_month_bounds (year t) (month t) Hm) as [Hlo Hhi].
  pose proof (days_before_year_succ (year t)) as Hsucc.
  pose proof (days_before_year_mono (year t + 1) (9999 - year t) ltac:(lia))
    as Hmono.
  replace (year t + 1 + (9999 - year t)) with 10000 in Hmono by lia.
  change (days_before_year 10000) with 3652059 in Hmono.
  pose proof (days_before_year_mono 1 (year t - 1) ltac:(lia)) as Hmono1.
  replace (1 + (year t - 1)) with (year t) in Hmono1 by lia.
  change (days_before_year 1) with 0 in Hmono1.
  destruct (is_leap (year t)); lia.
Qed.

Lemma get_dashboard_succeeds W token user_id u db :
  Endpoint.nonempty token = true →
  jwt_decode W token = Value (Some user_id) →
  (∀ n, (n < 5)%nat → store_error W n = None) →
  select_user db user_id = Some u →
  valid_datetime (clock W 0) →
  91 <= ymd2ord (year (clock W 0)) (month (clock W 0)) (day (clock W 0)) →
  ∃ out, Endpoint.serve (Endpoint.get_dashboard W token) db = (Returned out, db).
Proof.
  intros Hne Hd Hs Hu Hv H91. run_handler. rewrite Hne. cbn. rewrite Hd. cbn.
  rewrite (Hs 0%nat) by lia. cbn. rewrite Hu. cbn.
  rewrite (Hs 1%nat) by lia. cbn. rewrite (Hs 2%nat) by lia. cbn.
  rewrite (Hs 3%nat) by lia. cbn. rewrite Hu. cbn.
  pose proof (ymd2ord_upper (clock W 0) Hv) as Hup.
  unfold Calendar.minus_days.
  replace ((0 <? _) && (_ <=? Calendar.MAXORDINAL)) with true
    by (symmetry; apply andb_true_iff; split;
        [apply Z.ltb_lt|apply Z.leb_le]; lia).
  destruct (Calendar.ord2ymd _) as [[y m] d]. cbn.
  rewrite (Hs 4%nat) by lia. cbn. by eexists.
Qed.

(** * Properties of the handlers *)

(** X18.  [verify_token] returns the id in the payload of a non-empty token
    that [jwt.decode] accepts.  An empty token, a JWTError and a payload
    without id all end in HTTPException 401; only an exception of another
    class raised inside [jwt.decode] passes through unchanged.  The
    connection is not touched. *)
Theorem verify_token_rejects_with_401 (W : World) (token : string) (c : conn) :
  let r := (Endpoint.verify_token W token c).1 in
  (Endpoint.verify_token W token c).2 = c ∧
  match r with
  | Returned user_id =>
      Endpoint.nonempty token = true ∧ jwt_decode W token = Value (Some user_id)
  | Raised e =>
      (e = HTTPException 401 ∧
       (Endpoint.nonempty token = false ∨ jwt_decode W token = Error ∨
        jwt_decode W token = Value None)) ∨
      (e = Exception ∧ Endpoint.nonempty token = true ∧ jwt_decode W token = Crash)
  end.
Proof. apply verify_token_outcome. Qed.

(** X19.  [signup] answers with its message or with HTTPException 500 and
    nothing else: the HTTPException 400 it raises for a registered email is
    caught by its own [except Exception] and sent as 500, with the database
    unchanged.  Whatever fails, the database afterwards is the one before
    or the one with the new user; when the handler returns, the email was
    free and the user has been inserted with the hash of the password. *)
Theorem signup_answers_200_or_500 (W : World) (e p : string) (db : DB) :
  let r := (Endpoint.serve (Endpoint.signup W e p) db).1 in
  let db' := (Endpoint.serve (Endpoint.signup W e p) db).2 in
  (r = Returned tt ∨ r = Raised (HTTPException 500)) ∧
  (db' = db ∨ ∃ h, pwd_hash W p = Value h ∧ db' = Http.signup e h db) ∧
  (r = Returned tt →
     Endpoint.select_user_by_email db e = None ∧
     ∃ h, pwd_hash W p = Value h ∧ db' = Http.signup e h db) ∧
  (Endpoint.select_user_by_email db e ≠ None →
     r = Raised (HTTPException 500) ∧ db' = db).
Proof. apply signup_outcome. Qed.

(** X20.  Signup, then login.  With a free email, a store that serves the
    operations and a password that verifies against its hash, [signup]
    returns and creates the user with the next id, and a [login] with the
    same email and password then returns the token encoded for that id
    and email, expiring after 30 minutes; [login] writes nothing. *)
Theorem signup_then_login
    (W W' : World) (e p h token : string) (db : DB) :
  Endpoint.select_user_by_email db e = None →
  pwd_hash W p = Value h →
  (∀ n, (n < 4)%nat → store_error W n = None) →
  store_error W' 0 = None →
  pwd_verify W' p h = Value true →
  jwt_encode W' e (next_user_id db) (clock W' 0) 30 = Value token →
  let db1 := Http.signup e h db in
  Endpoint.serve (Endpoint.signup W e p) db = (Returned tt, db1) ∧
  Endpoint.select_user_by_email db1 e
  = Some (mk_user (next_user_id db) e h None 0) ∧
  Endpoint.serve (Endpoint.login W' e p) db1 = (Returned token, db1).
Proof.
  intros Hfree Hh Hs H0 Hp Ht db1.
  split; [by apply signup_succeeds|].
  split; [by apply select_new_user|].
  apply (login_succeeds W' e p (mk_user (next_user_id db) e h None 0));
    [done|by apply select_new_user|done..].
Qed.

Lemma signup_then_login_witness :
  let db1 := Http.signup "a@example.com" "bcrypt:pw" (Scenario.one_user 7 None) in
  Endpoint.serve (Endpoint.signup Api.quiet "a@example.com" "pw")
                 (Scenario.one_user 7 None)
  = (Returned tt, db1) ∧
  Endpoint.select_user_by_email db1 "a@example.com"
  = Some (mk_user (next_user_id (Scenario.one_user 7 None))
                  "a@example.com" "bcrypt:pw" None 0) ∧
  Endpoint.serve (Endpoint.login Api.quiet "a@example.com" "pw") db1
  = (Returned "token-1", db1).
Proof.
  apply (signup_then_login Api.quiet Api.quiet "a@example.com" "pw"
           "bcrypt:pw" "token-1" (Scenario.one_user 7 None)).
  - reflexivity.
  - reflexivity.
  - intros n Hn. reflexivity.
  - reflexivity.
  - reflexivity.
  - reflexivity.
Defined.

(** X21.  [login] writes nothing and answers with a token or with
    HTTPException 500 and nothing else: the HTTPException 401 it raises
    for an unknown email or a wrong password is caught by its own
    [except Exception] and sent as 500.  A token is returned only for a
    registered email whose stored hash verifies the password; it is the
    one encoded for the user's email and id with 30 minutes to live. *)
Theorem login_answers_200_or_500 (W : World) (e p : string) (db : DB) :
  let r := (Endpoint.serve (Endpoint.login W e p) db).1 in
  let db' := (Endpoint.serve (Endpoint.login W e p) db).2 in
  db' = db ∧
  match r with
  | Returned token =>
      store_error W 0 = None ∧
      ∃ u, Endpoint.select_user_by_email db e = Some u ∧
           pwd_verify W p (password u) = Value true ∧
           jwt_encode W e (u_id u) (clock W 0) 30 = Value token
  | Raised exc => exc = HTTPException 500
  end.
Proof. apply login_outcome. Qed.

(** X22.  [get_dashboard] writes nothing and answers with the dashboard
    or with HTTPException 500 and nothing else: the 401 of a rejected
    token or of an unknown user is sent as 500.  The dashboard returned is
    that of the user of the token: id, email, connected iff any account
    row is connected, the non-empty usernames, the payments, the lifetime
    counter, and the daily rows from the date 90 days before the clock.
    The usernames and the daily rows come in the order of the primary keys
    they are read through: ascending usernames, ascending dates; the
    payments come in the order of the table.  The dashboard is returned
    whenever the token is accepted, the user exists, the store serves the
    five queries and the clock is at least 90 days after 0001-01-01. *)
Theorem get_dashboard_answers_200_or_500 (W : World) (token : string) (db : DB) :
  let r := (Endpoint.serve (Endpoint.get_dashboard W token) db).1 in
  let db' := (Endpoint.serve (Endpoint.get_dashboard W token) db).2 in
  db' = db ∧
  match r with
  | Returned out =>
      ∃ user_id u t,
        jwt_decode W token = Value (Some user_id) ∧
        select_user db user_id = Some u ∧
        Calendar.minus_days (clock W 0) 90 = Some t ∧
        out = Endpoint.mk_UserOut user_id (email u)
                (dashboard_instagram_connected db user_id)
                (map username
                   (filter (fun a => Is_true (Endpoint.nonempty (username a)))
                      (Endpoint.select_accounts db user_id)))
                (Endpoint.select_payments db user_id)
                (blocked_count u)
                (Endpoint.select_chart db user_id (date_isoformat t))
  | Raised e => e = HTTPException 500
  end ∧
  (∀ user_id u,
     Endpoint.nonempty token = true →
     jwt_decode W token = Value (Some user_id) →
     (∀ n, (n < 5)%nat → store_error W n = None) →
     select_user db user_id = Some u →
     valid_datetime (clock W 0) →
     91 <= ymd2ord (year (clock W 0)) (month (clock W 0)) (day (clock W 0)) →
     ∃ out, r = Returned out) ∧
  (∀ out, r = Returned out →
     ascending (fun name => name) (Endpoint.instagram_accounts out) ∧
     ascending fst (Endpoint.chart_data out) ∧
     Endpoint.out_payment_history out
     = map (fun p => (amount_cents p, package p, p_date p))
           (filter (fun p => p_user_id p = Endpoint.out_id out)
              (payment_history db))).
Proof.
  split; [apply get_dashboard_outcome|].
  split; [apply get_dashboard_outcome|].
  split.
  { intros user_id u Hne Hd Hs Hu Hv H91.
    destruct (get_dashboard_succeeds W token user_id u db Hne Hd Hs Hu Hv H91)
      as [out Hout].
    exists out. by rewrite Hout. }
  intros out Hout.
  destruct (get_dashboard_outcome W token db) as [_ Hr]. cbv zeta in Hr.
  rewrite Hout in Hr. destruct Hr as (user_id & u & t & _ & _ & Ht & ->).
  cbn [Endpoint.instagram_accounts Endpoint.chart_data
       Endpoint.out_payment_history Endpoint.out_id].
  split; [|split].
  - apply ascending_map, ascending_filter.
    unfold Endpoint.select_accounts. apply index_order_ascending.
  - unfold Endpoint.select_chart. apply index_order_ascending.
  - done.
Qed.

(** X23.  The chart of the dashboard holds exactly the daily rows of the
    user of the last 90 days: the row of a calendar day is in the chart
    iff the user has a row for that day and the day is at most 90 days
    before the day of the clock.  The query compares the dates as text;
    on ISO dates that is the order of the calendar. *)
Theorem dashboard_chart_covers_the_last_90_days
    (W : World) (token : string) (db : DB) (out : Endpoint.UserOut)
    (t : datetime) (b : Z) :
  valid_datetime t →
  (Endpoint.serve (Endpoint.get_dashboard W token) db).1 = Returned out →
  (date_isoformat t, b) ∈ Endpoint.chart_data out ↔
  window db (Endpoint.out_id out) (date_isoformat t) = Some b ∧
  ymd2ord (year (clock W 0)) (month (clock W 0)) (day (clock W 0)) - 90
  <= ymd2ord (year t) (month t) (day t).
Proof.
  intros Ht Hr.
  destruct (get_dashboard_outcome W token db) as [_ Hout]. cbv zeta in Hout.
  rewrite Hr in Hout. destruct Hout as (user_id & u & since & _ & _ & Hs & ->).
  cbn [Endpoint.chart_data Endpoint.out_id].
  by apply select_chart_since.
Qed.

Lemma dashboard_chart_covers_the_last_90_days_witness :
  let db := Scenario.one_user 7 (Some 50) in
  let r := (Endpoint.serve (Endpoint.get_dashboard Api.quiet "token-1") db).1 in
  ∃ out, r = Returned out ∧
    (("2026-10-12", 50) ∈ Endpoint.chart_data out ↔
     window db (Endpoint.out_id out) "2026-10-12" = Some 50 ∧
     ymd2ord 2026 10 12 - 90 <= ymd2ord 2026 10 12).
Proof.
  eexists. split; [vm_compute; reflexivity|].
  apply (dashboard_chart_covers_the_last_90_days Api.quiet "token-1"
           (Scenario.one_user 7 (Some 50)) _ (Scenario.oct12 0 0 0) 50).
  - unfold valid_datetime. cbn. lia.
  - vm_compute. reflexivity.
Defined.

(** X24.  [connect_instagram] checks the token and nothing else.  It
    returns only after committing the connected account row of the id in
    the token, whether or not that id has a row in [users]; a rejected
    token is answered 401, an OperationalError 500, and a store error of
    another class or an exception inside [jwt.decode] leaves the handler
    as it is; in all these cases the database is unchanged.  The last
    part gives the answer to every request: 401 exactly for a token that
    is empty, that [jwt.decode] refuses or that carries no id; the
    exception of [jwt.decode] when it raises another one; for an accepted
    token, 500 exactly when the INSERT OR REPLACE or, after it, the commit
    raises an OperationalError, the sqlite3 error itself when it is of
    another class, and the return when both are served. *)
Theorem connect_instagram_checks_the_token_only
    (W : World) (token : string) (db : DB) :
  let r := (Endpoint.serve (Endpoint.connect_instagram W token) db).1 in
  let db' := (Endpoint.serve (Endpoint.connect_instagram W token) db).2 in
  match r with
  | Returned _ =>
      ∃ user_id, jwt_decode W token = Value (Some user_id) ∧
                 db' = Http.connect_instagram user_id db
  | Raised e =>
      db' = db ∧
      (e = HTTPException 401 ∨ e = HTTPException 500 ∨ e = DatabaseError ∨
       e = Exception)
  end ∧
  (∀ user_id,
     Endpoint.nonempty token = true →
     jwt_decode W token = Value (Some user_id) →
     store_error W 0 = None → store_error W 1 = None →
     r = Returned tt ∧ db' = Http.connect_instagram user_id db) ∧
  match Endpoint.nonempty token, jwt_decode W token with
  | false, _ | true, Error | true, Value None =>
      r = Raised (HTTPException 401) ∧ db' = db
  | true, Crash => r = Raised Exception ∧ db' = db
  | true, Value (Some user_id) =>
      match store_error W 0, store_error W 1 with
      | Some Operational, _ | None, Some Operational =>
          r = Raised (HTTPException 500) ∧ db' = db
      | Some Other_class, _ | None, Some Other_class =>
          r = Raised DatabaseError ∧ db' = db
      | None, None =>
          r = Returned tt ∧ db' = Http.connect_instagram user_id db
      end
  end.
Proof.
  split; [apply connect_instagram_outcome|].
  split; [|apply connect_instagram_answer].
  intros user_id Hne Hd H0 H1.
  by rewrite (connect_instagram_succeeds W token user_id db Hne Hd H0 H1).
Qed.



(** X27.  [create_payment_intent] never writes.  It returns the client
    secret of the payment intent Stripe created for a customer created
    for the email of the known user of the token; a rejected token or an
    unknown user is answered 401, a store error 500, a StripeError 400.
    The last part gives the answer to every request, in the order of the
    checks: 401 for a token that is empty, refused by [jwt.decode] or
    without an id; for an accepted token, 500 when the query of the user
    raises a sqlite3 error and 401 when it finds no row; then 400 when
    [stripe.Customer.create] or, after it, [stripe.PaymentIntent.create]
    raises a StripeError; an exception of another class from [jwt.decode]
    or from Stripe leaves the handler as it is. *)
Theorem create_payment_intent_never_writes
    (W : World) (amount : Z) (description token : string) (db : DB) :
  let r := (Endpoint.serve
              (Endpoint.create_payment_intent W amount description token) db).1 in
  let db' := (Endpoint.serve
                (Endpoint.create_payment_intent W amount description token) db).2 in
  db' = db ∧
  match r with
  | Returned secret =>
      ∃ user_id u customer payment_intent,
        jwt_decode W token = Value (Some user_id) ∧
        select_user db user_id = Some u ∧
        Customer_create W (email u) (Endpoint.before_at (email u))
        = Value customer ∧
        PaymentIntent_create W amount description customer
        = Value payment_intent ∧
        secret = pi_client_secret payment_intent
  | Raised e =>
      e = HTTPException 401 ∨ e = HTTPException 500 ∨ e = HTTPException 400 ∨
      e = Exception
  end ∧
  match Endpoint.nonempty token, jwt_decode W token with
  | false, _ | true, Error | true, Value None => r = Raised (HTTPException 401)
  | true, Crash => r = Raised Exception
  | true, Value (Some user_id) =>
      match store_error W 0 with
      | Some _ => r = Raised (HTTPException 500)
      | None =>
          match select_user db user_id with
          | None => r = Raised (HTTPException 401)
          | Some u =>
              match Customer_create W (email u) (Endpoint.before_at (email u)) with
              | Error => r = Raised (HTTPException 400)
              | Crash => r = Raised Exception
              | Value customer =>
                  match PaymentIntent_create W amount description customer with
                  | Error => r = Raised (HTTPException 400)
                  | Crash => r = Raised Exception
                  | Value payment_intent =>
                      r = Returned (pi_client_secret payment_intent)
                  end
              end
          end
      end
  end.
Proof.
  destruct (create_payment_intent_outcome W amount description token db)
    as [Hdb Hr].
  split; [exact Hdb|]. split; [exact Hr|].
  apply create_payment_intent_answer.
Qed.

(** X28.  Whatever a handler is called with and whatever fails while it is
    served, the database file afterwards is the one a single request of
    the application's event model leaves: nothing is ever half written.
    So the states the handlers reach from the empty database, between any
    turns of the background task, are well formed. *)
Theorem handlers_commit_whole_requests
    (W : World) (c : Api.api_call) (db : DB) :
  (∃ r, Api.database_after W c db = handle r db) ∧
  (api_state db → api_state (Api.database_after W c db)).
Proof.
  destruct (database_after_is_a_request W c db) as [r Hr].
  split; [by exists r|]. rewrite Hr. apply api_state_handle.
Qed.

(** * The scripts *)

Import Schema.

Ltac run_script_body :=
  cbv [Script.run_script Script.init_db Script.update_database
       Script.create_if_missing Script.table_exists Script.table_info
       Script.select Script.ddl Script.dml Script.commit Script.statement
       Script.ensure_directory Script.connect Script.close Script.tick
       try_except_finally Schema.bind Schema.ret Schema.raise
       mbind mret S_bind S_ret is_sqlite3_Error
       on_disk seen in_transaction executed conn_bound].

Lemma init_db_without_connection W f :
  (dir_exists W = false ∧ makedirs_error W = true) ∨ connect_error W = true →
  Script.run_script (Script.init_db W) f = (Raised UnboundLocalError, f).
Proof.
  intros H. run_script_body.
  destruct (dir_exists W), (makedirs_error W), (connect_error W);
    cbn; try done; by destruct H as [[? ?]|?].
Qed.

Lemma update_database_without_connection W f :
  (dir_exists W = false ∧ makedirs_error W = true) ∨ connect_error W = true →
  Script.run_script (Script.update_database W) f = (Raised UnboundLocalError, f).
Proof.
  intros H. run_script_body.
  destruct (dir_exists W), (makedirs_error W), (connect_error W);
    cbn; try done; by destruct H as [[? ?]|?].
Qed.

Lemma step_create_if_missing W name cols s :
  Script.serves W → Script.coherent s →
  Script.step_to (Script.create_if_missing W name cols) s
          (Script.ensure_table name cols (seen s)).
Proof.
  intros (_ & _ & He) Hco. unfold Script.coherent in Hco.
  unfold Script.step_to, Script.coherent, Script.tick, Script.create_if_missing, Script.table_exists, Script.select,
    Script.ddl, Script.statement, Script.ensure_table, Script.create_table.
  cbv [mbind S_bind Schema.bind]. rewrite He. cbn.
  destruct (columns_of (seen s) !! name) as [c|] eqn:Hl; cbn.
  - eexists. split; [done|]. destruct s; cbn in *. by repeat split.
  - rewrite He, Hl. eexists. split; [done|]. cbn.
    destruct (in_transaction s) eqn:Ht; by repeat split.
Qed.

Lemma step_then (m1 m2 : Run unit) s f1 f2 :
  Script.step_to m1 s f1 →
  (∀ s1, Script.coherent s1 → seen s1 = f1 → Script.step_to m2 s1 f2) →
  Script.step_to (m1;; m2) s f2.
Proof.
  intros (s1 & H1 & Hco1 & Hs1 & Hb1) H2.
  destruct (H2 s1 Hco1 Hs1) as (s2 & H2' & Hco2 & Hs2 & Hb2).
  exists s2. cbv [mbind S_bind Schema.bind]. rewrite H1.
  repeat split; try done. congruence.
Qed.

Lemma step_users W s :
  Script.serves W → Script.coherent s →
  Script.step_to
    (found ← Script.table_exists W "users";
     if negb found
     then Script.ddl W (Script.create_table "users" Script.users_columns)
     else
       columns ← Script.table_info W "users";
       if bool_decide ("blocked_count" ∈ columns) then Schema.ret tt
       else Script.ddl W (Script.add_column "users" "blocked_count"
                            Script.default_blocked_count))
    s
    (Script.ensure_column "users" "blocked_count" Script.default_blocked_count
       (Script.ensure_table "users" Script.users_columns (seen s))).
Proof.
  intros (_ & _ & He) Hco. unfold Script.coherent in Hco.
  unfold Script.step_to, Script.coherent, Script.tick, Script.table_exists,
    Script.table_info, Script.select, Script.ddl, Script.statement,
    Script.ensure_table, Script.ensure_column, Script.create_table,
    Script.add_column.
  cbv [mbind S_bind Schema.bind Schema.ret]. rewrite He. cbn.
  destruct (columns_of (seen s) !! "users") as [c|] eqn:Hl; cbn.
  - rewrite He. cbn. rewrite Hl. cbn.
    destruct (bool_decide ("blocked_count" ∈ c)) eqn:Hc; cbn.
    + eexists. split; [done|]. destruct s; cbn in *. by repeat split.
    + rewrite He, Hl, Hc. eexists. split; [done|]. cbn.
      destruct (in_transaction s); by repeat split.
  - rewrite He, Hl. cbn. rewrite lookup_insert_eq. cbn.
    eexists. split; [done|]. cbn.
    destruct (in_transaction s); by repeat split.
Qed.

Lemma step_commit W s :
  Script.serves W →
  ∃ s', Script.commit W s = (Returned tt, s') ∧ on_disk s' = seen s ∧
        seen s' = seen s ∧ conn_bound s' = conn_bound s.
Proof.
  intros (_ & _ & He). unfold Script.commit, Script.statement. rewrite He.
  by eexists.
Qed.

Lemma script_bind_assoc {A} (m : Run A) (k : A → Run unit) (rest : Run unit) s :
  (x ← m; k x;; rest) s = ((x ← m; k x);; rest) s.
Proof.
  cbv [mbind S_bind Schema.bind]. by destruct (m s) as [[a|e] s'].
Qed.

Lemma step_then_commit W (m : Run unit) s f' :
  Script.serves W →
  Script.step_to m s f' →
  ∃ s', (m;; Script.commit W) s = (Returned tt, s') ∧ on_disk s' = f' ∧
        conn_bound s' = conn_bound s.
Proof.
  intros Hs (s1 & H1 & _ & Hs1 & Hb1).
  destruct (step_commit W s1 Hs) as (s2 & H2 & Hd2 & _ & Hb2).
  exists s2. cbv [mbind S_bind Schema.bind]. rewrite H1.
  repeat split; congruence.
Qed.

Lemma script_bind_assoc' (m1 m2 m3 : Run unit) s :
  (m1;; m2;; m3) s = ((m1;; m2);; m3) s.
Proof.
  cbv [mbind S_bind Schema.bind]. by destruct (m1 s) as [[a|e] s'].
Qed.

Lemma served_start W f :
  Script.serves W →
  (Script.ensure_directory W;; Script.connect W) (mk_session f f false 0 false)
  = (Returned tt, mk_session f f false 0 true).
Proof.
  intros (Hd & Hc & _).
  unfold Script.ensure_directory, Script.connect.
  cbv [mbind S_bind Schema.bind Schema.ret Schema.raise]. 
  destruct (dir_exists W) eqn:E1; [|destruct (makedirs_error W) eqn:E2;
    [by destruct Hd|]]; cbn; by rewrite Hc.
Qed.

Lemma script_seq {A} (m1 : Run unit) (m2 : Run A) s s1 :
  m1 s = (Returned tt, s1) → (m1;; m2) s = m2 s1.
Proof. intros H. cbv [mbind S_bind Schema.bind]. by rewrite H. Qed.

Lemma step_create_after W name cols (m : Run unit) s f1 :
  Script.serves W →
  Script.step_to m s f1 →
  Script.step_to (m;; Script.create_if_missing W name cols) s
                 (Script.ensure_table name cols f1).
Proof.
  intros Hs H1. apply (step_then _ _ _ f1); [done|].
  intros s1 Hco1 <-. by apply step_create_if_missing.
Qed.

Lemma close_bound s :
  conn_bound s = true →
  ∃ s', Script.close s = (Returned tt, s') ∧ on_disk s' = on_disk s.
Proof. intros Hb. unfold Script.close. rewrite Hb. by eexists. Qed.

Lemma init_db_served W f :
  Script.serves W →
  Script.run_script (Script.init_db W) f = (Returned tt, Script.prepared f).
Proof.
  intros Hs. unfold Script.run_script, Script.init_db, try_except_finally.
  set (s0 := mk_session f f false 0 false).
  set (body := (_ ;; _ : Run unit)).
  assert (Hbody : ∃ s', body s0 = (Returned tt, s') ∧
                        on_disk s' = Script.prepared f ∧ conn_bound s' = true).
  { subst body.
    rewrite script_bind_assoc'.
    rewrite (script_seq _ _ _ _ (served_start W f Hs)).
    rewrite script_bind_assoc. rewrite !script_bind_assoc'.
    apply (step_then_commit W); [done|].
    do 3 (apply step_create_after; [done|]).
    by apply step_users. }
  destruct Hbody as (s1 & -> & Hd & Hb).
  destruct (close_bound s1 Hb) as (s2 & -> & Hd2). by rewrite Hd2, Hd.
Qed.

Lemma set_is_connected_twice v v' db :
  Script.set_is_connected v (Script.set_is_connected v' db)
  = Script.set_is_connected v db.
Proof.
  unfold Script.set_is_connected. cbn. f_equal.
  rewrite map_map. by apply map_ext.
Qed.

Lemma step_accounts W s :
  Script.serves W → Script.coherent s →
  Script.step_to
    (found ← Script.table_exists W "accounts";
     if negb found
     then Script.ddl W (Script.create_table "accounts" Script.accounts_columns)
     else
       columns ← Script.table_info W "accounts";
       if bool_decide ("is_connected" ∈ columns) then Schema.ret tt
       else
         Script.ddl W (Script.add_column "accounts" "is_connected"
                         (Script.set_is_connected None));;
         Script.dml W (fun f => mk_file (columns_of f)
                         (Script.set_is_connected (Some 0) (rows f))))
    s
    (Script.ensure_column "accounts" "is_connected"
       (Script.set_is_connected (Some 0))
       (Script.ensure_table "accounts" Script.accounts_columns (seen s))).
Proof.
  intros (_ & _ & He) Hco. unfold Script.coherent in Hco.
  unfold Script.step_to, Script.coherent, Script.tick, Script.table_exists,
    Script.table_info, Script.select, Script.ddl, Script.dml, Script.statement,
    Script.ensure_table, Script.ensure_column, Script.create_table,
    Script.add_column.
  cbv [mbind S_bind Schema.bind Schema.ret]. rewrite He. cbn.
  destruct (columns_of (seen s) !! "accounts") as [c|] eqn:Hl; cbn.
  - rewrite He. cbn. rewrite Hl. cbn.
    destruct (bool_decide ("is_connected" ∈ c)) eqn:Hc; cbn.
    + eexists. split; [done|]. destruct s; cbn in *. by repeat split.
    + rewrite He, Hl, Hc. cbn. rewrite He. cbn.
      rewrite set_is_connected_twice.
      eexists. split; [done|]. by repeat split.
  - rewrite He, Hl. cbn. rewrite lookup_insert_eq. cbn.
    eexists. split; [done|]. cbn.
    destruct (in_transaction s); by repeat split.
Qed.

Lemma step_then_finish (m fin : Run unit) s f' :
  Script.step_to m s f' →
  (∀ s1, ∃ s', fin s1 = (Returned tt, s') ∧ on_disk s' = seen s1 ∧
               conn_bound s' = conn_bound s1) →
  ∃ s', (m;; fin) s = (Returned tt, s') ∧ on_disk s' = f' ∧
        conn_bound s' = conn_bound s.
Proof.
  intros (s1 & H1 & _ & Hs1 & Hb1) Hfin.
  destruct (Hfin s1) as (s2 & H2 & Hd2 & Hb2).
  exists s2. cbv [mbind S_bind Schema.bind]. rewrite H1.
  repeat split; congruence.
Qed.

Lemma update_database_served W f :
  Script.serves W →
  Script.run_script (Script.update_database W) f
  = (Returned tt, Script.migrated f).
Proof.
  intros Hs. unfold Script.run_script, Script.update_database, try_except_finally.
  set (s0 := mk_session f f false 0 false).
  set (body := (_ ;; _ : Run unit)).
  assert (Hbody : ∃ s', body s0 = (Returned tt, s') ∧
                        on_disk s' = Script.migrated f ∧ conn_bound s' = true).
  { subst body.
    rewrite script_bind_assoc'.
    rewrite (script_seq _ _ _ _ (served_start W f Hs)).
    destruct (step_create_if_missing W "users" Script.users_columns_of_db_py
                (mk_session f f false 0 true) Hs ltac:(done))
      as (s1 & H1 & Hco1 & Hs1 & Hb1).
    rewrite (script_seq _ _ _ _ H1).
    rewrite script_bind_assoc. rewrite !script_bind_assoc'.
    match goal with
    | |- ∃ s', ?t s1 = _ ∧ _ =>
        assert (∃ s', t s1 = (Returned tt, s') ∧
                  on_disk s'
                  = Script.ensure_table "payment_history"
                      Script.payment_history_columns
                      (Script.ensure_table "blocked_accounts"
                         Script.blocked_accounts_columns
                         (Script.ensure_column "accounts" "is_connected"
                            (Script.set_is_connected (Some 0))
                            (Script.ensure_table "accounts"
                               Script.accounts_columns (seen s1)))) ∧
                  conn_bound s' = conn_bound s1) as (s' & E & D & B)
    end.
    { apply step_then_finish.
      - do 2 (apply step_create_after; [done|]). by apply step_accounts.
      - intros s2. destruct Hs as (_ & _ & He).
        unfold Script.table_info, Script.select, Script.commit, Script.statement.
        cbv [mbind S_bind Schema.bind]. rewrite ?He. cbn. rewrite ?He. cbn.
        rewrite ?He. by eexists. }
    cbn in Hb1, Hs1. exists s'. split; [done|]. split; [|congruence].
    rewrite D, Hs1. done. }
  destruct Hbody as (s1 & -> & Hd & Hb).
  destruct (close_bound s1 Hb) as (s2 & -> & Hd2). by rewrite Hd2, Hd.
Qed.

Lemma ensure_table_lookup name cols f name' :
  columns_of (Script.ensure_table name cols f) !! name'
  = if decide (name' = name)
    then Some (default cols (columns_of f !! name))
    else columns_of f !! name'.
Proof.
  unfold Script.ensure_table.
  destruct (columns_of f !! name) as [c|] eqn:Hl; cbn.
  - destruct (decide (name' = name)) as [->|]; by rewrite ?Hl.
  - destruct (decide (name' = name)) as [->|].
    + by rewrite lookup_insert_eq.
    + by rewrite lookup_insert_ne.
Qed.

Lemma ensure_table_rows name cols f :
  rows (Script.ensure_table name cols f) = rows f.
Proof. unfold Script.ensure_table. by destruct (columns_of f !! name). Qed.

Lemma ensure_table_present name cols f :
  is_Some (columns_of f !! name) → Script.ensure_table name cols f = f.
Proof. intros [c Hc]. unfold Script.ensure_table. by rewrite Hc. Qed.

Lemma ensure_column_lookup name col on_rows f name' :
  columns_of (Script.ensure_column name col on_rows f) !! name'
  = if decide (name' = name)
    then (fun cols => if bool_decide (col ∈ cols) then cols
                      else (cols ++ [col])%list) <$> columns_of f !! name
    else columns_of f !! name'.
Proof.
  unfold Script.ensure_column.
  destruct (columns_of f !! name) as [c|] eqn:Hl; cbn.
  - destruct (bool_decide (col ∈ c)) eqn:Hc; cbn.
    + destruct (decide (name' = name)) as [->|]; [|done]. by rewrite Hl.
    + destruct (decide (name' = name)) as [->|].
      * by rewrite lookup_insert_eq.
      * by rewrite lookup_insert_ne.
  - destruct (decide (name' = name)) as [->|]; by rewrite ?Hl.
Qed.

Lemma ensure_column_present name col on_rows f cols :
  columns_of f !! name = Some cols → col ∈ cols →
  Script.ensure_column name col on_rows f = f.
Proof.
  intros Hl Hc. unfold Script.ensure_column.
  by rewrite Hl, bool_decide_eq_true_2.
Qed.

Lemma ensure_column_rows name col on_rows f :
  rows (Script.ensure_column name col on_rows f)
  = match columns_of f !! name with
    | Some cols => if bool_decide (col ∈ cols) then rows f else on_rows (rows f)
    | None => rows f
    end.
Proof.
  unfold Script.ensure_column.
  destruct (columns_of f !! name) as [c|]; [|done].
  by destruct (bool_decide (col ∈ c)).
Qed.

(** The columns of the tables after [init_db]. *)
Lemma prepared_lookup f name :
  columns_of (Script.prepared f) !! name
  = if decide (name = "users")
    then Some (match columns_of f !! "users" with
               | Some cols => if bool_decide ("blocked_count" ∈ cols) then cols
                              else (cols ++ ["blocked_count"])%list
               | None => Script.users_columns
               end)
    else if decide (name = "accounts")
    then Some (default Script.accounts_columns (columns_of f !! "accounts"))
    else if decide (name = "payment_history")
    then Some (default Script.payment_history_columns
                 (columns_of f !! "payment_history"))
    else if decide (name = "daily_blocked_counts")
    then Some (default Script.daily_blocked_counts_columns
                 (columns_of f !! "daily_blocked_counts"))
    else columns_of f !! name.
Proof.
  unfold Script.prepared.
  rewrite !ensure_table_lookup, !ensure_column_lookup, !ensure_table_lookup.
  repeat (case_decide; simplify_eq; try done).
  all: cbn; rewrite ?ensure_table_lookup, ?ensure_column_lookup,
         ?ensure_table_lookup; cbn; try done.
  destruct (columns_of f !! "users") as [c|]; cbn; [done|].
  by rewrite bool_decide_eq_true_2 by (unfold Script.users_columns; set_solver).
Qed.

Lemma prepared_rows f :
  rows (Script.prepared f)
  = match columns_of f !! "users" with
    | Some cols =>
        if bool_decide ("blocked_count" ∈ cols) then rows f
        else Script.default_blocked_count (rows f)
    | None => rows f
    end.
Proof.
  unfold Script.prepared.
  rewrite !ensure_table_rows, ensure_column_rows, ensure_table_lookup,
    ensure_table_rows.
  rewrite decide_True by done.
  destruct (columns_of f !! "users") as [c|]; cbn; [done|].
  by rewrite bool_decide_eq_true_2 by (unfold Script.users_columns; set_solver).
Qed.

Lemma prepared_idempotent f :
  Script.prepared (Script.prepared f) = Script.prepared f.
Proof.
  set (g := Script.prepared f). unfold Script.prepared at 1.
  assert (Hu : ∃ cols, columns_of g !! "users" = Some cols ∧
                       "blocked_count" ∈ cols).
  { subst g. rewrite prepared_lookup. rewrite decide_True by done.
    eexists. split; [done|].
    destruct (columns_of f !! "users") as [c|].
    - destruct (bool_decide ("blocked_count" ∈ c)) eqn:Hc.
      + by apply bool_decide_eq_true in Hc.
      + set_solver.
    - unfold Script.users_columns. set_solver. }
  destruct Hu as (cols & Hu & Hbc).
  rewrite (ensure_table_present "users") by (by eexists).
  rewrite (ensure_column_present "users" _ _ g cols) by done.
  assert (Hin : ∀ name, name ∈ Script.tables_of_main →
                        is_Some (columns_of g !! name)).
  { intros name Hin. subst g. rewrite prepared_lookup.
    unfold Script.tables_of_main in Hin.
    repeat (case_decide; [by eexists|]).
    repeat (apply elem_of_cons in Hin as [->|Hin]; [done|]).
    by apply elem_of_nil in Hin. }
  rewrite (ensure_table_present "accounts" _ g),
          (ensure_table_present "payment_history" _ g),
          (ensure_table_present "daily_blocked_counts" _ g);
    [done|apply Hin; unfold Script.tables_of_main; set_solver..].
Qed.

Ltac lookups :=
  repeat (rewrite ensure_table_lookup || rewrite ensure_column_lookup
          || rewrite ensure_table_rows || rewrite ensure_column_rows).

Lemma migrated_rows f :
  rows (Script.migrated f)
  = match columns_of f !! "accounts" with
    | Some cols =>
        if bool_decide ("is_connected" ∈ cols) then rows f
        else Script.set_is_connected (Some 0) (rows f)
    | None => rows f
    end.
Proof.
  unfold Script.migrated. lookups.
  rewrite decide_True by done. rewrite decide_False by done.
  destruct (columns_of f !! "accounts") as [c|]; cbn; [done|].
  rewrite bool_decide_eq_true_2; [done|].
  unfold Script.accounts_columns.
  apply elem_of_cons. right. apply elem_of_cons. right. left.
Qed.

Lemma migrated_accounts_columns f :
  ∃ cols, columns_of (Script.migrated f) !! "accounts" = Some cols ∧
          "is_connected" ∈ cols.
Proof.
  unfold Script.migrated. lookups.
  rewrite !(decide_False (P := "accounts" = "payment_history")) by done.
  rewrite !(decide_False (P := "accounts" = "blocked_accounts")) by done.
  rewrite !(decide_True (P := "accounts" = "accounts")) by done.
  rewrite !(decide_False (P := "accounts" = "users")) by done.
  set (c := default Script.accounts_columns (columns_of f !! "accounts")).
  cbn. destruct (bool_decide ("is_connected" ∈ c)) eqn:Hc.
  - eexists. split; [done|]. by apply bool_decide_eq_true in Hc.
  - eexists. split; [done|]. apply elem_of_app. right. left.
Qed.

Lemma migrated_leaves_daily f :
  columns_of (Script.migrated f) !! "daily_blocked_counts"
  = columns_of f !! "daily_blocked_counts".
Proof.
  unfold Script.migrated. lookups.
  by rewrite !decide_False by done.
Qed.

Lemma ltb_not_leb (a b : string) :
  String.ltb a b = true → String.leb b a = false.
Proof.
  unfold String.ltb, String.leb. rewrite (String.compare_antisym a b).
  by destruct (String.compare b a).
Qed.

(** The legacy row sorts before the row that [connect_instagram] writes, so
    the first row of the user in the order of the usernames is a legacy
    row. *)
Lemma head_legacy_row u (l : list account_row) a :
  a ∈ l → a_user_id a = u → String.ltb (username a) "@instagram_acc" = true →
  (∀ b, b ∈ l → is_connected b = Some 0) →
  head (map is_connected
          (index_order username
             (filter (fun b => a_user_id b = u)
                (filter (fun b => ¬ (a_user_id b = u ∧ username b = "@instagram_acc")) l
                 ++ [mk_account u "@instagram_acc" (Some 1)])%list)))
  = Some (Some 0).
Proof.
  intros Ha Hu Hlt Hall.
  set (rows := filter (fun b => a_user_id b = u) _).
  assert (Hin : a ∈ rows).
  { subst rows. apply list_elem_of_filter. split; [done|].
    apply elem_of_app. left. apply list_elem_of_filter. split; [|done].
    intros [_ Hn]. rewrite Hn in Hlt. vm_compute in Hlt. discriminate Hlt. }
  destruct (head (index_order username rows)) as [x|] eqn:Hx.
  - pose proof (index_order_head_least username rows x a Hx Hin) as Hle.
    pose proof (head_index_order_elem username rows x Hx) as Hxin.
    destruct (index_order username rows) as [|x' rest]; [done|].
    cbn in Hx. simplify_eq. cbn. f_equal.
    subst rows. apply list_elem_of_filter in Hxin as [_ Hxin].
    apply elem_of_app in Hxin as [Hxin|Hxin].
    + apply list_elem_of_filter in Hxin as [_ Hxin]. by apply Hall.
    + apply list_elem_of_singleton in Hxin. subst x. cbn in Hle.
      by rewrite (ltb_not_leb _ _ Hlt) in Hle.
  - apply head_None in Hx. apply index_order_nil_inv in Hx.
    rewrite Hx in Hin. by apply elem_of_nil in Hin.
Qed.

(** X29.  [init_db], when the directory, the connection and every
    statement are served, returns and leaves a file in which the four
    tables of main.py exist and [users] has the column [blocked_count];
    it drops nothing: a table that was there keeps its columns, in order,
    a table it does not know is left alone, and the rows are unchanged
    but for the default of a new [blocked_count]: where [users] was
    missing or had the column, the user rows keep their counters; where
    [users] was there without the column, every user row gets the counter
    0 and keeps the rest.  A second run, served, changes nothing.  When no connection is opened (the directory cannot
    be made, or [sqlite3.connect] fails) the [finally] block reads an
    unbound [conn]: the script raises UnboundLocalError, not the
    exception it was handling. *)
Theorem init_db_creates_what_is_missing (W W' : World) (f : file) :
  Script.serves W → Script.serves W' →
  let r := (Script.run_script (Script.init_db W) f).1 in
  let f' := (Script.run_script (Script.init_db W) f).2 in
  r = Returned tt ∧
  (∀ name, name ∈ Script.tables_of_main → is_Some (columns_of f' !! name)) ∧
  (∃ cols, columns_of f' !! "users" = Some cols ∧ "blocked_count" ∈ cols) ∧
  (∀ name cols, columns_of f !! name = Some cols →
     ∃ cols', columns_of f' !! name = Some cols' ∧ cols `prefix_of` cols') ∧
  (∀ name, name ∉ Script.tables_of_main →
     columns_of f' !! name = columns_of f !! name) ∧
  accounts (rows f') = accounts (rows f) ∧
  payment_history (rows f') = payment_history (rows f) ∧
  daily_blocked_counts (rows f') = daily_blocked_counts (rows f) ∧
  map identity (users (rows f')) = map identity (users (rows f)) ∧
  (columns_of f !! "users" = None ∨
   (∃ cols, columns_of f !! "users" = Some cols ∧ "blocked_count" ∈ cols) →
     users (rows f') = users (rows f)) ∧
  (∀ cols, columns_of f !! "users" = Some cols → "blocked_count" ∉ cols →
     users (rows f')
     = map (fun r => mk_user (u_id r) (email r) (password r)
                       (stripe_customer_id r) 0)
           (users (rows f))) ∧
  Script.run_script (Script.init_db W') f' = (Returned tt, f') ∧
  (∀ W0, (dir_exists W0 = false ∧ makedirs_error W0 = true)
         ∨ connect_error W0 = true →
     Script.run_script (Script.init_db W0) f = (Raised UnboundLocalError, f)).
Proof.
  intros Hs Hs' r f'. subst r f'. rewrite (init_db_served W f Hs).
  cbn [fst snd].
  split; [done|].
  split.
  { intros name Hin. rewrite prepared_lookup. unfold Script.tables_of_main in Hin.
    repeat (case_decide; [by eexists|]).
    repeat (apply elem_of_cons in Hin as [->|Hin]; [done|]).
    by apply elem_of_nil in Hin. }
  split.
  { rewrite prepared_lookup. rewrite decide_True by done.
    eexists. split; [done|].
    destruct (columns_of f !! "users") as [c|].
    - destruct (bool_decide ("blocked_count" ∈ c)) eqn:Hc.
      + by apply bool_decide_eq_true in Hc.
      + apply elem_of_app. right. left.
    - unfold Script.users_columns. do 4 (apply elem_of_cons; right). left. }
  split.
  { intros name cols Hl. rewrite prepared_lookup.
    repeat case_decide; simplify_eq; rewrite ?Hl; cbn.
    - destruct (bool_decide ("blocked_count" ∈ cols)).
      + by eexists.
      + eexists. split; [done|]. by apply prefix_app_r.
    - by eexists.
    - by eexists.
    - by eexists.
    - by eexists. }
  split.
  { intros name Hn. rewrite prepared_lookup. unfold Script.tables_of_main in Hn.
    repeat (case_decide; [exfalso; apply Hn; subst name|]); [..|done].
    - left.
    - right. left.
    - do 2 right. left.
    - do 3 right. left. }
  rewrite prepared_rows.
  assert (Hrows : ∀ db,
            accounts (Script.default_blocked_count db) = accounts db ∧
            payment_history (Script.default_blocked_count db) = payment_history db ∧
            daily_blocked_counts (Script.default_blocked_count db)
            = daily_blocked_counts db ∧
            map identity (users (Script.default_blocked_count db))
            = map identity (users db)).
  { intros db. repeat split. unfold Script.default_blocked_count. cbn.
    rewrite map_map. by apply map_ext. }
  split; [|split; [|split; [|split]]].
  1-4: destruct (columns_of f !! "users") as [c|]; [|done];
       destruct (bool_decide ("blocked_count" ∈ c)); [done|];
       apply (Hrows (rows f)).
  split.
  { intros [Hl|(cols & Hl & Hc)]; rewrite Hl; [done|].
    by rewrite bool_decide_eq_true_2. }
  split.
  { intros cols Hl Hn. rewrite Hl. by rewrite bool_decide_eq_false_2. }
  split.
  - rewrite (init_db_served W' _ Hs'). by rewrite prepared_idempotent.
  - intros W0. apply init_db_without_connection.
Qed.

Lemma init_db_creates_what_is_missing_witness :
  let r := (Script.run_script (Script.init_db Script.calm) Script.legacy_file).1 in
  let f' := (Script.run_script (Script.init_db Script.calm) Script.legacy_file).2 in
  r = Returned tt ∧
  (∀ name, name ∈ Script.tables_of_main → is_Some (columns_of f' !! name)) ∧
  (∃ cols, columns_of f' !! "users" = Some cols ∧ "blocked_count" ∈ cols) ∧
  (∀ name cols, columns_of Script.legacy_file !! name = Some cols →
     ∃ cols', columns_of f' !! name = Some cols' ∧ cols `prefix_of` cols') ∧
  (∀ name, name ∉ Script.tables_of_main →
     columns_of f' !! name = columns_of Script.legacy_file !! name) ∧
  accounts (rows f') = accounts (rows Script.legacy_file) ∧
  payment_history (rows f') = payment_history (rows Script.legacy_file) ∧
  daily_blocked_counts (rows f') = daily_blocked_counts (rows Script.legacy_file) ∧
  map identity (users (rows f')) = map identity (users (rows Script.legacy_file)) ∧
  (columns_of Script.legacy_file !! "users" = None ∨
   (∃ cols, columns_of Script.legacy_file !! "users" = Some cols ∧
            "blocked_count" ∈ cols) →
     users (rows f') = users (rows Script.legacy_file)) ∧
  (∀ cols, columns_of Script.legacy_file !! "users" = Some cols →
     "blocked_count" ∉ cols →
     users (rows f')
     = map (fun r => mk_user (u_id r) (email r) (password r)
                       (stripe_customer_id r) 0)
           (users (rows Script.legacy_file))) ∧
  Script.run_script (Script.init_db Script.calm) f' = (Returned tt, f') ∧
  (∀ W0, (dir_exists W0 = false ∧ makedirs_error W0 = true)
         ∨ connect_error W0 = true →
     Script.run_script (Script.init_db W0) Script.legacy_file
     = (Raised UnboundLocalError, Script.legacy_file)).
Proof.
  apply (init_db_creates_what_is_missing Script.calm Script.calm
           Script.legacy_file).
  - split; [by left|]. split; [reflexivity|]. intros n. reflexivity.
  - split; [by left|]. split; [reflexivity|]. intros n. reflexivity.
Defined.

(** X30.  [update_database] of db.py, when it is served, returns and
    leaves [accounts] with the column [is_connected].  On a file whose
    [accounts] table had no such column every account row is set to
    is_connected = 0, whatever it was before; otherwise the account rows
    are unchanged.  Users, payments and daily rows are never touched, and
    the table [daily_blocked_counts] is not created.  When no connection
    is opened the script raises UnboundLocalError from its [finally]
    block. *)
Theorem update_database_resets_legacy_accounts (W : World) (f : file) :
  Script.serves W →
  let r := (Script.run_script (Script.update_database W) f).1 in
  let f' := (Script.run_script (Script.update_database W) f).2 in
  r = Returned tt ∧
  (∃ cols, columns_of f' !! "accounts" = Some cols ∧ "is_connected" ∈ cols) ∧
  (∀ cols, columns_of f !! "accounts" = Some cols → "is_connected" ∉ cols →
     accounts (rows f')
     = map (fun a => mk_account (a_user_id a) (username a) (Some 0))
           (accounts (rows f))) ∧
  (columns_of f !! "accounts" = None ∨
   (∃ cols, columns_of f !! "accounts" = Some cols ∧ "is_connected" ∈ cols) →
     accounts (rows f') = accounts (rows f)) ∧
  users (rows f') = users (rows f) ∧
  payment_history (rows f') = payment_history (rows f) ∧
  daily_blocked_counts (rows f') = daily_blocked_counts (rows f) ∧
  columns_of f' !! "daily_blocked_counts"
  = columns_of f !! "daily_blocked_counts" ∧
  (∀ W0, (dir_exists W0 = false ∧ makedirs_error W0 = true)
         ∨ connect_error W0 = true →
     Script.run_script (Script.update_database W0) f
     = (Raised UnboundLocalError, f)).
Proof.
  intros Hs r f'. subst r f'. rewrite (update_database_served W f Hs).
  cbn [fst snd].
  split; [done|].
  split; [apply migrated_accounts_columns|].
  rewrite migrated_rows.
  split.
  { intros cols Hl Hn. rewrite Hl. by rewrite bool_decide_eq_false_2. }
  split.
  { intros [Hl|(cols & Hl & Hc)]; rewrite Hl; [done|].
    by rewrite bool_decide_eq_true_2. }
  split; [|split; [|split; [|split]]].
  1-3: destruct (columns_of f !! "accounts") as [c|]; [|done];
       by destruct (bool_decide ("is_connected" ∈ c)).
  - apply migrated_leaves_daily.
  - intros W0. apply update_database_without_connection.
Qed.

Lemma update_database_resets_legacy_accounts_witness :
  let f := Script.legacy_file in
  let r := (Script.run_script (Script.update_database Script.calm) f).1 in
  let f' := (Script.run_script (Script.update_database Script.calm) f).2 in
  r = Returned tt ∧
  (∃ cols, columns_of f' !! "accounts" = Some cols ∧ "is_connected" ∈ cols) ∧
  (∀ cols, columns_of f !! "accounts" = Some cols → "is_connected" ∉ cols →
     accounts (rows f')
     = map (fun a => mk_account (a_user_id a) (username a) (Some 0))
           (accounts (rows f))) ∧
  (columns_of f !! "accounts" = None ∨
   (∃ cols, columns_of f !! "accounts" = Some cols ∧ "is_connected" ∈ cols) →
     accounts (rows f') = accounts (rows f)) ∧
  users (rows f') = users (rows f) ∧
  payment_history (rows f') = payment_history (rows f) ∧
  daily_blocked_counts (rows f') = daily_blocked_counts (rows f) ∧
  columns_of f' !! "daily_blocked_counts"
  = columns_of f !! "daily_blocked_counts" ∧
  (∀ W0, (dir_exists W0 = false ∧ makedirs_error W0 = true)
         ∨ connect_error W0 = true →
     Script.run_script (Script.update_database W0) f
     = (Raised UnboundLocalError, f)).
Proof.
  apply (update_database_resets_legacy_accounts Script.calm Script.legacy_file).
  split; [by left|]. split; [reflexivity|]. intros n. reflexivity.
Defined.

(** X6.  A user whose account row dates from before the column
    [is_connected] is never served by the background task: after
    [update_database] has migrated the file and the user has called
    [connect_instagram], the dashboard shows the user as connected, but
    the background task, which reads the first account row only, does not
    select them, payment or not.  The row is one whose username sorts
    before "@instagram_acc", so it comes first in the order of the primary
    key, the order in which the task reads the rows. *)
Theorem migrated_accounts_are_never_selected
    (W : World) (f : file) (cols : list string) (a : account_row) :
  Script.serves W →
  columns_of f !! "accounts" = Some cols → "is_connected" ∉ cols →
  a ∈ accounts (rows f) →
  String.ltb (username a) "@instagram_acc" = true →
  let f' := (Script.run_script (Script.update_database W) f).2 in
  let db := Http.connect_instagram (a_user_id a) (rows f') in
  dashboard_instagram_connected db (a_user_id a) = true ∧
  selected db (a_user_id a) = false.
Proof.
  intros Hs Hl Hn Ha Hlt f' db.
  split; [apply connect_instagram_connected|].
  subst db f'. rewrite (update_database_served W f Hs).
  cbn [snd]. unfold selected, select_is_connected.
  assert (Hacc : accounts (rows (Script.migrated f))
                 = map (fun a => mk_account (a_user_id a) (username a) (Some 0))
                       (accounts (rows f))).
  { rewrite migrated_rows, Hl. by rewrite bool_decide_eq_false_2. }
  cbn [Http.connect_instagram accounts]. rewrite Hacc.
  rewrite (head_legacy_row (a_user_id a) _
             (mk_account (a_user_id a) (username a) (Some 0))).
  - cbn. apply andb_false_r.
  - apply list_elem_of_In, in_map_iff. exists a. split; [done|].
    by apply list_elem_of_In.
  - done.
  - done.
  - intros b Hb. apply list_elem_of_In, in_map_iff in Hb as (b0 & <- & _). done.
Qed.

Lemma migrated_accounts_are_never_selected_witness :
  let f' := (Script.run_script (Script.update_database Script.calm)
               Script.legacy_file).2 in
  let db := Http.connect_instagram 1 (rows f') in
  dashboard_instagram_connected db 1 = true ∧ selected db 1 = false.
Proof.
  apply (migrated_accounts_are_never_selected Script.calm Script.legacy_file
           ["user_id"; "username"] (mk_account 1 "@alice" None)).
  - split; [by left|]. split; [reflexivity|]. intros n. reflexivity.
  - reflexivity.
  - intros H. repeat (apply elem_of_cons in H as [H|H]; [discriminate H|]).
    by apply elem_of_nil in H.
  - left.
  - reflexivity.
Defined.
